(** * lookup_benchmark.cc: workload evaluator and lookup samplers

    A shallow embedding of the two batch samplers
    ([BM_PositiveDistinctLookup], [BM_NegativeLookup]) and of the workload
    loop of [main] in [src/lookup_benchmark.cc], followed by the properties
    the specification states about them.

    Conventions.
    - A C++ [long] is a [Z] in [[LONG_MIN, LONG_MAX]]; every arithmetic
      step of the source on a [long] is followed by [wrap64], a [size_t]
      step by [wrap_size_t].
    - Code that can fail or not return is in the [outcome] monad.
    - What the program prints and which index lookups it issues is its
      trace, a list of [event]s.
    - A [double] is idealised as a rational ([Q]): the reported averages are
      exact quotients. *)

From Stdlib Require Import ZArith QArith Lia Ascii String.
From stdpp Require Import base list strings gmap sets.

Open Scope Z_scope.

(** ** Machine integers *)

Definition LONG_MIN : Z := - 2 ^ 63.
Definition LONG_MAX : Z := 2 ^ 63 - 1.
Definition SIZE_MAX : Z := 2 ^ 64 - 1.

Definition in_long (z : Z) : Prop := LONG_MIN ≤ z ≤ LONG_MAX.

(** Two's complement reduction of an integer into the range of [long]. *)
Definition wrap64 (z : Z) : Z := (z + 2 ^ 63) mod 2 ^ 64 - 2 ^ 63.

(** Reduction modulo 2^64, the arithmetic of [size_t]. *)
Definition wrap_size_t (z : Z) : Z := z mod 2 ^ 64.

(** ** Outcomes *)

Inductive fault : Type :=
  | OutOfRange          (* std::out_of_range thrown by substr *)
  | BitmapPrecondition  (* Bitmap64::Set at a position past the size *)
  | VectorOutOfBounds   (* vector operator[] past the end *)
  | DivisionByZero      (* a quotient whose divisor is zero *)
  | Diverges.           (* a loop that never leaves *)

Inductive outcome (A : Type) : Type :=
  | Ok (a : A)
  | Fault (f : fault).

Arguments Ok {A} a.
Arguments Fault {A} f.

#[global] Instance outcome_ret : MRet outcome := fun _ a => Ok a.
#[global] Instance outcome_bind : MBind outcome := fun _ _ k m =>
  match m with
  | Ok a => k a
  | Fault f => Fault f
  end.

(** ** std::string *)

(** [s.find(pat)] from position 0: the index of the first occurrence of
    [pat] in [s], [None] for [npos]. *)
Fixpoint find_from (pos : nat) (s pat : string) : option nat :=
  if String.prefix pat s then Some pos
  else match s with
       | EmptyString => None
       | String _ s' => find_from (S pos) s' pat
       end.

Definition find (s pat : string) : option nat := find_from 0 s pat.

(** [s.substr(pos)]: the suffix from [pos]; throws when [pos > s.size()]. *)
Fixpoint substr (pos : nat) (s : string) : outcome string :=
  match pos, s with
  | O, _ => Ok s
  | S p, String _ s' => substr p s'
  | S _, EmptyString => Fault OutOfRange
  end.

(** [pat] occurs somewhere in [s]. *)
Definition has_substring (s pat : string) : Prop :=
  ∃ pre post, s = pre +:+ pat +:+ post.

(** [s] begins with [pat]. *)
Definition begins_with (s pat : string) : Prop :=
  ∃ post, s = pat +:+ post.

(** ** std::istringstream and formatted extraction

    The stream is its unread characters and its two error bits.  The
    extractors follow the C++17 library: the sentry refuses a stream that is
    not good, skips white space, and refuses again at end of input; a
    refused extraction stores nothing.  [num_get] for [long] reads an
    optional sign and the decimal digits that follow; with no digit it
    stores 0 and fails, out of range it stores [LONG_MAX] or [LONG_MIN] and
    fails. *)

Record istringstream : Type := mk_iss {
  buf : string;
  failbit : bool;
  eofbit : bool
}.

Definition iss_of (s : string) : istringstream :=
  {| buf := s; failbit := false; eofbit := false |}.

Definition good (iss : istringstream) : bool :=
  negb (failbit iss) && negb (eofbit iss).

Definition isspace (c : ascii) : bool :=
  match c with
  | " "%char | "009"%char | "010"%char | "011"%char | "012"%char
  | "013"%char => true
  | _ => false
  end.

Fixpoint skipws (s : string) : string :=
  match s with
  | String c s' => if isspace c then skipws s' else s
  | EmptyString => s
  end.

Definition digit_of (c : ascii) : option Z :=
  let n := Z.of_N (N_of_ascii c) in
  if (48 <=? n) && (n <=? 57) then Some (n - 48) else None.

(** The digits at the front of [s], accumulated in base ten onto [acc];
    [seen] records whether any digit was read. *)
Fixpoint accumulate (acc : Z) (seen : bool) (s : string) : Z * bool * string :=
  match s with
  | String c s' =>
      match digit_of c with
      | Some d => accumulate (10 * acc + d) true s'
      | None => (acc, seen, s)
      end
  | EmptyString => (acc, seen, s)
  end.

Definition strip_sign (s : string) : bool * string :=
  match s with
  | String "-"%char s' => (true, s')
  | String "+"%char s' => (false, s')
  | _ => (false, s)
  end.

(** The value stored, whether the conversion succeeded, and what is left. *)
Definition num_get_long (s : string) : Z * bool * string :=
  let '(negative, s1) := strip_sign s in
  let '(result, seen, rest) := accumulate 0 false s1 in
  if negb seen then (0, false, rest)
  else if (if negative then - LONG_MIN else LONG_MAX) <? result
       then (if negative then LONG_MIN else LONG_MAX, false, rest)
       else (if negative then - result else result, true, rest).

Definition is_empty (s : string) : bool :=
  match s with EmptyString => true | _ => false end.

(** [iss >> x] for [long x]: the stream afterwards and the value stored in
    [x], [None] when [x] is left as it was. *)
Definition extract_long (iss : istringstream) : istringstream * option Z :=
  if good iss then
    let s := skipws (buf iss) in
    if is_empty s then
      ({| buf := s; failbit := true; eofbit := true |}, None)
    else
      let '(v, ok, rest) := num_get_long s in
      ({| buf := rest; failbit := negb ok; eofbit := is_empty rest |}, Some v)
  else
    ({| buf := buf iss; failbit := true; eofbit := eofbit iss |}, None).

(** [iss >> c] for [char c]: the next character after white space. *)
Definition extract_char (iss : istringstream) : istringstream * option ascii :=
  if good iss then
    match skipws (buf iss) with
    | EmptyString =>
        ({| buf := EmptyString; failbit := true; eofbit := true |}, None)
    | String c rest =>
        ({| buf := rest; failbit := false; eofbit := false |}, Some c)
    end
  else
    ({| buf := buf iss; failbit := true; eofbit := eofbit iss |}, None).

(** ** Bitmap64 *)

(** Modelled from the spec: the class [ci::Bitmap64], which [main] uses and
    whose header is not under [src/]: a fixed-length sequence of boolean
    slots with construct-with-fill, [Set], the ascending list of true
    indices and the population count; [Set(i, v)] fails when [i] is not
    below the size. *)
Abbreviation Bitmap64 := (list bool).

(** Modelled from the spec: [Bitmap64(size, fill)], a bitmap of [size]
    slots all set to [fill]. *)
Definition Bitmap64_make (size : nat) (fill_value : bool) : Bitmap64 :=
  replicate size fill_value.

(** Modelled from the spec: [Set(i, v)] writes slot [i]; it is a
    precondition violation when [i] is not below the size. *)
Definition Set_ (pos : nat) (value : bool) (bm : Bitmap64) : outcome Bitmap64 :=
  if decide (pos < length bm)%nat then Ok (<[pos := value]> bm)
  else Fault BitmapPrecondition.

Fixpoint true_bits_from (i : nat) (bm : Bitmap64) : list nat :=
  match bm with
  | [] => []
  | b :: bm' => (if b then [i] else []) ++ true_bits_from (S i) bm'
  end.

(** Modelled from the spec: [TrueBitIndices()], the ascending list of the
    indices that are true. *)
Definition TrueBitIndices (bm : Bitmap64) : list nat := true_bits_from 0 bm.

(** Modelled from the spec: [GetOnesCount()], the number of true slots. *)
Fixpoint GetOnesCount (bm : Bitmap64) : nat :=
  match bm with
  | [] => 0
  | b :: bm' => ((if b then 1 else 0) + GetOnesCount bm')%nat
  end.

(** The true indices of a bitmap as a finite set. *)
Definition true_set (bm : Bitmap64) : gset nat := list_to_set (TrueBitIndices bm).

(** ** The index capability *)

(** Modelled from the spec: the abstract class [ci::IndexStructure], whose
    header is not under [src/]: given a value and the stripe count it
    returns the bitmap of the stripes that may hold the value. *)
Record IndexStructure : Type := {
  GetQualifyingStripes : Z → nat → Bitmap64
}.

(** The contract of the capability: the answer has one slot per stripe. *)
Definition index_sized (index : IndexStructure) : Prop :=
  ∀ value num_stripes,
    length (GetQualifyingStripes index value num_stripes) = num_stripes.

(** ** The workload evaluator (the loop of [main]) *)

Inductive event : Type :=
  | Echo (line : string)        (* std::cout << line *)
  | AvgBlk (avg : Q)            (* "avg blk num is:" *)
  | AvgTime (avg : Q)           (* "avg search time is:" *)
  | Lookup (value : Z).         (* index->GetQualifyingStripes(value, _) *)

(** [blkcount], [timecount] and [searchtime] of [main]. *)
Record state : Type := mk_state {
  blkcount : Z;
  timecount : Z;
  searchtime : Z
}.

Definition initial : state :=
  {| blkcount := 0; timecount := 0; searchtime := 0 |}.

Definition state_in_long (st : state) : Prop :=
  in_long (blkcount st) ∧ in_long (timecount st) ∧ in_long (searchtime st).

(** What one iteration of the loop takes from outside the program: the
    contents the uninitialised locals [startv] and [endv] happen to have,
    and the nanoseconds the clock measures around the lookups. *)
Record ambient : Type := mk_ambient {
  indet_startv : Z;
  indet_endv : Z;
  searchduration : Z
}.

(** A quotient of doubles.  A zero divisor is made a fault so that its
    absence is a property of the program. *)
Definition fdiv (a b : Q) : outcome Q :=
  if Qeq_bool b 0 then Fault DivisionByZero else Ok (a / b)%Q.

Definition nanos_per_second : Q := inject_Z 1000000000.

(** The guarded report, written twice in the source: at a header and after
    the loop. *)
Definition flush (st : state) : outcome (state * list event) :=
  if decide (searchtime st ≠ 0) then
    avg_blk ← fdiv (inject_Z (blkcount st)) (inject_Z (searchtime st));
    avg_time ← fdiv (inject_Z (timecount st))
                    (nanos_per_second * inject_Z (searchtime st))%Q;
    Ok (initial, [AvgBlk avg_blk; AvgTime avg_time])
  else Ok (st, []).

(** [iss >> startv >> comma >> endv]: the stream after the chain and what
    was stored in [startv] and in [endv]. *)
Definition extract_range (rest : string) : istringstream * option Z * option Z :=
  let '(iss1, startv) := extract_long (iss_of rest) in
  let '(iss2, comma) := extract_char iss1 in
  let '(iss3, endv) := extract_long iss2 in
  (iss3, startv, endv).

(** The bounds of a [range:] record: a local the chain did not store into
    keeps its indeterminate content. *)
Definition parse_range (a : ambient) (rest : string) : Z * Z :=
  let '(_, startv, endv) := extract_range rest in
  (default (indet_startv a) startv, default (indet_endv a) endv).

(** [iss >> startv; endv = startv] *)
Definition parse_point (a : ambient) (rest : string) : Z * Z :=
  let '(_, startv) := extract_long (iss_of rest) in
  let startv := default (indet_startv a) startv in
  (startv, startv).

(** The two query branches of the classification: the bounds of a query
    record, [None] for a line that is not one. *)
Definition query_bounds (a : ambient) (line : string) : outcome (option (Z * Z)) :=
  if decide (find line "range:" = Some 0%nat) then
    rest ← substr 6 line; Ok (Some (parse_range a rest))
  else if decide (find line "point:" = Some 0%nat) then
    rest ← substr 6 line; Ok (Some (parse_point a rest))
  else Ok None.

(** The inner loop, [for (int i = 0; i < tempres.size(); i++)]: every
    index of [tempres] is set in [totalres], in order. *)
Fixpoint set_true_bits (tempres : list nat) (totalres : Bitmap64) : outcome Bitmap64 :=
  match tempres with
  | [] => Ok totalres
  | i :: tempres' =>
      totalres' ← Set_ i true totalres; set_true_bits tempres' totalres'
  end.

Section Evaluator.

Variable index : IndexStructure.
Variable num_stripes : nat.

(** One pass of the body of the range loop. *)
Definition union_lookup (value : Z) (totalres : Bitmap64) : outcome Bitmap64 :=
  set_true_bits
    (TrueBitIndices (GetQualifyingStripes index value num_stripes)) totalres.

(** The accumulator after the lookups of the values [vs], in order. *)
Fixpoint union_lookups (vs : list Z) (totalres : Bitmap64) : outcome Bitmap64 :=
  match vs with
  | [] => Ok totalres
  | v :: vs' =>
      totalres' ← union_lookup v totalres; union_lookups vs' totalres'
  end.

(** [for (long value = startv; value <= endv; value++)], with the
    lookups it issues.  Out of fuel the loop has not left. *)
Fixpoint range_loop (fuel : nat) (value endv : Z) (totalres : Bitmap64)
  : outcome (Bitmap64 * list event) :=
  if decide (value ≤ endv) then
    match fuel with
    | O => Fault Diverges
    | S fuel' =>
        totalres' ← union_lookup value totalres;
        '(res, lookups) ← range_loop fuel' (wrap64 (value + 1)) endv totalres';
        Ok (res, Lookup value :: lookups)
    end
  else Ok (totalres, []).

(** The lookups of one query.  The fuel is the number of values of
    [[startv, endv]]: all the loop needs unless its counter wraps around
    (lemmas [range_loop_fuel] and [range_loop_wraps]). *)
Definition evaluate_query (startv endv : Z) : outcome (Bitmap64 * list event) :=
  range_loop (Z.to_nat (endv - startv + 1)) startv endv
             (Bitmap64_make num_stripes false).

(** The code after the classification, lines 304 to 318. *)
Definition run_query (a : ambient) (startv endv : Z) (st : state)
  : outcome (state * list event) :=
  let searchtime' := wrap64 (searchtime st + 1) in
  '(totalres, lookups) ← evaluate_query startv endv;
  Ok ({| blkcount := wrap64 (blkcount st + Z.of_nat (GetOnesCount totalres));
         timecount := wrap64 (timecount st + searchduration a);
         searchtime := searchtime' |}, lookups).

(** One iteration of the [while (std::getline(file, line))] loop. *)
Definition process_line (a : ambient) (line : string) (st : state)
  : outcome (state * list event) :=
  if decide (find line "selectivity" ≠ None) then
    '(st', report) ← flush st; Ok (st', report ++ [Echo line])
  else
    bounds ← query_bounds a line;
    match bounds with
    | Some (startv, endv) => run_query a startv endv st
    | None => Ok (st, [])
    end.

Fixpoint workload_loop (w : list (ambient * string)) (st : state)
  : outcome (state * list event) :=
  match w with
  | [] => Ok (st, [])
  | (a, line) :: w' =>
      '(st1, out1) ← process_line a line st;
      '(st2, out2) ← workload_loop w' st1;
      Ok (st2, out1 ++ out2)
  end.

(** The loop over the lines of the file, then the report after it. *)
Definition evaluate_workload (w : list (ambient * string))
  : outcome (state * list event) :=
  '(st, out) ← workload_loop w initial;
  '(st', report) ← flush st;
  Ok (st', out ++ report).

End Evaluator.

(** The branch of the [if]/[else if] chain a line takes. *)
Inductive line_class : Type := Header | RangeRecord | PointRecord | Ignored.

Definition classify (line : string) : line_class :=
  if decide (find line "selectivity" ≠ None) then Header
  else if decide (find line "range:" = Some 0%nat) then RangeRecord
  else if decide (find line "point:" = Some 0%nat) then PointRecord
  else Ignored.

(** The text [s] is a numeral of [v]: extraction from it succeeds, stores
    [v] and leaves nothing unread. *)
Definition reads_as (s : string) (v : Z) : Prop :=
  extract_long (iss_of s)
  = ({| buf := EmptyString; failbit := false; eofbit := true |}, Some v).

(** The characters a numeral is made of. *)
Definition numeral_char (c : ascii) : bool :=
  isspace c || bool_decide (c = "-"%char) || bool_decide (c = "+"%char)
  || bool_decide (is_Some (digit_of c)).

Fixpoint all_chars (p : ascii → bool) (s : string) : bool :=
  match s with
  | EmptyString => true
  | String c s' => p c && all_chars p s'
  end.

Definition digit_char (d : Z) : ascii := ascii_of_N (Z.to_N (48 + d)).

(** The decimal digits of a non-negative [n], most significant first, in
    front of [tail]. *)
Fixpoint decimal_digits (fuel : nat) (n : Z) (tail : string) : string :=
  match fuel with
  | O => tail
  | S fuel' =>
      let tail' := String (digit_char (n mod 10)) tail in
      if n <? 10 then tail' else decimal_digits fuel' (n / 10) tail'
  end.

(** The plain numeral of a [long]: a minus sign when negative, then the
    decimal digits (at most nineteen). *)
Definition decimal (v : Z) : string :=
  if v <? 0 then String "-"%char (decimal_digits 20 (- v) EmptyString)
  else decimal_digits 20 v EmptyString.

(** A query record whose remainder does not parse: the stream has failed
    after the extraction chain of its branch, which is what
    [if (!(iss >> ...))] would test. *)
Definition parse_fails (line : string) : Prop :=
  (∃ rest, line = "range:" +:+ rest ∧ failbit (extract_range rest).1.1 = true)
  ∨ (∃ rest, line = "point:" +:+ rest
            ∧ failbit (extract_long (iss_of rest)).1 = true).

(** The values of the inclusive range [[startv, endv]] in ascending order. *)
Definition range_values (startv endv : Z) : list Z :=
  seqZ startv (endv - startv + 1).

(** The union of the true sets of the lookups of [vs]. *)
Definition lookups_union (index : IndexStructure) (num_stripes : nat)
    (vs : list Z) : gset nat :=
  ⋃ ((λ v, true_set (GetQualifyingStripes index v num_stripes)) <$> vs).

(** A line that takes one of the two query branches. *)
Definition is_query (line : string) : Prop :=
  classify line = RangeRecord ∨ classify line = PointRecord.

(** The block count of the query a line asks for: the population count of
    its accumulator. *)
Definition query_blocks (index : IndexStructure) (num_stripes : nat)
    (q : ambient * string) : Z :=
  match query_bounds q.1 q.2 with
  | Ok (Some (startv, endv)) =>
      match evaluate_query index num_stripes startv endv with
      | Ok (totalres, _) => Z.of_nat (GetOnesCount totalres)
      | Fault _ => 0
      end
  | _ => 0
  end.

Definition Zsum (l : list Z) : Z := foldr Z.add 0 l.

(** The average block count a flush of [st] reports. *)
Definition avg_blk_of (st : state) : Q :=
  (inject_Z (blkcount st) / inject_Z (searchtime st))%Q.

(** *** Indexes, engines and columns for examples *)

(** An index over three stripes that sends 10, 20 and 30 to stripes 0, 1
    and 2. *)
Definition scenario_index : IndexStructure :=
  {| GetQualifyingStripes := fun value n =>
       (fun i => bool_decide (value = 10 * (Z.of_nat i + 1))) <$> seq 0 n |}.

(** An index for which every stripe qualifies for every value. *)
Definition full_index : IndexStructure :=
  {| GetQualifyingStripes := fun _ n => replicate n true |}.

Definition quiet (ns : Z) : ambient :=
  {| indet_startv := 0; indet_endv := 0; searchduration := ns |}.

(** ** The lookup samplers *)

Definition kLookupBatchSize : Z := 1000000.

(** [std::mt19937] with [std::uniform_int_distribution]: the engine state,
    its seeding, and a draw from [[a, b]], which returns the value and the
    next state. *)
Record Engine : Type := {
  Gen : Type;
  seed : Z → Gen;
  uniform_int : Z → Z → Gen → Z * Gen
}.

(** What the C++ library promises of a distribution over [[a, b]]. *)
Definition engine_in_range (E : Engine) : Prop :=
  ∀ a b g, a ≤ b → a ≤ (uniform_int E a b g).1 ≤ b.

(** Modelled from the spec: the class [ci::Column], whose header is not
    under [src/], as seen through the two methods the samplers call: its
    distinct values and its membership predicate. *)
Record Column : Type := {
  distinct_values : list Z;
  Contains : Z → bool
}.

(** Modelled from the spec: a distinct value is a value that appears in the
    column, so the membership predicate holds of it. *)
Definition column_sound (column : Column) : Prop :=
  ∀ v, v ∈ distinct_values column → Contains column v = true.

(** [v.erase(std::remove(v.begin(), v.end(), x), v.end())] *)
Definition erase_remove (x : Z) (v : list Z) : list Z :=
  filter (λ y, y ≠ x) v.

(** [v[i]] for a [size_t] index: past the end the read is undefined. *)
Definition vector_at (v : list Z) (i : Z) : outcome Z :=
  if decide (0 ≤ i) then
    match v !! Z.to_nat i with
    | Some x => Ok x
    | None => Fault VectorOutOfBounds
    end
  else Fault VectorOutOfBounds.

(** One pass of the timed loop: a lookup per batch value, in order. *)
Definition lookup_pass (values : list Z) : list event := Lookup <$> values.

Section Samplers.

Variable E : Engine.
Variable column : Column.
Variable kIntNullSentinel : Z.

(** The upper bound handed to the offset distribution:
    [distinct_values.size() - 1] in [size_t]. *)
Definition offset_bound (distinct : list Z) : Z :=
  wrap_size_t (Z.of_nat (length distinct) - 1).

(** The offsets the first [n] rounds of the filling loop draw. *)
Fixpoint offsets (n : nat) (hi : Z) (gen : Gen E) : list Z :=
  match n with
  | O => []
  | S n' =>
      let '(off, gen') := uniform_int E 0 hi gen in
      off :: offsets n' hi gen'
  end.

(** [n] rounds of [values.push_back(distinct_values[offset_d(gen)])]. *)
Fixpoint fill_positive (n : nat) (distinct : list Z) (hi : Z) (gen : Gen E)
  : outcome (list Z) :=
  match n with
  | O => Ok []
  | S n' =>
      let '(off, gen') := uniform_int E 0 hi gen in
      v ← vector_at distinct off;
      values ← fill_positive n' distinct hi gen';
      Ok (v :: values)
  end.

(** The batch [values] and the lookups of [passes] runs over it. *)
Definition BM_PositiveDistinctLookup (passes : nat)
  : outcome (list Z * list event) :=
  let gen := seed E 42 in
  let distinct := erase_remove kIntNullSentinel (distinct_values column) in
  let hi := offset_bound distinct in
  values ← fill_positive (Z.to_nat kLookupBatchSize) distinct hi gen;
  Ok (values, concat (replicate passes (lookup_pass values))).

(** [while (column.Contains(value)) value = value_d(gen);] *)
Fixpoint redraw (fuel : nat) (value : Z) (gen : Gen E) : outcome (Z * Gen E) :=
  if Contains column value then
    match fuel with
    | O => Fault Diverges
    | S fuel' =>
        let '(value', gen') := uniform_int E LONG_MIN LONG_MAX gen in
        redraw fuel' value' gen'
    end
  else Ok (value, gen).

(** [n] rounds of the filling loop; [fuel] bounds each inner loop. *)
Fixpoint fill_negative (fuel n : nat) (gen : Gen E) : outcome (list Z) :=
  match n with
  | O => Ok []
  | S n' =>
      let '(value, gen1) := uniform_int E LONG_MIN LONG_MAX gen in
      '(value', gen2) ← redraw fuel value gen1;
      values ← fill_negative fuel n' gen2;
      Ok (value' :: values)
  end.

Definition BM_NegativeLookup (fuel passes : nat)
  : outcome (list Z * list event) :=
  let gen := seed E 42 in
  values ← fill_negative fuel (Z.to_nat kLookupBatchSize) gen;
  Ok (values, concat (replicate passes (lookup_pass values))).

(** The [k]-th value the full-domain distribution yields from [gen],
    counting from zero. *)
Fixpoint nth_draw (k : nat) (gen : Gen E) : Z :=
  let '(value, gen') := uniform_int E LONG_MIN LONG_MAX gen in
  match k with
  | O => value
  | S k' => nth_draw k' gen'
  end.

(** From every state the engine comes to a value outside the column. *)
Definition finds_absent : Prop :=
  ∀ gen, ∃ k, Contains column (nth_draw k gen) = false.

End Samplers.

(** An engine for examples: the state is a counter, a draw is the counter
    clamped into [[a, b]]. *)
Definition counting_engine : Engine :=
  {| Gen := Z;
     seed := fun s => s;
     uniform_int := fun a b g => (Z.max a (Z.min b g), g + 1) |}.

Definition column_of (rows : list Z) : Column :=
  {| distinct_values := remove_dups rows;
     Contains := fun v => bool_decide (v ∈ rows) |}.

(** ** The rest of [main] *)

(** *** The sorting flag *)

Definition kNoSorting : string := "NONE".
Definition kByCardinalitySorting : string := "BY_CARDINALITY".
Definition kRandomSorting : string := "RANDOM".

(** [IsValidSorting]: membership in the hash set of the three names. *)
Definition IsValidSorting (sorting : string) : bool :=
  bool_decide (sorting ∈ ({[kNoSorting; kByCardinalitySorting;
                            kRandomSorting]} : gset string)).

(** What lines 186 to 198 do with the table: leave the program, or go on
    with a table. *)
Inductive sorting_outcome (Table : Type) : Type :=
  | ExitFailure                 (* std::exit(EXIT_FAILURE) *)
  | Continue (table : Table).

Arguments ExitFailure {Table}.
Arguments Continue {Table} table.

Section Sorting.

(** [ci::Table] with its two reordering methods, which are not under
    [src/]: parameters. *)
Variable Table : Type.
Variable SortWithCardinalityKey : Table → Table.
Variable Shuffle : Table → Table.

(** The table after the sorting step and the lines written to [std::cerr]. *)
Definition apply_sorting (sorting : string) (table : Table)
  : sorting_outcome Table * list string :=
  if negb (IsValidSorting sorting) then
    (ExitFailure, ["Invalid sorting method: " +:+ sorting])
  else if decide (sorting = kByCardinalitySorting) then
    (Continue (SortWithCardinalityKey table),
     ["Sorting the table according to column cardinality..."%string])
  else if decide (sorting = kRandomSorting) then
    (Continue (Shuffle table), ["Randomly shuffling the table..."%string])
  else (Continue table, []).

End Sorting.

(** *** Building the indexes *)

(** Modelled from the spec: [ci::IndexStructureFactory], whose header is not
    under [src/]: [Create(column, rows_per_stripe)] builds the index of a
    column. *)
Record IndexStructureFactory : Type := {
  Create : Column → Z → IndexStructure
}.

(** Modelled from the spec: a column of the table together with what
    [Column::num_rows()], which is not under [src/], returns for it. *)
Record TableColumn : Type := {
  table_column : Column;
  num_rows : Z
}.

(** The variables [index] and [num_stripes] of [main], and the values
    printed after ["byte_size is :"]. *)
Record build_state : Type := {
  built_index : option IndexStructure;
  built_num_stripes : Z;
  printed_byte_sizes : list Z
}.

Definition not_built : build_state :=
  {| built_index := None; built_num_stripes := 0; printed_byte_sizes := [] |}.

(** The two stripe sizes of the loop of line 213: just one. *)
Definition stripe_sizes : list Z := [50000].

Section Build.

(** [IndexStructure::byte_size()], not under [src/]: a parameter. *)
Variable byte_size : IndexStructure → Z.

(** The body of the innermost loop, lines 216 to 219.  The quotient is
    taken in [size_t] and stored in a [long]. *)
Definition build_one (column : TableColumn) (num_rows_per_stripe : Z)
    (st : build_state) (factory : IndexStructureFactory) : build_state :=
  let index := Create factory (table_column column) num_rows_per_stripe in
  {| built_index := Some index;
     built_num_stripes :=
       wrap64 (wrap_size_t (num_rows column) / num_rows_per_stripe);
     printed_byte_sizes := printed_byte_sizes st ++ [byte_size index] |}.

(** The three nested loops of lines 212 to 272. *)
Definition build_indexes (index_factories : list IndexStructureFactory)
    (columns : list TableColumn) : build_state :=
  foldl (λ st column,
           foldl (λ st num_rows_per_stripe,
                    foldl (build_one column num_rows_per_stripe)
                          st index_factories)
                 st stripe_sizes)
        not_built columns.

(** The two inner loops, for one column. *)
Definition build_column (index_factories : list IndexStructureFactory)
    (st : build_state) (column : TableColumn) : build_state :=
  foldl (λ st num_rows_per_stripe,
           foldl (build_one column num_rows_per_stripe) st index_factories)
        st stripe_sizes.

End Build.

(** ** Reading the trace of the evaluator *)

Definition is_header_line (line : string) : bool :=
  bool_decide (find line "selectivity" ≠ None).

Definition is_query_line (line : string) : bool :=
  match classify line with
  | RangeRecord | PointRecord => true
  | Header | Ignored => false
  end.

(** The lines echoed, the average block counts reported and the values
    looked up, each in the order of the trace. *)
Definition echoes (out : list event) : list string :=
  omap (λ e, match e with Echo line => Some line | _ => None end) out.

Definition reported_blocks (out : list event) : list Q :=
  omap (λ e, match e with AvgBlk q => Some q | _ => None end) out.

Definition looked_up (out : list event) : list Z :=
  omap (λ e, match e with Lookup v => Some v | _ => None end) out.

(** The trace without its lookups and echoes: the averages reported. *)
Definition is_report (e : event) : bool :=
  match e with AvgBlk _ | AvgTime _ => true | Echo _ | Lookup _ => false end.

Definition reports (out : list event) : list event :=
  filter (λ e, is_report e = true) out.

(** The lookups of the query a line asks for. *)
Definition query_lookups (index : IndexStructure) (num_stripes : nat)
    (q : ambient * string) : list event :=
  match query_bounds q.1 q.2 with
  | Ok (Some (startv, endv)) =>
      match evaluate_query index num_stripes startv endv with
      | Ok (_, lookups) => lookups
      | Fault _ => []
      end
  | _ => []
  end.

(** The report of a group whose queries are [qs]: nothing without a query,
    else the two averages over the totals the accumulators hold. *)
Definition group_report (index : IndexStructure) (num_stripes : nat)
    (qs : list (ambient * string)) : list event :=
  match qs with
  | [] => []
  | _ :: _ =>
      let count := inject_Z (Z.of_nat (length qs)) in
      [AvgBlk (inject_Z (wrap64 (Zsum (query_blocks index num_stripes <$> qs)))
               / count);
       AvgTime (inject_Z (wrap64 (Zsum ((λ q, searchduration q.1) <$> qs)))
                / (nanos_per_second * count))]
  end.

(** The counter of a state reached within [k] lines of the last reset: it
    counts queries, and at zero the accumulators are those of the reset. *)
Definition fresh (k : Z) (st : state) : Prop :=
  0 ≤ searchtime st ≤ k ∧ (searchtime st = 0 → st = initial).

(** The block-count total is at most [n] for each query counted. *)
Definition blocks_bounded (n : Z) (st : state) : Prop :=
  0 ≤ blkcount st ≤ searchtime st * n.

(** A reported average between zero and [n]. *)
Definition average_within (n : Z) (q : Q) : Prop :=
  (0 <= q)%Q ∧ (q <= inject_Z n)%Q.

(** A query whose loop counter stays a [long]. *)
Definition bounds_defined (a : ambient) (line : string) : Prop :=
  ∀ startv endv,
    query_bounds a line = Ok (Some (startv, endv)) →
    in_long startv ∧ endv < LONG_MAX.

(** The record of [line] gives the bounds its branch reads: both
    extractions of a range record store a value, the extraction of a point
    record does; a line that is no query record has no bound to give. *)
Definition stores_bounds (line : string) : bool :=
  if decide (find line "range:" = Some 0%nat) then
    match substr 6 line with
    | Ok rest =>
        match extract_range rest with
        | (_, Some _, Some _) => true
        | _ => false
        end
    | Fault _ => false
    end
  else if decide (find line "point:" = Some 0%nat) then
    match substr 6 line with
    | Ok rest =>
        match extract_long (iss_of rest) with
        | (_, Some _) => true
        | _ => false
        end
    | Fault _ => false
    end
  else true.

(** The loop over the range of the query a line asks for comes to an end. *)
Definition query_returns (index : IndexStructure) (num_stripes : nat)
    (q : ambient * string) : Prop :=
  ∀ startv endv,
    query_bounds q.1 q.2 = Ok (Some (startv, endv)) →
    ∃ r, evaluate_query index num_stripes startv endv = Ok r.

(** ** Reading the engine of the samplers *)

Section Draws.

Variable E : Engine.

(** The first [k] values the full-domain distribution yields from [gen], and
    the state of the engine after them. *)
Fixpoint draws (k : nat) (gen : Gen E) : list Z :=
  match k with
  | O => []
  | S k' =>
      let '(value, gen') := uniform_int E LONG_MIN LONG_MAX gen in
      value :: draws k' gen'
  end.

Fixpoint gen_after (k : nat) (gen : Gen E) : Gen E :=
  match k with
  | O => gen
  | S k' => gen_after k' (uniform_int E LONG_MIN LONG_MAX gen).2
  end.

End Draws.

(** * Examples *)

Example num_get_plain : num_get_long "42,7" = (42, true, ",7"%string).
Proof. reflexivity. Qed.

Example num_get_negative : num_get_long "-17" = (-17, true, EmptyString).
Proof. reflexivity. Qed.

Example num_get_no_digit : num_get_long "abc" = (0, false, "abc"%string).
Proof. reflexivity. Qed.

Example num_get_too_large :
  num_get_long "99999999999999999999" = (LONG_MAX, false, EmptyString).
Proof. reflexivity. Qed.

Example num_get_least :
  num_get_long "-9223372036854775808" = (LONG_MIN, true, EmptyString).
Proof. reflexivity. Qed.

Example scenario_range :
  evaluate_workload scenario_index 3 [(quiet 500, "range: 10,30"%string)]
  = Ok (initial,
        (Lookup <$> seqZ 10 21)
        ++ [AvgBlk (3 # 1); AvgTime (500 # 1000000000)]).
Proof. vm_compute. reflexivity. Qed.

Example scenario_two_groups :
  evaluate_workload scenario_index 3
    [(quiet 0, "selectivity=low"%string); (quiet 7, "point: 20"%string);
     (quiet 0, "selectivity=high"%string); (quiet 9, "point: 30"%string)]
  = Ok (initial,
        [Echo "selectivity=low"; Lookup 20;
         AvgBlk (1 # 1); AvgTime (7 # 1000000000);
         Echo "selectivity=high"; Lookup 30;
         AvgBlk (1 # 1); AvgTime (9 # 1000000000)]).
Proof. vm_compute. reflexivity. Qed.

Example scenario_empty_group :
  evaluate_workload scenario_index 3
    [(quiet 0, "selectivity=low"%string); (quiet 0, "selectivity=high"%string)]
  = Ok (initial, [Echo "selectivity=low"; Echo "selectivity=high"]).
Proof. vm_compute. reflexivity. Qed.

Example fill_positive_small :
  fill_positive counting_engine 4 [7; 8; 9] 2 0 = Ok [7; 8; 9; 9].
Proof. reflexivity. Qed.

Example fill_positive_nothing_to_read :
  fill_positive counting_engine 4 [] (offset_bound []) 0
  = Fault VectorOutOfBounds.
Proof. reflexivity. Qed.

Example fill_negative_small :
  fill_negative counting_engine (column_of [42; 43; 45]) 5 3 42
  = Ok [44; 46; 47].
Proof. vm_compute. reflexivity. Qed.

(** When the first extraction fails the chain stops: [startv] holds the 0
    the failure stored and [endv] is never written. *)
Example range_start_unparsed (a : ambient) :
  query_bounds a "range: x,7" = Ok (Some (0, indet_endv a)).
Proof. reflexivity. Qed.

(** A record without an end bound leaves [endv] unwritten as well. *)
Example range_end_absent (a : ambient) :
  query_bounds a "range: 5" = Ok (Some (5, indet_endv a)).
Proof. reflexivity. Qed.

Example range_end_unparsed (a : ambient) :
  query_bounds a "range: 5,x" = Ok (Some (5, 0)).
Proof. reflexivity. Qed.

(** The separator is any one character. *)
Example range_other_separator (a : ambient) :
  query_bounds a "range: 5;7" = Ok (Some (5, 7)).
Proof. reflexivity. Qed.

Example point_empty (a : ambient) :
  query_bounds a "point:" = Ok (Some (indet_startv a, indet_startv a)).
Proof. reflexivity. Qed.

(** * Properties *)

(** ** Machine integers *)

Lemma wrap64_in_long (z : Z) : in_long (wrap64 z).
Proof.
  unfold in_long, wrap64, LONG_MIN, LONG_MAX.
  pose proof (Z.mod_pos_bound (z + 2 ^ 63) (2 ^ 64) ltac:(lia)). lia.
Qed.

Lemma wrap64_id (z : Z) : in_long z → wrap64 z = z.
Proof.
  unfold in_long, wrap64, LONG_MIN, LONG_MAX. intros Hz.
  rewrite Z.mod_small; lia.
Qed.

Lemma wrap64_add_l (x y : Z) : wrap64 (wrap64 x + y) = wrap64 (x + y).
Proof.
  unfold wrap64. f_equal.
  replace ((x + 2 ^ 63) mod 2 ^ 64 - 2 ^ 63 + y + 2 ^ 63)
    with ((x + 2 ^ 63) mod 2 ^ 64 + y) by lia.
  rewrite Z.add_mod_idemp_l by lia. f_equal. lia.
Qed.

Lemma wrap64_succ_max : wrap64 (LONG_MAX + 1) = LONG_MIN.
Proof. reflexivity. Qed.

Lemma in_long_0 : in_long 0.
Proof. unfold in_long, LONG_MIN, LONG_MAX. lia. Qed.

Lemma initial_in_long : state_in_long initial.
Proof. repeat split; apply in_long_0 || (cbn; unfold LONG_MIN, LONG_MAX; lia). Qed.

(** ** Outcomes *)

Lemma bind_Ok {A B} (m : outcome A) (k : A → outcome B) (b : B) :
  m ≫= k = Ok b ↔ ∃ a, m = Ok a ∧ k a = Ok b.
Proof.
  destruct m as [a|f]; cbn; split.
  - eauto.
  - intros (a' & [= <-] & H). exact H.
  - discriminate.
  - intros (a' & [=] & _).
Qed.

Lemma bind_Fault {A B} (m : outcome A) (k : A → outcome B) (f : fault) :
  m ≫= k = Fault f ↔ m = Fault f ∨ ∃ a, m = Ok a ∧ k a = Fault f.
Proof.
  destruct m as [a|f']; cbn; split.
  - eauto.
  - intros [[=] | (a' & [= <-] & H)]. exact H.
  - intros [= ->]. left. reflexivity.
  - intros [[= ->] | (a' & [=] & _)]. reflexivity.
Qed.

(** ** Strings *)

Lemma append_String (c : ascii) (s t : string) :
  String c s +:+ t = String c (s +:+ t).
Proof. reflexivity. Qed.

Lemma append_empty (t : string) : EmptyString +:+ t = t.
Proof. reflexivity. Qed.

Lemma prefix_begins_with (pat s : string) :
  String.prefix pat s = true ↔ begins_with s pat.
Proof.
  unfold begins_with. revert s.
  induction pat as [|c pat IH]; intros [|d s]; cbn.
  - split; [intros _; exists EmptyString; reflexivity | reflexivity].
  - split; [intros _; exists (String d s); reflexivity | reflexivity].
  - split; [discriminate | intros (post & [=])].
  - destruct (Ascii.ascii_dec c d) as [->|Hne].
    + rewrite IH. split; intros (post & H); exists post.
      * rewrite append_String. congruence.
      * rewrite append_String in H. congruence.
    + split; [discriminate |].
      intros (post & H). rewrite append_String in H. congruence.
Qed.

Lemma find_from_lower (pos : nat) (s pat : string) (i : nat) :
  find_from pos s pat = Some i → (pos ≤ i)%nat.
Proof.
  revert pos. induction s as [|c s IH]; intros pos; cbn [find_from].
  - destruct (String.prefix pat ""); [intros [= <-]; lia | discriminate].
  - destruct (String.prefix pat (String c s)); [intros [= <-]; lia |].
    intros H%IH. lia.
Qed.

Lemma find_from_is_Some (pos : nat) (s pat : string) :
  is_Some (find_from pos s pat) ↔ has_substring s pat.
Proof.
  unfold has_substring. revert pos.
  induction s as [|c s IH]; intros pos; cbn [find_from].
  - destruct (String.prefix pat "") eqn:Hp.
    + apply prefix_begins_with in Hp as (post & Hp).
      split; [intros _; exists EmptyString, post; exact Hp | eauto].
    + split; [intros [? [=]] |].
      intros (pre & post & H). destruct pre; [| discriminate].
      rewrite append_empty in H.
      assert (String.prefix pat "" = true) as Ht
        by (apply prefix_begins_with; exists post; exact H).
      congruence.
  - destruct (String.prefix pat (String c s)) eqn:Hp.
    + apply prefix_begins_with in Hp as (post & Hp).
      split; [intros _; exists EmptyString, post; exact Hp | eauto].
    + rewrite IH. split.
      * intros (pre & post & ->). exists (String c pre), post. reflexivity.
      * intros (pre & post & H). destruct pre as [|d pre].
        -- rewrite append_empty in H.
           assert (String.prefix pat (String c s) = true) as Ht
             by (apply prefix_begins_with; exists post; exact H).
           congruence.
        -- rewrite append_String in H. injection H as _ ->. eauto.
Qed.

(** [s.find(pat) != npos] says that [pat] occurs in [s]. *)
Lemma find_npos (s pat : string) :
  find s pat ≠ None ↔ has_substring s pat.
Proof.
  unfold find. rewrite <- (find_from_is_Some 0), <- not_eq_None_Some. tauto.
Qed.

(** [s.find(pat) == 0] says that [s] begins with [pat]. *)
Lemma find_zero (s pat : string) :
  find s pat = Some 0%nat ↔ begins_with s pat.
Proof.
  rewrite <- prefix_begins_with. unfold find.
  destruct s as [|c s]; cbn [find_from]; destruct (String.prefix pat _) eqn:Hp;
    try (split; congruence).
  split; [| discriminate]. intros H%find_from_lower. lia.
Qed.

Lemma substr_append (pat rest : string) :
  substr (String.length pat) (pat +:+ rest) = Ok rest.
Proof. induction pat as [|c pat IH]; cbn; [destruct rest |]; auto. Qed.

(** ** Bitmaps *)

Lemma elem_of_true_bits_from (i : nat) (bm : Bitmap64) (k : nat) :
  k ∈ true_bits_from i bm ↔ ∃ j, k = (i + j)%nat ∧ bm !! j = Some true.
Proof.
  revert i. induction bm as [|b bm IH]; intros i; cbn [true_bits_from].
  - split; [intros H; inversion H | intros (j & _ & [=])].
  - rewrite elem_of_app, IH. split.
    + intros [H | (j & -> & Hj)].
      * destruct b; [| inversion H].
        apply list_elem_of_singleton in H as ->. exists 0%nat.
        split; [lia | reflexivity].
      * exists (S j). split; [lia | exact Hj].
    + intros ([|j] & -> & Hj); cbn in Hj.
      * left. injection Hj as ->. replace (i + 0)%nat with i by lia.
        apply list_elem_of_singleton. reflexivity.
      * right. exists j. split; [lia | exact Hj].
Qed.

Lemma elem_of_TrueBitIndices (bm : Bitmap64) (k : nat) :
  k ∈ TrueBitIndices bm ↔ bm !! k = Some true.
Proof.
  unfold TrueBitIndices. rewrite elem_of_true_bits_from. split.
  - intros (j & -> & Hj). exact Hj.
  - intros H. exists k. split; [reflexivity | exact H].
Qed.

Lemma elem_of_true_set (bm : Bitmap64) (k : nat) :
  k ∈ true_set bm ↔ bm !! k = Some true.
Proof. unfold true_set. rewrite elem_of_list_to_set. apply elem_of_TrueBitIndices. Qed.

Lemma TrueBitIndices_bound (bm : Bitmap64) :
  Forall (λ k, (k < length bm)%nat) (TrueBitIndices bm).
Proof.
  apply Forall_forall. intros k Hk%elem_of_TrueBitIndices.
  eapply lookup_lt_Some, Hk.
Qed.

Lemma true_bits_from_NoDup (i : nat) (bm : Bitmap64) :
  NoDup (true_bits_from i bm).
Proof.
  revert i. induction bm as [|b bm IH]; intros i; cbn [true_bits_from].
  - constructor.
  - destruct b; cbn; [| apply IH].
    constructor; [| apply IH].
    rewrite elem_of_true_bits_from. intros (j & Hj & _). lia.
Qed.

Lemma GetOnesCount_length (bm : Bitmap64) :
  GetOnesCount bm = length (TrueBitIndices bm).
Proof.
  unfold TrueBitIndices. generalize 0%nat.
  induction bm as [|b bm IH]; intros i; cbn [GetOnesCount true_bits_from].
  - reflexivity.
  - rewrite length_app, (IH (S i)). destruct b; reflexivity.
Qed.

(** The population count is the size of the set of true indices. *)
Lemma GetOnesCount_size (bm : Bitmap64) :
  GetOnesCount bm = size (true_set bm).
Proof.
  rewrite GetOnesCount_length. unfold true_set.
  rewrite size_list_to_set; [reflexivity | apply true_bits_from_NoDup].
Qed.

Lemma true_set_make_false (size : nat) : true_set (Bitmap64_make size false) = ∅.
Proof.
  apply set_eq. intros k. rewrite elem_of_true_set. unfold Bitmap64_make.
  split; [| intros H; inversion H].
  intros [[=] _]%lookup_replicate.
Qed.

Lemma GetOnesCount_make_false (size : nat) :
  GetOnesCount (Bitmap64_make size false) = 0%nat.
Proof. rewrite GetOnesCount_size, true_set_make_false. apply size_empty. Qed.

Lemma length_make (size : nat) (fill : bool) :
  length (Bitmap64_make size fill) = size.
Proof. apply length_replicate. Qed.

Lemma Set_Ok (pos : nat) (value : bool) (bm : Bitmap64) :
  (pos < length bm)%nat → Set_ pos value bm = Ok (<[pos := value]> bm).
Proof. intros H. unfold Set_. rewrite decide_True by exact H. reflexivity. Qed.

Lemma true_set_set_true (pos : nat) (bm : Bitmap64) :
  (pos < length bm)%nat →
  true_set (<[pos := true]> bm) = {[pos]} ∪ true_set bm.
Proof.
  intros Hpos. apply set_eq. intros k.
  rewrite elem_of_union, elem_of_singleton, !elem_of_true_set.
  destruct (decide (pos = k)) as [->|Hne].
  - rewrite list_lookup_insert_eq by exact Hpos. tauto.
  - rewrite list_lookup_insert_ne by exact Hne. split; [tauto |].
    intros [-> | H]; [congruence | exact H].
Qed.

(** Setting indices that are all in range succeeds and adds exactly them. *)
Lemma set_true_bits_Ok (tempres : list nat) (totalres : Bitmap64) :
  Forall (λ k, (k < length totalres)%nat) tempres →
  ∃ res, set_true_bits tempres totalres = Ok res
         ∧ length res = length totalres
         ∧ true_set res = true_set totalres ∪ list_to_set tempres.
Proof.
  revert totalres. induction tempres as [|i tempres IH]; intros totalres Hall.
  - exists totalres. cbn [set_true_bits]. repeat split.
    rewrite list_to_set_nil, (right_id_L ∅ (∪)). reflexivity.
  - apply Forall_cons in Hall as [Hi Hall]. cbn [set_true_bits].
    rewrite (Set_Ok _ _ _ Hi). cbn [mbind outcome_bind].
    destruct (IH (<[i := true]> totalres)) as (res & Hres & Hlen & Hset).
    { rewrite length_insert. exact Hall. }
    exists res. rewrite length_insert in Hlen.
    repeat split; [exact Hres | exact Hlen |].
    rewrite Hset, true_set_set_true, list_to_set_cons by exact Hi.
    rewrite (comm_L (∪) {[i]}), (assoc_L (∪)). reflexivity.
Qed.

(** An index out of range stops the inner loop with a fault. *)
Lemma set_true_bits_out_of_range (i : nat) (tempres : list nat) (totalres : Bitmap64) :
  (length totalres ≤ i)%nat →
  set_true_bits (i :: tempres) totalres = Fault BitmapPrecondition.
Proof.
  intros H. cbn. unfold Set_. rewrite decide_False by lia. reflexivity.
Qed.

(** ** The range loop *)

Section EvaluatorFacts.

Variable index : IndexStructure.
Variable num_stripes : nat.

Lemma union_lookup_Ok (value : Z) (totalres : Bitmap64) :
  index_sized index → length totalres = num_stripes →
  ∃ res, union_lookup index num_stripes value totalres = Ok res
         ∧ length res = num_stripes
         ∧ true_set res
           = true_set totalres
             ∪ true_set (GetQualifyingStripes index value num_stripes).
Proof.
  intros Hsized Hlen. unfold union_lookup.
  destruct (set_true_bits_Ok
              (TrueBitIndices (GetQualifyingStripes index value num_stripes))
              totalres) as (res & Hres & Hl & Hset).
  { eapply Forall_impl; [apply TrueBitIndices_bound |].
    cbn. intros k Hk. rewrite Hsized in Hk. lia. }
  exists res. rewrite Hl, Hlen. auto.
Qed.

Lemma union_lookups_Ok (vs : list Z) (totalres : Bitmap64) :
  index_sized index → length totalres = num_stripes →
  ∃ res, union_lookups index num_stripes vs totalres = Ok res
         ∧ length res = num_stripes
         ∧ true_set res = true_set totalres ∪ lookups_union index num_stripes vs.
Proof.
  intros Hsized. revert totalres.
  induction vs as [|v vs IH]; intros totalres Hlen; cbn [union_lookups].
  - exists totalres. repeat split; [exact Hlen |].
    unfold lookups_union. cbn. rewrite (right_id_L ∅ (∪)). reflexivity.
  - destruct (union_lookup_Ok v totalres Hsized Hlen) as (r1 & -> & Hl1 & Hs1).
    cbn. destruct (IH r1 Hl1) as (res & Hres & Hl & Hs).
    exists res. repeat split; [exact Hres | exact Hl |].
    rewrite Hs, Hs1. unfold lookups_union. cbn.
    rewrite (assoc_L (∪)). reflexivity.
Qed.

Lemma union_lookups_app (vs ws : list Z) (totalres : Bitmap64) :
  union_lookups index num_stripes (vs ++ ws) totalres
  = union_lookups index num_stripes vs totalres
      ≫= union_lookups index num_stripes ws.
Proof.
  revert totalres. induction vs as [|v vs IH]; intros totalres; cbn.
  - reflexivity.
  - destruct (union_lookup index num_stripes v totalres); cbn; auto.
Qed.

(** A range that is empty costs no lookup, whatever the fuel. *)
Lemma range_loop_empty (fuel : nat) (value endv : Z) (totalres : Bitmap64) :
  endv < value →
  range_loop index num_stripes fuel value endv totalres = Ok (totalres, []).
Proof.
  intros H. destruct fuel; cbn; rewrite decide_False by lia; reflexivity.
Qed.

(** With a counter that stays below [LONG_MAX] the loop is the fold over
    the values of the range, and it issues one lookup per value. *)
Lemma range_loop_eq (fuel : nat) (value endv : Z) (totalres : Bitmap64) :
  in_long value → endv < LONG_MAX →
  (Z.to_nat (endv - value + 1) ≤ fuel)%nat →
  range_loop index num_stripes fuel value endv totalres
  = res ← union_lookups index num_stripes (range_values value endv) totalres;
    Ok (res, Lookup <$> range_values value endv).
Proof.
  unfold range_values. revert value totalres.
  induction fuel as [|fuel IH]; intros value totalres Hv He Hfuel.
  - assert (endv < value) by lia.
    rewrite range_loop_empty by lia.
    replace (endv - value + 1) with (- (value - endv - 1)) by lia.
    rewrite seqZ_nil by lia. reflexivity.
  - destruct (decide (value ≤ endv)) as [Hle|Hgt].
    + cbn [range_loop]. rewrite decide_True by exact Hle.
      rewrite (seqZ_cons value) by lia. cbn [union_lookups fmap list_fmap].
      destruct (union_lookup index num_stripes value totalres) as [r1|f];
        [| reflexivity].
      cbn. rewrite wrap64_id by (unfold in_long, LONG_MAX in *; lia).
      rewrite IH; [| unfold in_long, LONG_MAX in *; lia | exact He | lia].
      replace (endv - (value + 1) + 1) with (Z.pred (endv - value + 1)) by lia.
      replace (Z.succ value) with (value + 1) by lia.
      destruct (union_lookups _ _ _ r1); reflexivity.
    + rewrite range_loop_empty by lia.
      replace (endv - value + 1) with (- (value - endv - 1)) by lia.
      rewrite seqZ_nil by lia. reflexivity.
Qed.

(** More fuel does not change what the loop returns. *)
Lemma range_loop_fuel (fuel fuel' : nat) (value endv : Z)
      (totalres : Bitmap64) (r : Bitmap64 * list event) :
  range_loop index num_stripes fuel value endv totalres = Ok r →
  (fuel ≤ fuel')%nat →
  range_loop index num_stripes fuel' value endv totalres = Ok r.
Proof.
  revert fuel' value totalres r.
  induction fuel as [|fuel IH]; intros fuel' value totalres r; cbn [range_loop].
  - destruct (decide (value ≤ endv)); [discriminate |].
    intros Hr _. rewrite range_loop_empty by lia. exact Hr.
  - destruct (decide (value ≤ endv)) as [Hle|Hgt].
    + intros Hr Hfuel. destruct fuel' as [|fuel']; [lia |].
      cbn [range_loop]. rewrite decide_True by exact Hle.
      destruct (union_lookup index num_stripes value totalres) as [r1|f];
        [| discriminate].
      cbn in Hr |- *.
      destruct (range_loop index num_stripes fuel _ endv r1) as [[res ls]|f]
        eqn:Hloop; [| discriminate].
      rewrite (IH fuel' _ _ _ Hloop) by lia. exact Hr.
    + intros Hr _. rewrite range_loop_empty by lia. exact Hr.
Qed.

(** At [endv = LONG_MAX] the counter wraps around to [LONG_MIN] and the
    condition of the loop never fails: no fuel is enough. *)
Lemma range_loop_wraps (fuel : nat) (value : Z) (totalres : Bitmap64) :
  index_sized index → length totalres = num_stripes → in_long value →
  range_loop index num_stripes fuel value LONG_MAX totalres = Fault Diverges.
Proof.
  intros Hsized. revert value totalres.
  induction fuel as [|fuel IH]; intros value totalres Hlen Hv;
    cbn [range_loop]; rewrite decide_True by apply Hv; [reflexivity |].
  destruct (union_lookup_Ok value totalres Hsized Hlen) as (r1 & -> & Hl1 & _).
  cbn. rewrite IH; [reflexivity | exact Hl1 | apply wrap64_in_long].
Qed.

(** At [endv = LONG_MAX] the loop is left only by a fault. *)
Lemma range_loop_max_not_Ok (fuel : nat) (value : Z) (totalres : Bitmap64)
      (r : Bitmap64 * list event) :
  in_long value →
  range_loop index num_stripes fuel value LONG_MAX totalres ≠ Ok r.
Proof.
  revert value totalres r.
  induction fuel as [|fuel IH]; intros value totalres r Hv;
    cbn [range_loop]; rewrite decide_True by apply Hv; [discriminate |].
  destruct (union_lookup index num_stripes value totalres) as [r1|f];
    [| discriminate].
  cbn [mbind outcome_bind].
  destruct (range_loop index num_stripes fuel (wrap64 (value + 1)) LONG_MAX r1)
    as [[res lookups]|f] eqn:Hloop; [| discriminate].
  exfalso. eapply IH, Hloop. apply wrap64_in_long.
Qed.

(** The fuel of [evaluate_query] is enough whenever any fuel is. *)
Lemma evaluate_query_complete (fuel : nat) (startv endv : Z)
      (r : Bitmap64 * list event) :
  in_long startv → in_long endv →
  range_loop index num_stripes fuel startv endv
             (Bitmap64_make num_stripes false) = Ok r →
  evaluate_query index num_stripes startv endv = Ok r.
Proof.
  intros Hs He Hr. unfold evaluate_query.
  destruct (decide (endv = LONG_MAX)) as [-> | Hne].
  - exfalso. eapply range_loop_max_not_Ok, Hr. exact Hs.
  - assert (endv < LONG_MAX) as Hlt by (unfold in_long in He; lia).
    destruct (Nat.le_gt_cases fuel (Z.to_nat (endv - startv + 1))) as [Hle | Hgt].
    + eapply range_loop_fuel; eauto.
    + rewrite range_loop_eq in Hr |- * by (auto; lia). exact Hr.
Qed.

Lemma evaluate_query_empty (startv endv : Z) :
  endv < startv →
  evaluate_query index num_stripes startv endv
  = Ok (Bitmap64_make num_stripes false, []).
Proof. intros H. unfold evaluate_query. apply range_loop_empty, H. Qed.

Lemma evaluate_query_eq (startv endv : Z) :
  in_long startv → endv < LONG_MAX →
  evaluate_query index num_stripes startv endv
  = res ← union_lookups index num_stripes (range_values startv endv)
                        (Bitmap64_make num_stripes false);
    Ok (res, Lookup <$> range_values startv endv).
Proof.
  intros Hs He. unfold evaluate_query. apply range_loop_eq; auto.
Qed.

End EvaluatorFacts.

(** ** Extraction *)

Lemma digit_of_bound (c : ascii) (d : Z) : digit_of c = Some d → 0 ≤ d ≤ 9.
Proof.
  unfold digit_of.
  destruct (_ && _) eqn:H; [| discriminate]. intros [= <-]. lia.
Qed.

Lemma accumulate_lower (acc : Z) (seen : bool) (s : string) :
  0 ≤ acc → 0 ≤ (accumulate acc seen s).1.1.
Proof.
  revert acc seen. induction s as [|c s IH]; intros acc seen Hacc;
    cbn [accumulate].
  - exact Hacc.
  - destruct (digit_of c) as [d|] eqn:Hd; [| exact Hacc].
    apply IH. apply digit_of_bound in Hd. lia.
Qed.

(** What [num_get] stores is a [long]. *)
Lemma num_get_long_in_long (s : string) : in_long (num_get_long s).1.1.
Proof.
  unfold num_get_long. destruct (strip_sign s) as [negative s1].
  pose proof (accumulate_lower 0 false s1 ltac:(lia)) as Hlow.
  destruct (accumulate 0 false s1) as [[result seen] rest]. cbn in Hlow.
  unfold in_long, LONG_MIN, LONG_MAX in *.
  destruct seen; cbn; [| lia].
  destruct negative; destruct (_ <? result) eqn:Hcmp; cbn; lia.
Qed.

(** A conversion that fails stores zero or a saturated bound. *)
Lemma num_get_long_failed (s : string) (v : Z) (rest : string) :
  num_get_long s = (v, false, rest) → v = 0 ∨ v = LONG_MIN ∨ v = LONG_MAX.
Proof.
  unfold num_get_long. destruct (strip_sign s) as [negative s1].
  destruct (accumulate 0 false s1) as [[result seen] rest'].
  destruct seen; cbn; [| intros [= <- _]; auto].
  destruct (_ <? result); [| discriminate].
  destruct negative; intros [= <- _]; auto.
Qed.

Lemma extract_long_in_long (iss iss' : istringstream) (v : Z) :
  extract_long iss = (iss', Some v) → in_long v.
Proof.
  unfold extract_long. destruct (good iss); [| discriminate].
  destruct (is_empty _); [discriminate |].
  pose proof (num_get_long_in_long (skipws (buf iss))) as H.
  destruct (num_get_long _) as [[v' ok] rest]. intros [= _ <-]. exact H.
Qed.

(** An extraction that was made and failed stored zero or a saturated
    bound. *)
Lemma extract_long_failed (iss iss' : istringstream) (v : Z) :
  extract_long iss = (iss', Some v) → failbit iss' = true →
  v = 0 ∨ v = LONG_MIN ∨ v = LONG_MAX.
Proof.
  unfold extract_long. destruct (good iss); [| discriminate].
  destruct (is_empty _); [discriminate |].
  destruct (num_get_long _) as [[v' ok] rest] eqn:Hget.
  intros [= <- <-]. cbn. destruct ok; [discriminate |]. intros _.
  eapply num_get_long_failed, Hget.
Qed.

Lemma all_chars_append (p : ascii → bool) (s t : string) :
  all_chars p (s +:+ t) = all_chars p s && all_chars p t.
Proof.
  induction s as [|c s IH]; [reflexivity |].
  rewrite append_String. cbn. rewrite IH. apply andb_assoc.
Qed.

Lemma accumulate_all_digits (acc : Z) (seen : bool) (s : string) :
  (accumulate acc seen s).2 = EmptyString →
  all_chars numeral_char s = true.
Proof.
  revert acc seen. induction s as [|c s IH]; intros acc seen;
    cbn [accumulate all_chars]; [auto |].
  destruct (digit_of c) as [d|] eqn:Hd; [| discriminate].
  intros H. rewrite (IH _ _ H), andb_true_r.
  unfold numeral_char. rewrite Hd.
  rewrite (bool_decide_eq_true_2 (is_Some (Some d))) by eauto.
  apply orb_true_r.
Qed.

(** Digits followed by a character that is not one: the accumulation stops
    there. *)
Lemma accumulate_append (acc : Z) (seen : bool) (s : string)
      (c : ascii) (u : string) (r : Z) (b : bool) :
  accumulate acc seen s = (r, b, EmptyString) → digit_of c = None →
  accumulate acc seen (s +:+ String c u) = (r, b, String c u).
Proof.
  revert acc seen. induction s as [|d s IH]; intros acc seen.
  - rewrite append_empty. cbn [accumulate]. intros [= <- <-] ->. reflexivity.
  - rewrite append_String. cbn [accumulate].
    destruct (digit_of d); [| discriminate]. apply IH.
Qed.

Lemma skipws_numeral (s : string) :
  all_chars numeral_char (skipws s) = true → all_chars numeral_char s = true.
Proof.
  induction s as [|c s IH]; cbn; [auto |].
  destruct (isspace c) eqn:Hc; [| auto].
  intros H%IH. rewrite H. unfold numeral_char. rewrite Hc. reflexivity.
Qed.

Lemma skipws_append (s t : string) :
  skipws s ≠ EmptyString → skipws (s +:+ t) = skipws s +:+ t.
Proof.
  induction s as [|c s IH]; cbn; [congruence |].
  rewrite append_String. cbn. destruct (isspace c); [exact IH | reflexivity].
Qed.

Lemma strip_sign_append (s t : string) (negative : bool) (s1 : string) :
  s ≠ EmptyString → strip_sign s = (negative, s1) →
  strip_sign (s +:+ t) = (negative, s1 +:+ t).
Proof.
  destruct s as [|c s]; [congruence |]. intros _. rewrite append_String.
  unfold strip_sign.
  destruct (Ascii.ascii_dec c "-") as [->|Hm]; [intros [= <- <-]; reflexivity |].
  destruct (Ascii.ascii_dec c "+") as [->|Hp]; [intros [= <- <-]; reflexivity |].
  destruct c as [[] [] [] [] [] [] [] []]; try congruence;
    intros [= <- <-]; reflexivity.
Qed.

Lemma strip_sign_numeral (s : string) :
  all_chars numeral_char (strip_sign s).2 = true →
  all_chars numeral_char s = true.
Proof.
  destruct s as [|c s]; [auto |].
  destruct (Ascii.ascii_dec c "-") as [->|Hm]; [cbn; auto |].
  destruct (Ascii.ascii_dec c "+") as [->|Hp]; [cbn; auto |].
  destruct c as [[] [] [] [] [] [] [] []]; try congruence; cbn; auto.
Qed.

(** A numeral is white space, a sign and digits. *)
Lemma reads_as_numeral (s : string) (v : Z) :
  reads_as s v → all_chars numeral_char s = true.
Proof.
  unfold reads_as, extract_long. cbn.
  destruct (is_empty (skipws s)); [discriminate |].
  unfold num_get_long.
  destruct (strip_sign (skipws s)) as [negative s1] eqn:Hsign.
  pose proof (accumulate_all_digits 0 false s1) as Hdigits.
  destruct (accumulate 0 false s1) as [[result seen] rest].
  intros H. apply skipws_numeral, strip_sign_numeral. rewrite Hsign. cbn.
  apply Hdigits. cbn.
  destruct seen; cbn in H; [| injection H as ? _ _; assumption].
  destruct (_ <? result); injection H as ? _ _; assumption.
Qed.

(** A numeral followed by a character that is not a digit reads as the
    same value and stops before that character. *)
Lemma reads_as_append (s : string) (v : Z) (c : ascii) (u : string) :
  reads_as s v → digit_of c = None →
  extract_long (iss_of (s +:+ String c u))
  = ({| buf := String c u; failbit := false; eofbit := false |}, Some v).
Proof.
  unfold reads_as, extract_long. cbn. intros H Hc.
  destruct (skipws s) as [|d s'] eqn:Hskip; [discriminate |].
  rewrite skipws_append by congruence. rewrite Hskip.
  rewrite append_String. cbn [is_empty] in H |- *.
  rewrite <- append_String.
  unfold num_get_long in H |- *.
  destruct (strip_sign (String d s')) as [negative s1] eqn:Hsign.
  rewrite (strip_sign_append (String d s') (String c u) negative s1
             ltac:(discriminate) Hsign).
  destruct (accumulate 0 false s1) as [[result seen] rest] eqn:Hacc.
  assert (rest = EmptyString) as ->.
  { destruct seen; cbn in H; [| injection H as ? _ _; assumption].
    destruct (_ <? result); injection H as ? _ _; assumption. }
  rewrite (accumulate_append _ _ _ _ _ _ _ Hacc Hc).
  destruct seen; cbn in H |- *; [| discriminate].
  destruct (_ <? result); [discriminate |].
  injection H as ->. reflexivity.
Qed.

(** Two numerals with a comma between them are read as the two bounds. *)
Lemma extract_range_numerals (s1 s2 : string) (v1 v2 : Z) :
  reads_as s1 v1 → reads_as s2 v2 →
  extract_range (s1 +:+ "," +:+ s2)
  = ({| buf := EmptyString; failbit := false; eofbit := true |},
     Some v1, Some v2).
Proof.
  intros H1 H2. unfold extract_range.
  change ("," +:+ s2) with (String "," s2).
  rewrite (reads_as_append s1 v1 "," s2 H1 eq_refl). cbn.
  change {| buf := s2; failbit := false; eofbit := false |} with (iss_of s2).
  rewrite H2. reflexivity.
Qed.

(** ** Line classification *)

Lemma has_substring_char (p : ascii → bool) (s pat : string) :
  has_substring s pat → all_chars p s = true → all_chars p pat = true.
Proof.
  intros (pre & post & ->). rewrite !all_chars_append.
  intros [_ [H _]%andb_true_iff]%andb_true_iff. exact H.
Qed.

(** A line made of a keyword and numerals is not a header. *)
Lemma numeral_not_header (s : string) :
  all_chars (λ c, numeral_char c || bool_decide (c ∈ [":"; ","; "p"; "o"; "i";
             "n"; "t"; "r"; "a"; "g"; "e"]%char)) s = true →
  ¬ has_substring s "selectivity".
Proof.
  intros Hs Hsub. pose proof (has_substring_char _ _ _ Hsub Hs) as H.
  vm_compute in H. discriminate.
Qed.

Lemma all_chars_weaken (p q : ascii → bool) (s : string) :
  (∀ c, p c = true → q c = true) → all_chars p s = true → all_chars q s = true.
Proof.
  intros Hpq. induction s as [|c s IH]; cbn; [auto |].
  intros [Hc Hs]%andb_true_iff. rewrite (Hpq c Hc), (IH Hs). reflexivity.
Qed.

(** ** Numerals *)

Lemma digit_char_cases (d : Z) (P : Z → Prop) :
  0 ≤ d ≤ 9 →
  P 0 → P 1 → P 2 → P 3 → P 4 → P 5 → P 6 → P 7 → P 8 → P 9 → P d.
Proof.
  intros H ? ? ? ? ? ? ? ? ? ?.
  assert (d = 0 ∨ d = 1 ∨ d = 2 ∨ d = 3 ∨ d = 4 ∨ d = 5 ∨ d = 6 ∨ d = 7
          ∨ d = 8 ∨ d = 9) as Hd by lia.
  repeat destruct Hd as [-> | Hd]; try subst d; assumption.
Qed.

Lemma digit_of_digit_char (d : Z) :
  0 ≤ d ≤ 9 → digit_of (digit_char d) = Some d.
Proof.
  intros H.
  apply (digit_char_cases d (λ d, digit_of (digit_char d) = Some d) H);
    reflexivity.
Qed.

Lemma digit_char_not_space (d : Z) :
  0 ≤ d ≤ 9 → isspace (digit_char d) = false.
Proof.
  intros H.
  apply (digit_char_cases d (λ d, isspace (digit_char d) = false) H);
    reflexivity.
Qed.

Lemma strip_sign_digit (d : Z) (rest : string) :
  0 ≤ d ≤ 9 →
  strip_sign (String (digit_char d) rest) = (false, String (digit_char d) rest).
Proof.
  intros H.
  apply (digit_char_cases d
           (λ d, strip_sign (String (digit_char d) rest)
                 = (false, String (digit_char d) rest)) H);
    reflexivity.
Qed.

Lemma mod_ten_digit (n : Z) : 0 ≤ n mod 10 ≤ 9.
Proof. pose proof (Z.mod_pos_bound n 10 ltac:(lia)). lia. Qed.

Lemma decimal_digits_S (fuel : nat) (n : Z) (tail : string) :
  decimal_digits (S fuel) n tail
  = if n <? 10 then String (digit_char (n mod 10)) tail
    else decimal_digits fuel (n / 10) (String (digit_char (n mod 10)) tail).
Proof. reflexivity. Qed.

Lemma decimal_digits_head (fuel : nat) (n : Z) (tail : string) :
  ∃ d rest, decimal_digits (S fuel) n tail = String (digit_char d) rest
            ∧ 0 ≤ d ≤ 9.
Proof.
  revert n tail. induction fuel as [|fuel IH]; intros n tail;
    rewrite decimal_digits_S; destruct (n <? 10).
  - eexists _, _. split; [reflexivity | apply mod_ten_digit].
  - eexists _, _. split; [reflexivity | apply mod_ten_digit].
  - eexists _, _. split; [reflexivity | apply mod_ten_digit].
  - apply IH.
Qed.

(** Reading back the digits of [n] gives [n]. *)
Lemma accumulate_decimal_digits (fuel : nat) (n : Z) (tail : string) (seen : bool) :
  0 ≤ n < 10 ^ Z.of_nat (S fuel) →
  accumulate 0 seen (decimal_digits (S fuel) n tail) = accumulate n true tail.
Proof.
  revert n tail seen. induction fuel as [|fuel IH]; intros n tail seen Hn;
    rewrite decimal_digits_S; destruct (n <? 10) eqn:Hsmall.
  - apply Z.ltb_lt in Hsmall. cbn [accumulate].
    rewrite digit_of_digit_char by apply mod_ten_digit.
    rewrite Z.mod_small by lia. f_equal.
  - apply Z.ltb_ge in Hsmall. change (10 ^ Z.of_nat 1) with 10 in Hn. lia.
  - apply Z.ltb_lt in Hsmall. cbn [accumulate].
    rewrite digit_of_digit_char by apply mod_ten_digit.
    rewrite Z.mod_small by lia. f_equal.
  - apply Z.ltb_ge in Hsmall. rewrite IH.
    + cbn [accumulate]. rewrite digit_of_digit_char by apply mod_ten_digit.
      f_equal. f_equal. pose proof (Z.div_mod n 10 ltac:(lia)). lia.
    + rewrite (Nat2Z.inj_succ (S fuel)), Z.pow_succ_r in Hn by lia.
      split; [apply Z.div_pos; lia |].
      apply Z.div_lt_upper_bound; lia.
Qed.

(** Every [long] has a numeral: its plain decimal form. *)
Lemma decimal_reads_as (v : Z) : in_long v → reads_as (decimal v) v.
Proof.
  unfold in_long, LONG_MIN, LONG_MAX. intros Hv.
  unfold reads_as, extract_long, decimal. cbn [good iss_of failbit eofbit buf negb andb].
  destruct (v <? 0) eqn:Hneg.
  - apply Z.ltb_lt in Hneg. cbn [skipws isspace is_empty].
    unfold num_get_long. cbn [strip_sign].
    rewrite accumulate_decimal_digits by (change (10 ^ Z.of_nat 20) with
      100000000000000000000; lia).
    cbn [accumulate negb].
    rewrite (proj2 (Z.ltb_ge (- LONG_MIN) (- v)))
      by (unfold LONG_MIN; lia).
    cbn. f_equal. f_equal. lia.
  - apply Z.ltb_ge in Hneg.
    destruct (decimal_digits_head 19 v EmptyString) as (d & rest & Hhead & Hd).
    assert (skipws (decimal_digits 20 v EmptyString)
            = decimal_digits 20 v EmptyString) as ->.
    { rewrite Hhead. cbn [skipws]. rewrite digit_char_not_space by exact Hd.
      reflexivity. }
    assert (is_empty (decimal_digits 20 v EmptyString) = false) as ->
      by (rewrite Hhead; reflexivity).
    unfold num_get_long.
    assert (strip_sign (decimal_digits 20 v EmptyString)
            = (false, decimal_digits 20 v EmptyString)) as ->
      by (rewrite Hhead; apply strip_sign_digit, Hd).
    rewrite accumulate_decimal_digits by (change (10 ^ Z.of_nat 20) with
      100000000000000000000; lia).
    cbn [accumulate negb].
    rewrite (proj2 (Z.ltb_ge LONG_MAX v)) by (unfold LONG_MAX; lia).
    reflexivity.
Qed.

Lemma classify_Header (line : string) :
  classify line = Header ↔ has_substring line "selectivity".
Proof.
  unfold classify. rewrite <- find_npos.
  destruct (decide (find line "selectivity" ≠ None)) as [H|H].
  - tauto.
  - split; [| tauto]. repeat destruct (decide _); discriminate.
Qed.

Lemma classify_RangeRecord (line : string) :
  classify line = RangeRecord
  ↔ ¬ has_substring line "selectivity" ∧ begins_with line "range:".
Proof.
  unfold classify. rewrite <- find_npos, <- find_zero.
  repeat destruct (decide _); split; try tauto; try discriminate.
Qed.

Lemma classify_PointRecord (line : string) :
  classify line = PointRecord
  ↔ ¬ has_substring line "selectivity" ∧ ¬ begins_with line "range:"
    ∧ begins_with line "point:".
Proof.
  unfold classify. rewrite <- find_npos, <- !find_zero.
  repeat destruct (decide _); split; try tauto; try discriminate.
Qed.

Lemma classify_Ignored (line : string) :
  classify line = Ignored
  ↔ ¬ has_substring line "selectivity" ∧ ¬ begins_with line "range:"
    ∧ ¬ begins_with line "point:".
Proof.
  unfold classify. rewrite <- find_npos, <- !find_zero.
  repeat destruct (decide _); split; try tauto; try discriminate.
Qed.

(** A line cannot begin with both keywords. *)
Lemma begins_with_point_not_range (line : string) :
  begins_with line "point:" → ¬ begins_with line "range:".
Proof. intros [p ->] [r H]. discriminate. Qed.

Lemma query_bounds_range (a : ambient) (rest : string) :
  query_bounds a ("range:" +:+ rest) = Ok (Some (parse_range a rest)).
Proof.
  unfold query_bounds. rewrite decide_True by (apply find_zero; eexists; eauto).
  change 6%nat with (String.length "range:"). rewrite substr_append. reflexivity.
Qed.

Lemma query_bounds_point (a : ambient) (rest : string) :
  query_bounds a ("point:" +:+ rest) = Ok (Some (parse_point a rest)).
Proof.
  unfold query_bounds. rewrite decide_False.
  - rewrite decide_True by (apply find_zero; eexists; eauto).
    change 6%nat with (String.length "point:"). rewrite substr_append.
    reflexivity.
  - rewrite find_zero. apply begins_with_point_not_range. eexists; eauto.
Qed.

Lemma query_bounds_other (a : ambient) (line : string) :
  ¬ begins_with line "range:" → ¬ begins_with line "point:" →
  query_bounds a line = Ok None.
Proof.
  intros Hr Hp. unfold query_bounds.
  rewrite !decide_False by (rewrite find_zero; assumption). reflexivity.
Qed.

Section LineFacts.

Variable index : IndexStructure.
Variable num_stripes : nat.

Lemma process_line_header (a : ambient) (line : string) (st : state) :
  has_substring line "selectivity" →
  process_line index num_stripes a line st
  = '(st', report) ← flush st; Ok (st', report ++ [Echo line]).
Proof.
  intros H%find_npos. unfold process_line. rewrite decide_True by exact H.
  reflexivity.
Qed.

Lemma process_line_query (a : ambient) (line : string) (st : state) :
  ¬ has_substring line "selectivity" →
  process_line index num_stripes a line st
  = bounds ← query_bounds a line;
    match bounds with
    | Some (startv, endv) => run_query index num_stripes a startv endv st
    | None => Ok (st, [])
    end.
Proof.
  rewrite <- find_npos. intros H. unfold process_line.
  rewrite decide_False by exact H. reflexivity.
Qed.

(** The branch a line takes in [process_line] is its class. *)
Lemma process_line_classify (a : ambient) (line : string) (st : state) :
  process_line index num_stripes a line st
  = match classify line with
    | Header => '(st', report) ← flush st; Ok (st', report ++ [Echo line])
    | RangeRecord =>
        rest ← substr 6 line;
        let '(startv, endv) := parse_range a rest in
        run_query index num_stripes a startv endv st
    | PointRecord =>
        rest ← substr 6 line;
        let '(startv, endv) := parse_point a rest in
        run_query index num_stripes a startv endv st
    | Ignored => Ok (st, [])
    end.
Proof.
  unfold process_line, classify, query_bounds.
  destruct (decide (find line "selectivity" ≠ None)); [reflexivity |].
  destruct (decide (find line "range:" = Some 0%nat)).
  { destruct (substr 6 line); [| reflexivity]. cbn.
    destruct (parse_range a a0). reflexivity. }
  destruct (decide (find line "point:" = Some 0%nat)); [| reflexivity].
  destruct (substr 6 line); [| reflexivity]. cbn.
  destruct (parse_point a a0). reflexivity.
Qed.

Lemma workload_loop_app (w1 w2 : list (ambient * string)) (st : state) :
  workload_loop index num_stripes (w1 ++ w2) st
  = '(st1, out1) ← workload_loop index num_stripes w1 st;
    '(st2, out2) ← workload_loop index num_stripes w2 st1;
    Ok (st2, out1 ++ out2).
Proof.
  revert st. induction w1 as [|[a line] w1 IH]; intros st; cbn.
  - destruct (workload_loop index num_stripes w2 st) as [[st2 out2]|f];
      reflexivity.
  - destruct (process_line index num_stripes a line st) as [[st1 out1]|f];
      [| reflexivity].
    cbn. rewrite IH.
    destruct (workload_loop index num_stripes w1 st1) as [[st2 out2]|f];
      [| reflexivity].
    cbn.
    destruct (workload_loop index num_stripes w2 st2) as [[st3 out3]|f];
      [| reflexivity].
    cbn. rewrite app_assoc. reflexivity.
Qed.

End LineFacts.

(** ** Flushing *)

Lemma inject_Z_nonzero (z : Z) : z ≠ 0 → ¬ (inject_Z z == 0)%Q.
Proof. intros Hz H. apply Hz. unfold Qeq in H. cbn in H. lia. Qed.

Lemma fdiv_Ok (a b : Q) : ¬ (b == 0)%Q → fdiv a b = Ok (a / b)%Q.
Proof.
  intros Hb. unfold fdiv. destruct (Qeq_bool b 0) eqn:H; [| reflexivity].
  apply Qeq_bool_iff in H. contradiction.
Qed.

Lemma fdiv_Fault (a b : Q) (f : fault) : fdiv a b = Fault f → (b == 0)%Q.
Proof.
  unfold fdiv. destruct (Qeq_bool b 0) eqn:H; [| discriminate].
  intros _. apply Qeq_bool_iff, H.
Qed.

Lemma nanos_times_nonzero (z : Z) :
  z ≠ 0 → ¬ (nanos_per_second * inject_Z z == 0)%Q.
Proof.
  intros Hz H. apply Qmult_integral in H as [H | H].
  - discriminate H.
  - exact (inject_Z_nonzero z Hz H).
Qed.

(** A group with queries is reported and the accumulators are reset. *)
Lemma flush_nonzero (st : state) :
  searchtime st ≠ 0 →
  flush st
  = Ok (initial,
        [AvgBlk (inject_Z (blkcount st) / inject_Z (searchtime st));
         AvgTime (inject_Z (timecount st)
                  / (nanos_per_second * inject_Z (searchtime st)))]).
Proof.
  intros H. unfold flush. rewrite decide_True by exact H.
  rewrite (fdiv_Ok _ (inject_Z (searchtime st)))
    by (apply inject_Z_nonzero, H).
  cbn [mbind outcome_bind].
  rewrite fdiv_Ok by (apply nanos_times_nonzero, H). reflexivity.
Qed.

(** A group without queries is not reported. *)
Lemma flush_zero (st : state) : searchtime st = 0 → flush st = Ok (st, []).
Proof. intros H. unfold flush. rewrite decide_False by tauto. reflexivity. Qed.

Lemma flush_total (st : state) :
  ∃ st' report, flush st = Ok (st', report) ∧ searchtime st' = 0.
Proof.
  destruct (decide (searchtime st = 0)) as [H|H].
  - rewrite flush_zero by exact H. eauto.
  - rewrite flush_nonzero by exact H. eauto.
Qed.

Section StateFacts.

Variable index : IndexStructure.
Variable num_stripes : nat.

(** The accumulators stay in the range of [long]. *)
Lemma process_line_in_long (a : ambient) (line : string) (st st' : state)
      (out : list event) :
  state_in_long st →
  process_line index num_stripes a line st = Ok (st', out) →
  state_in_long st'.
Proof.
  intros Hst. rewrite process_line_classify.
  assert (∀ startv endv,
            run_query index num_stripes a startv endv st = Ok (st', out) →
            state_in_long st') as Hrun.
  { intros startv endv. unfold run_query.
    destruct (evaluate_query index num_stripes startv endv)
      as [[totalres lookups]|f]; [| discriminate].
    cbn. intros [= <- _]. repeat split; apply wrap64_in_long. }
  destruct (classify line).
  - destruct (decide (searchtime st = 0)) as [H | H].
    + rewrite flush_zero by exact H. cbn. intros [= <- _]. exact Hst.
    + rewrite flush_nonzero by exact H. cbn. intros [= <- _].
      apply initial_in_long.
  - destruct (substr 6 line) as [rest|f]; [| discriminate]. cbn.
    destruct (parse_range a rest). apply Hrun.
  - destruct (substr 6 line) as [rest|f]; [| discriminate]. cbn.
    destruct (parse_point a rest). apply Hrun.
  - intros [= <- _]. exact Hst.
Qed.

Lemma workload_loop_in_long (w : list (ambient * string)) (st st' : state)
      (out : list event) :
  state_in_long st →
  workload_loop index num_stripes w st = Ok (st', out) →
  state_in_long st'.
Proof.
  revert st out. induction w as [|[a line] w IH]; intros st out Hst;
    cbn [workload_loop].
  - intros [= <- _]. exact Hst.
  - destruct (process_line index num_stripes a line st) as [[st1 out1]|f]
      eqn:Hline; [| discriminate].
    cbn [mbind outcome_bind].
    destruct (workload_loop index num_stripes w st1) as [[st2 out2]|f]
      eqn:Hloop; [| discriminate].
    cbn. intros [= <- _].
    eapply IH, Hloop. eapply process_line_in_long, Hline. exact Hst.
Qed.

(** What a query record does to the state. *)
Lemma process_line_is_query (a : ambient) (line : string) (st st' : state)
      (out : list event) :
  is_query line →
  process_line index num_stripes a line st = Ok (st', out) →
  searchtime st' = wrap64 (searchtime st + 1)
  ∧ blkcount st'
    = wrap64 (blkcount st + query_blocks index num_stripes (a, line))
  ∧ timecount st' = wrap64 (timecount st + searchduration a).
Proof.
  intros Hq. rewrite process_line_classify. unfold query_blocks, query_bounds.
  cbn [fst snd].
  assert (∀ startv endv,
            run_query index num_stripes a startv endv st = Ok (st', out) →
            searchtime st' = wrap64 (searchtime st + 1)
            ∧ blkcount st'
              = wrap64 (blkcount st
                        + match evaluate_query index num_stripes startv endv with
                          | Ok (totalres, _) => Z.of_nat (GetOnesCount totalres)
                          | Fault _ => 0
                          end)
            ∧ timecount st' = wrap64 (timecount st + searchduration a))
    as Hrun.
  { intros startv endv. unfold run_query.
    destruct (evaluate_query index num_stripes startv endv)
      as [[totalres lookups]|f]; [| discriminate].
    cbn. intros [= <- _]. auto. }
  destruct Hq as [Hq | Hq]; rewrite Hq.
  - apply classify_RangeRecord in Hq as [_ Hr%find_zero].
    rewrite decide_True by exact Hr.
    destruct (substr 6 line) as [rest|f]; [| discriminate]. cbn.
    destruct (parse_range a rest). apply Hrun.
  - apply classify_PointRecord in Hq as (_ & Hr & Hp%find_zero).
    rewrite decide_False by (rewrite find_zero; exact Hr).
    rewrite decide_True by exact Hp.
    destruct (substr 6 line) as [rest|f]; [| discriminate]. cbn.
    destruct (parse_point a rest). apply Hrun.
Qed.

(** The accumulators after the queries of a group: each query has added
    one to the counter, its block count and its duration to the totals. *)
Lemma group_totals (qs : list (ambient * string)) (st st' : state)
      (out : list event) :
  state_in_long st → Forall (λ q, is_query q.2) qs →
  workload_loop index num_stripes qs st = Ok (st', out) →
  searchtime st' = wrap64 (searchtime st + Z.of_nat (length qs))
  ∧ blkcount st'
    = wrap64 (blkcount st + Zsum (query_blocks index num_stripes <$> qs))
  ∧ timecount st'
    = wrap64 (timecount st + Zsum ((λ q, searchduration q.1) <$> qs)).
Proof.
  intros Hst Hqs. revert st out Hst.
  induction Hqs as [|[a line] qs Hq _ IH]; intros st out Hst;
    cbn [workload_loop].
  - intros [= <- _]. cbn. rewrite !Z.add_0_r.
    destruct Hst as (H1 & H2 & H3). rewrite !wrap64_id by assumption. auto.
  - destruct (process_line index num_stripes a line st) as [[st1 out1]|f]
      eqn:Hline; [| discriminate].
    cbn [mbind outcome_bind].
    destruct (workload_loop index num_stripes qs st1) as [[st2 out2]|f]
      eqn:Hloop; [| discriminate].
    cbn [mbind outcome_bind]. intros [= <- _].
    destruct (process_line_is_query a line st st1 out1 Hq Hline)
      as (Hc & Hb & Ht).
    destruct (IH st1 out2 (process_line_in_long a line st st1 out1 Hst Hline)
                Hloop) as (Hc' & Hb' & Ht').
    rewrite Hc', Hb', Ht', Hc, Hb, Ht, !wrap64_add_l.
    cbn [length fmap list_fmap fst snd]. unfold Zsum. cbn [foldr].
    repeat split; f_equal; lia.
Qed.

End StateFacts.

(** ** Records written with numerals *)

Lemma keyword_numeral_not_header (keyword tail : string) :
  all_chars (λ c, bool_decide (c ∈ [":"; ","; "p"; "o"; "i"; "n"; "t"; "r";
                                    "a"; "g"; "e"]%char)) keyword = true →
  all_chars (λ c, numeral_char c || bool_decide (c = ","%char)) tail = true →
  ¬ has_substring (keyword +:+ tail) "selectivity".
Proof.
  intros Hk Ht. apply numeral_not_header. rewrite all_chars_append.
  apply andb_true_iff. split.
  - eapply all_chars_weaken, Hk. intros c ->. apply orb_true_r.
  - eapply all_chars_weaken, Ht. intros c [H | H]%orb_true_iff.
    + rewrite H. reflexivity.
    + apply bool_decide_eq_true in H as ->. reflexivity.
Qed.

(** The record [range: S,E], written with numerals of [S] and [E], is a
    query with these bounds. *)
Lemma range_record_bounds (a : ambient) (s1 s2 : string) (v1 v2 : Z) :
  reads_as s1 v1 → reads_as s2 v2 →
  ¬ has_substring ("range:" +:+ s1 +:+ "," +:+ s2) "selectivity"
  ∧ query_bounds a ("range:" +:+ s1 +:+ "," +:+ s2) = Ok (Some (v1, v2)).
Proof.
  intros H1 H2. split.
  - apply keyword_numeral_not_header; [reflexivity |].
    assert (∀ s v, reads_as s v →
              all_chars (λ c, numeral_char c || bool_decide (c = ","%char)) s
              = true) as Hchars.
    { intros s v Hs. eapply all_chars_weaken, reads_as_numeral, Hs.
      intros c ->. reflexivity. }
    rewrite all_chars_append, (Hchars s1 v1 H1).
    change ("," +:+ s2) with (String "," s2). cbn [all_chars andb].
    rewrite (Hchars s2 v2 H2). reflexivity.
  - rewrite query_bounds_range. unfold parse_range.
    rewrite (extract_range_numerals s1 s2 v1 v2 H1 H2). reflexivity.
Qed.

(** The record [point: V], written with a numeral of [V], is a query with
    the bounds [[V, V]]. *)
Lemma point_record_bounds (a : ambient) (s : string) (v : Z) :
  reads_as s v →
  ¬ has_substring ("point:" +:+ s) "selectivity"
  ∧ query_bounds a ("point:" +:+ s) = Ok (Some (v, v)).
Proof.
  intros Hs. split.
  - apply keyword_numeral_not_header; [reflexivity |].
    eapply all_chars_weaken, reads_as_numeral, Hs. intros c ->. reflexivity.
  - rewrite query_bounds_point. unfold parse_point. rewrite Hs. reflexivity.
Qed.

(** ** No quotient by zero *)

Lemma bind_no_division {A B} (m : outcome A) (k : A → outcome B) :
  m ≠ Fault DivisionByZero → (∀ a, m = Ok a → k a ≠ Fault DivisionByZero) →
  m ≫= k ≠ Fault DivisionByZero.
Proof.
  intros Hm Hk. destruct m as [a|f]; cbn.
  - apply Hk. reflexivity.
  - intros [= ->]. apply Hm. reflexivity.
Qed.

Lemma Set_no_division (pos : nat) (value : bool) (bm : Bitmap64) :
  Set_ pos value bm ≠ Fault DivisionByZero.
Proof. unfold Set_. destruct (decide _); discriminate. Qed.

Lemma set_true_bits_no_division (tempres : list nat) (totalres : Bitmap64) :
  set_true_bits tempres totalres ≠ Fault DivisionByZero.
Proof.
  revert totalres. induction tempres as [|i tempres IH]; intros totalres;
    cbn [set_true_bits]; [discriminate |].
  apply bind_no_division; [apply Set_no_division | intros; apply IH].
Qed.

Lemma substr_no_division (pos : nat) (s : string) :
  substr pos s ≠ Fault DivisionByZero.
Proof.
  revert s. induction pos as [|pos IH]; intros [|c s]; cbn;
    try discriminate; apply IH.
Qed.

Lemma flush_no_division (st : state) : flush st ≠ Fault DivisionByZero.
Proof. destruct (flush_total st) as (st' & report & -> & _). discriminate. Qed.

Section NoDivision.

Variable index : IndexStructure.
Variable num_stripes : nat.

Lemma range_loop_no_division (fuel : nat) (value endv : Z) (totalres : Bitmap64) :
  range_loop index num_stripes fuel value endv totalres
  ≠ Fault DivisionByZero.
Proof.
  revert value totalres. induction fuel as [|fuel IH]; intros value totalres;
    cbn [range_loop]; destruct (decide (value ≤ endv)); try discriminate.
  apply bind_no_division; [apply set_true_bits_no_division |].
  intros r1 _. apply bind_no_division; [apply IH |].
  intros [res lookups] _. discriminate.
Qed.

Lemma run_query_no_division (a : ambient) (startv endv : Z) (st : state) :
  run_query index num_stripes a startv endv st ≠ Fault DivisionByZero.
Proof.
  unfold run_query, evaluate_query.
  apply bind_no_division; [apply range_loop_no_division |].
  intros [res lookups] _. discriminate.
Qed.

Lemma process_line_no_division (a : ambient) (line : string) (st : state) :
  process_line index num_stripes a line st ≠ Fault DivisionByZero.
Proof.
  rewrite process_line_classify. destruct (classify line).
  - apply bind_no_division; [apply flush_no_division |].
    intros [st' report] _. discriminate.
  - apply bind_no_division; [apply substr_no_division |].
    intros rest _. destruct (parse_range a rest). apply run_query_no_division.
  - apply bind_no_division; [apply substr_no_division |].
    intros rest _. destruct (parse_point a rest). apply run_query_no_division.
  - discriminate.
Qed.

Lemma workload_loop_no_division (w : list (ambient * string)) (st : state) :
  workload_loop index num_stripes w st ≠ Fault DivisionByZero.
Proof.
  revert st. induction w as [|[a line] w IH]; intros st; cbn [workload_loop];
    [discriminate |].
  apply bind_no_division; [apply process_line_no_division |].
  intros [st1 out1] _. apply bind_no_division; [apply IH |].
  intros [st2 out2] _. discriminate.
Qed.

Lemma evaluate_workload_no_division (w : list (ambient * string)) :
  evaluate_workload index num_stripes w ≠ Fault DivisionByZero.
Proof.
  unfold evaluate_workload.
  apply bind_no_division; [apply workload_loop_no_division |].
  intros [st out] _. apply bind_no_division; [apply flush_no_division |].
  intros [st' report] _. discriminate.
Qed.

End NoDivision.

(** * The workload evaluator *)

(** ** Group reports *)

(** C1.  A flushed group, that is a state whose query counter is not zero
    at one of the two flush sites, is reported with the average block
    count [blkcount / searchtime] and the average time in seconds
    [timecount / (1e9 * searchtime)], both at a header line and after the
    last line; over the rationals the reported average block count times
    the query count is the accumulated block count.  When the state is the
    one the queries of a group leave, the counter is their number and the
    totals are the sums of their block counts and durations (in [long]
    arithmetic). *)
Theorem flush_reports_group_averages
    (index : IndexStructure) (num_stripes : nat) (a : ambient) (line : string)
    (w : list (ambient * string)) (out : list event) (st : state) :
  searchtime st ≠ 0 →
  let avg_blk := (inject_Z (blkcount st) / inject_Z (searchtime st))%Q in
  let avg_time :=
    (inject_Z (timecount st)
     / (inject_Z 1000000000 * inject_Z (searchtime st)))%Q in
  flush st = Ok (initial, [AvgBlk avg_blk; AvgTime avg_time])
  ∧ (has_substring line "selectivity" →
     process_line index num_stripes a line st
     = Ok (initial, [AvgBlk avg_blk; AvgTime avg_time; Echo line]))
  ∧ (workload_loop index num_stripes w initial = Ok (st, out) →
     evaluate_workload index num_stripes w
     = Ok (initial, out ++ [AvgBlk avg_blk; AvgTime avg_time]))
  ∧ (avg_blk * inject_Z (searchtime st) == inject_Z (blkcount st))%Q
  ∧ (avg_time * (inject_Z 1000000000 * inject_Z (searchtime st))
     == inject_Z (timecount st))%Q
  ∧ (Forall (λ q, is_query q.2) w →
     workload_loop index num_stripes w initial = Ok (st, out) →
     searchtime st = wrap64 (Z.of_nat (length w))
     ∧ blkcount st = wrap64 (Zsum (query_blocks index num_stripes <$> w))
     ∧ timecount st = wrap64 (Zsum ((λ q, searchduration q.1) <$> w))).
Proof.
  intros Hcount avg_blk avg_time.
  pose proof (flush_nonzero st Hcount) as Hflush.
  fold nanos_per_second in avg_time. fold avg_blk avg_time in Hflush.
  split; [exact Hflush |]. split; [| split; [| split; [| split]]].
  - intros Hheader. rewrite process_line_header by exact Hheader.
    rewrite Hflush. reflexivity.
  - intros Hloop. unfold evaluate_workload. rewrite Hloop. cbn.
    rewrite Hflush. reflexivity.
  - unfold avg_blk. rewrite Qmult_comm.
    apply Qmult_div_r, inject_Z_nonzero, Hcount.
  - unfold avg_time. rewrite Qmult_comm.
    apply Qmult_div_r, nanos_times_nonzero, Hcount.
  - intros Hqs Hloop.
    exact (group_totals index num_stripes w initial st out initial_in_long
             Hqs Hloop).
Qed.

Lemma flush_reports_group_averages_witness :
  let st := {| blkcount := 7; timecount := 1500; searchtime := 2 |} in
  searchtime st ≠ 0
  ∧ flush st = Ok (initial, [AvgBlk (inject_Z 7 / inject_Z 2);
                             AvgTime (inject_Z 1500
                                      / (inject_Z 1000000000 * inject_Z 2))]).
Proof.
  cbn zeta. split; [cbn; lia |].
  exact (proj1 (flush_reports_group_averages full_index 3 (quiet 0)
                  "selectivity=1%" [] []
                  {| blkcount := 7; timecount := 1500; searchtime := 2 |}
                  ltac:(cbn; lia))).
Defined.

(** ** Empty groups *)

(** C4.  A group without queries is not reported and nothing is divided by
    zero: with a query counter of zero the flush returns the state as it is
    and prints nothing; after a header the counter is zero, so a header
    that follows at once only echoes its line, and at the end of the file
    nothing more is printed; no run of the evaluator ends in a quotient by
    zero. *)
Theorem empty_group_is_silent
    (index : IndexStructure) (num_stripes : nat) (a1 a2 : ambient)
    (l1 l2 : string) (w : list (ambient * string)) (out : list event)
    (st : state) :
  has_substring l1 "selectivity" → has_substring l2 "selectivity" →
  (searchtime st = 0 → flush st = Ok (st, []))
  ∧ (∃ st1 out1,
       process_line index num_stripes a1 l1 st = Ok (st1, out1)
       ∧ searchtime st1 = 0
       ∧ process_line index num_stripes a2 l2 st1 = Ok (st1, [Echo l2])
       ∧ flush st1 = Ok (st1, [])
       ∧ (workload_loop index num_stripes w initial = Ok (st, out) →
          evaluate_workload index num_stripes (w ++ [(a1, l1)])
          = Ok (st1, out ++ out1)))
  ∧ workload_loop index num_stripes w st ≠ Fault DivisionByZero
  ∧ evaluate_workload index num_stripes w ≠ Fault DivisionByZero.
Proof.
  intros H1 H2. split; [apply flush_zero |].
  split; [| split;
            [apply workload_loop_no_division
            | apply evaluate_workload_no_division]].
  destruct (flush_total st) as (st1 & report & Hflush & Hzero).
  exists st1, (report ++ [Echo l1]).
  assert (process_line index num_stripes a1 l1 st
          = Ok (st1, report ++ [Echo l1])) as Hfirst.
  { rewrite process_line_header by exact H1. rewrite Hflush. reflexivity. }
  split; [exact Hfirst |]. split; [exact Hzero |].
  split; [| split].
  - rewrite process_line_header by exact H2.
    rewrite flush_zero by exact Hzero. reflexivity.
  - apply flush_zero, Hzero.
  - intros Hloop. unfold evaluate_workload.
    rewrite workload_loop_app, Hloop. cbn [mbind outcome_bind workload_loop].
    rewrite Hfirst. cbn [mbind outcome_bind].
    rewrite flush_zero by exact Hzero. cbn [mbind outcome_bind].
    rewrite !app_nil_r. reflexivity.
Qed.

Lemma empty_group_is_silent_witness :
  has_substring "selectivity=low" "selectivity"
  ∧ has_substring "selectivity=high" "selectivity"
  ∧ ∃ st1 out1,
      process_line scenario_index 3 (quiet 0) "selectivity=low" initial
      = Ok (st1, out1)
      ∧ process_line scenario_index 3 (quiet 0) "selectivity=high" st1
        = Ok (st1, [Echo "selectivity=high"]).
Proof.
  assert (has_substring "selectivity=low" "selectivity") as H1
    by (exists EmptyString, "=low"%string; reflexivity).
  assert (has_substring "selectivity=high" "selectivity") as H2
    by (exists EmptyString, "=high"%string; reflexivity).
  split; [exact H1 |]. split; [exact H2 |].
  destruct (empty_group_is_silent scenario_index 3 (quiet 0) (quiet 0)
              "selectivity=low" "selectivity=high" [] [] initial H1 H2)
    as (_ & (st1 & out1 & Hfirst & _ & Hsecond & _) & _).
  exists st1, out1. split; [exact Hfirst | exact Hsecond].
Defined.

(** ** Line classification *)

(** C9.  Headers come first in the classification: a line in which
    [selectivity] occurs anywhere takes the header branch (flush, then echo)
    also when it begins with [range:] or [point:]; the two query branches
    are taken only by lines in which [selectivity] does not occur; every
    line of the fourth class leaves the state as it is and has no effect. *)
Theorem headers_take_priority
    (index : IndexStructure) (num_stripes : nat) (a : ambient) (line : string)
    (st : state) :
  (has_substring line "selectivity" →
   classify line = Header
   ∧ process_line index num_stripes a line st
     = '(st', report) ← flush st; Ok (st', report ++ [Echo line]))
  ∧ (classify line = RangeRecord ∨ classify line = PointRecord →
     ¬ has_substring line "selectivity"
     ∧ (begins_with line "range:" ∨ begins_with line "point:")
     ∧ ∃ startv endv,
         query_bounds a line = Ok (Some (startv, endv))
         ∧ process_line index num_stripes a line st
           = run_query index num_stripes a startv endv st)
  ∧ (¬ has_substring line "selectivity" → ¬ begins_with line "range:" →
     ¬ begins_with line "point:" →
     classify line = Ignored
     ∧ process_line index num_stripes a line st = Ok (st, [])).
Proof.
  split; [| split].
  - intros H. split; [apply classify_Header, H |].
    apply process_line_header, H.
  - intros [H | H].
    + apply classify_RangeRecord in H as [Hno [rest ->]].
      split; [exact Hno |]. split; [left; eexists; eauto |].
      destruct (parse_range a rest) as [startv endv] eqn:Hp.
      exists startv, endv. rewrite process_line_query by exact Hno.
      rewrite query_bounds_range, Hp. split; reflexivity.
    + apply classify_PointRecord in H as (Hno & _ & [rest ->]).
      split; [exact Hno |]. split; [right; eexists; eauto |].
      destruct (parse_point a rest) as [startv endv] eqn:Hp.
      exists startv, endv. rewrite process_line_query by exact Hno.
      rewrite query_bounds_point, Hp. split; reflexivity.
  - intros Hno Hr Hp. split; [apply classify_Ignored; auto |].
    rewrite process_line_query by exact Hno.
    rewrite query_bounds_other by assumption. reflexivity.
Qed.

Lemma headers_take_priority_witness :
  has_substring "range: 1,2 selectivity" "selectivity"
  ∧ begins_with "range: 1,2 selectivity" "range:"
  ∧ process_line scenario_index 3 (quiet 0) "range: 1,2 selectivity" initial
    = Ok (initial, [Echo "range: 1,2 selectivity"]).
Proof.
  assert (has_substring "range: 1,2 selectivity" "selectivity") as H
    by (exists "range: 1,2 "%string, EmptyString; reflexivity).
  split; [exact H |].
  split; [exists " 1,2 selectivity"%string; reflexivity |].
  destruct (headers_take_priority scenario_index 3 (quiet 0)
              "range: 1,2 selectivity" initial) as [Hheader _].
  destruct (Hheader H) as [_ ->]. reflexivity.
Defined.

(** ** Range queries *)

Lemma range_values_snoc (startv endv : Z) :
  startv - 1 ≤ endv →
  range_values startv (endv + 1) = range_values startv endv ++ [endv + 1].
Proof.
  intros H. unfold range_values.
  replace (endv + 1 - startv + 1) with ((endv - startv + 1) + 1) by lia.
  rewrite seqZ_app by lia.
  replace (startv + (endv - startv + 1)) with (endv + 1) by lia.
  reflexivity.
Qed.

Lemma elem_of_range_values (startv endv v : Z) :
  v ∈ range_values startv endv ↔ startv ≤ v ≤ endv.
Proof. unfold range_values. rewrite elem_of_seqZ. lia. Qed.

Lemma NoDup_range_values (startv endv : Z) : NoDup (range_values startv endv).
Proof. apply NoDup_seqZ. Qed.

(** Unioning a lookup into the accumulator never lowers its population
    count. *)
Lemma union_lookup_monotone
    (index : IndexStructure) (num_stripes : nat) (value : Z)
    (before after : Bitmap64) :
  index_sized index → length before = num_stripes →
  union_lookup index num_stripes value before = Ok after →
  (GetOnesCount before ≤ GetOnesCount after)%nat
  ∧ true_set after
    = true_set before ∪ true_set (GetQualifyingStripes index value num_stripes).
Proof.
  intros Hsized Hlen Hafter.
  destruct (union_lookup_Ok index num_stripes value before Hsized Hlen)
    as (res & Hres & _ & Hset).
  rewrite Hafter in Hres. injection Hres as <-.
  split; [| exact Hset].
  rewrite !GetOnesCount_size. apply subseteq_size. rewrite Hset.
  apply union_subseteq_l.
Qed.

(** The accumulator of a query whose counter stays a [long]. *)
Lemma evaluate_query_Ok
    (index : IndexStructure) (num_stripes : nat) (startv endv : Z) :
  index_sized index → in_long startv → endv < LONG_MAX →
  ∃ res,
    union_lookups index num_stripes (range_values startv endv)
                  (Bitmap64_make num_stripes false) = Ok res
    ∧ evaluate_query index num_stripes startv endv
      = Ok (res, Lookup <$> range_values startv endv)
    ∧ length res = num_stripes
    ∧ true_set res = lookups_union index num_stripes (range_values startv endv).
Proof.
  intros Hsized Hstartv Hendv.
  destruct (union_lookups_Ok index num_stripes (range_values startv endv)
              (Bitmap64_make num_stripes false) Hsized
              (length_make num_stripes false)) as (res & Hres & Hlen & Hset).
  exists res. split; [exact Hres |].
  rewrite evaluate_query_eq, Hres by assumption.
  split; [reflexivity |]. split; [exact Hlen |].
  rewrite Hset, true_set_make_false, (left_id_L ∅ (∪)). reflexivity.
Qed.

(** A query over one value looks it up once. *)
Lemma evaluate_query_point
    (index : IndexStructure) (num_stripes : nat) (value : Z) :
  index_sized index → in_long value → value < LONG_MAX →
  ∃ res,
    evaluate_query index num_stripes value value = Ok (res, [Lookup value])
    ∧ true_set res = true_set (GetQualifyingStripes index value num_stripes).
Proof.
  intros Hsized Hv Hmax.
  destruct (evaluate_query_Ok index num_stripes value value Hsized Hv Hmax)
    as (res & _ & Heval & _ & Hset).
  assert (range_values value value = [value]) as Hone.
  { unfold range_values. replace (value - value + 1) with 1 by lia.
    reflexivity. }
  rewrite Hone in Heval, Hset. exists res. split; [exact Heval |].
  rewrite Hset. unfold lookups_union. cbn.
  rewrite (right_id_L ∅ (∪)). reflexivity.
Qed.

(** Away from the largest [long], for a range record with bounds
    [[startv, endv]] the evaluator
    looks up every value of the range once, in ascending order; the true
    indices of the accumulator after the range are the union of the true
    indices of the lookups; each lookup that is unioned in leaves the
    population count of the accumulator at least as large as before.  The
    bounds are those of a loop counter that stays a [long]: [startv] is a
    [long] and [endv] is below [LONG_MAX]; the index answers with one slot
    per stripe. *)
Theorem range_query_unions_lookups
    (index : IndexStructure) (num_stripes : nat) (a : ambient) (st : state)
    (startv endv : Z) :
  index_sized index → in_long startv → endv < LONG_MAX →
  ∃ totalres,
    evaluate_query index num_stripes startv endv
    = Ok (totalres, Lookup <$> range_values startv endv)
    ∧ (∀ s1 s2, reads_as s1 startv → reads_as s2 endv →
       process_line index num_stripes a ("range:" +:+ s1 +:+ "," +:+ s2) st
       = run_query index num_stripes a startv endv st)
    ∧ run_query index num_stripes a startv endv st
      = Ok ({| blkcount :=
                 wrap64 (blkcount st + Z.of_nat (GetOnesCount totalres));
               timecount := wrap64 (timecount st + searchduration a);
               searchtime := wrap64 (searchtime st + 1) |},
            Lookup <$> range_values startv endv)
    ∧ NoDup (range_values startv endv)
    ∧ (∀ v, v ∈ range_values startv endv ↔ startv ≤ v ≤ endv)
    ∧ true_set totalres
      = ⋃ ((λ v, true_set (GetQualifyingStripes index v num_stripes))
             <$> range_values startv endv)
    ∧ ∀ endv', startv - 1 ≤ endv' < endv →
        ∃ before after,
          evaluate_query index num_stripes startv endv'
          = Ok (before, Lookup <$> range_values startv endv')
          ∧ evaluate_query index num_stripes startv (endv' + 1)
            = Ok (after, Lookup <$> range_values startv (endv' + 1))
          ∧ union_lookup index num_stripes (endv' + 1) before = Ok after
          ∧ (GetOnesCount before ≤ GetOnesCount after)%nat.
Proof.
  intros Hsized HS HE.
  pose proof (λ endv0 H, evaluate_query_Ok index num_stripes startv endv0
                           Hsized HS H) as Hall.
  destruct (Hall endv HE) as (totalres & _ & Heval & Hlen & Hset).
  exists totalres. split; [exact Heval |].
  split.
  { intros s1 s2 H1 H2.
    destruct (range_record_bounds a s1 s2 startv endv H1 H2) as [Hno Hb].
    rewrite process_line_query, Hb by exact Hno. reflexivity. }
  split; [unfold run_query; rewrite Heval; reflexivity |].
  split; [apply NoDup_range_values |].
  split; [intros v; apply elem_of_range_values |].
  split; [exact Hset |].
  intros endv' Hendv'.
  destruct (Hall endv' ltac:(lia)) as (before & Hfold & Hbefore & Hlenb & _).
  destruct (Hall (endv' + 1) ltac:(lia)) as (after & Hfold' & Hafter & _ & _).
  exists before, after. split; [exact Hbefore |]. split; [exact Hafter |].
  rewrite range_values_snoc, union_lookups_app, Hfold in Hfold' by lia.
  cbn [mbind outcome_bind union_lookups] in Hfold'.
  assert (union_lookup index num_stripes (endv' + 1) before = Ok after) as Hstep.
  { destruct (union_lookup index num_stripes (endv' + 1) before); exact Hfold'. }
  split; [exact Hstep |].
  eapply union_lookup_monotone; eauto.
Qed.

Lemma range_query_unions_lookups_witness :
  index_sized scenario_index ∧ in_long 10 ∧ 30 < LONG_MAX
  ∧ ∃ totalres,
      evaluate_query scenario_index 3 10 30
      = Ok (totalres, Lookup <$> range_values 10 30)
      ∧ true_set totalres
        = ⋃ ((λ v, true_set (GetQualifyingStripes scenario_index v 3))
               <$> range_values 10 30).
Proof.
  assert (index_sized scenario_index) as Hsized.
  { intros value n. cbn. rewrite length_fmap, length_seq. reflexivity. }
  assert (in_long 10) as H10 by (unfold in_long, LONG_MIN, LONG_MAX; lia).
  assert (30 < LONG_MAX) as H30 by (unfold LONG_MAX; lia).
  split; [exact Hsized |]. split; [exact H10 |]. split; [exact H30 |].
  destruct (range_query_unions_lookups scenario_index 3 (quiet 0) initial
              10 30 Hsized H10 H30)
    as (totalres & Heval & _ & _ & _ & _ & Hset & _).
  exists totalres. split; [exact Heval | exact Hset].
Defined.

(** C2.  The record [range: 9223372036854775806,9223372036854775807], whose
    end bound is the largest [long].  Its two bounds are read as written.
    The loop of line 307 looks up both values; the increment [value++] then
    leaves the range of [long], and since every [long] satisfies
    [value <= endv] the loop does not leave, whatever the index and however
    many rounds it is given: the accumulator of the query is never complete,
    no block count is recorded for it and the step of the line ends in no
    state. *)
Theorem range_ending_at_long_max_never_returns :
  query_bounds (quiet 0) "range: 9223372036854775806,9223372036854775807"
  = Ok (Some (9223372036854775806, LONG_MAX))
  ∧ (∀ index num_stripes fuel totalres r,
       range_loop index num_stripes fuel 9223372036854775806 LONG_MAX totalres
       ≠ Ok r)
  ∧ (∃ totalres,
       range_loop scenario_index 3 2 9223372036854775806 LONG_MAX
                  (Bitmap64_make 3 false)
       = Fault Diverges
       ∧ union_lookups scenario_index 3
           [9223372036854775806; 9223372036854775807]
           (Bitmap64_make 3 false) = Ok totalres)
  ∧ process_line scenario_index 3 (quiet 0)
      "range: 9223372036854775806,9223372036854775807" initial
    = Fault Diverges.
Proof.
  split; [vm_compute; reflexivity |].
  split.
  { intros index num_stripes fuel totalres r.
    apply range_loop_max_not_Ok. unfold in_long, LONG_MIN, LONG_MAX. lia. }
  split; [eexists; split; vm_compute; reflexivity |].
  vm_compute. reflexivity.
Qed.

(** ** Point queries *)

(** C3.  For a numeral [s] of the value [V] (the plain decimal form of [V]
    is one), the record [point: V] and the record [range: V,V] are
    classified as queries with the same bounds [[V, V]] and are evaluated by
    the same code on them: the same accumulated bitmap, the same lookups,
    and the same state afterwards, that is the same addition to the block
    count and the same increment of the query counter. *)
Theorem point_is_unit_range
    (index : IndexStructure) (num_stripes : nat) (a : ambient) (st : state)
    (s : string) (V : Z) :
  reads_as s V →
  let point := "point:" +:+ s in
  let range := "range:" +:+ s +:+ "," +:+ s in
  reads_as (decimal V) V
  ∧ classify point = PointRecord
  ∧ classify range = RangeRecord
  ∧ query_bounds a point = Ok (Some (V, V))
  ∧ query_bounds a range = Ok (Some (V, V))
  ∧ process_line index num_stripes a point st
    = run_query index num_stripes a V V st
  ∧ process_line index num_stripes a range st
    = process_line index num_stripes a point st
  ∧ (index_sized index → V < LONG_MAX →
     ∃ totalres,
       evaluate_query index num_stripes V V = Ok (totalres, [Lookup V])
       ∧ true_set totalres
         = true_set (GetQualifyingStripes index V num_stripes)
       ∧ process_line index num_stripes a point st
         = Ok ({| blkcount :=
                    wrap64 (blkcount st + Z.of_nat (GetOnesCount totalres));
                  timecount := wrap64 (timecount st + searchduration a);
                  searchtime := wrap64 (searchtime st + 1) |}, [Lookup V])).
Proof.
  intros Hs point range.
  destruct (point_record_bounds a s V Hs) as [Hpoint Hbp].
  destruct (range_record_bounds a s s V V Hs Hs) as [Hrange Hbr].
  fold point in Hpoint, Hbp. fold range in Hrange, Hbr.
  assert (process_line index num_stripes a point st
          = run_query index num_stripes a V V st) as Hpp
    by (rewrite process_line_query, Hbp by exact Hpoint; reflexivity).
  assert (in_long V) as HVl.
  { unfold reads_as in Hs. eapply extract_long_in_long, Hs. }
  split; [apply decimal_reads_as, HVl |].
  split.
  { apply classify_PointRecord. split; [exact Hpoint |].
    assert (begins_with point "point:") by (exists s; reflexivity).
    split; [apply begins_with_point_not_range |]; assumption. }
  split.
  { apply classify_RangeRecord. split; [exact Hrange |].
    eexists; reflexivity. }
  split; [exact Hbp |]. split; [exact Hbr |]. split; [exact Hpp |].
  split; [rewrite Hpp, process_line_query, Hbr by exact Hrange; reflexivity |].
  intros Hsized HV.
  destruct (evaluate_query_point index num_stripes V Hsized HVl HV)
    as (totalres & Heval & Hset).
  exists totalres. split; [exact Heval |]. split; [exact Hset |].
  rewrite Hpp. unfold run_query. rewrite Heval. reflexivity.
Qed.

Lemma point_is_unit_range_witness :
  reads_as " 20" 20
  ∧ process_line scenario_index 3 (quiet 7) "range: 20, 20" initial
    = process_line scenario_index 3 (quiet 7) "point: 20" initial.
Proof.
  assert (reads_as " 20" 20) as H by reflexivity.
  split; [exact H |].
  exact (proj1 (proj2 (proj2 (proj2 (proj2 (proj2 (proj2
          (point_is_unit_range scenario_index 3 (quiet 7) initial " 20" 20
             H)))))))).
Defined.

(** ** Inverted ranges *)

Lemma Qdiv_inject_Z (x y : Z) :
  0 < y → (inject_Z x / inject_Z y == x # Z.to_pos y)%Q.
Proof.
  intros Hy. destruct y as [|p|p]; try lia.
  unfold Qdiv, Qinv, Qmult, inject_Z, Qeq. cbn. lia.
Qed.

(** The same total over one more query: the average does not grow, and it
    shrinks when the total is positive. *)
Lemma average_diluted (total count : Z) :
  0 < count →
  (0 ≤ total →
   (inject_Z total / inject_Z (count + 1) <= inject_Z total / inject_Z count)%Q)
  ∧ (0 < total →
     (inject_Z total / inject_Z (count + 1) < inject_Z total / inject_Z count)%Q)
  ∧ (total = 0 →
     (inject_Z total / inject_Z (count + 1) == inject_Z total / inject_Z count)%Q).
Proof.
  intros Hc. rewrite !Qdiv_inject_Z by lia.
  unfold Qle, Qlt, Qeq. cbn. rewrite !Z2Pos.id by lia.
  repeat split; intros; nia.
Qed.

(** The claim of C8 fails where the group's block-count total is zero: in
    a group whose one query found no block, an inverted range leaves the
    reported average at zero. *)
Lemma inverted_range_keeps_zero_average :
  let st := {| blkcount := 0; timecount := 40; searchtime := 1 |} in
  let group := [(quiet 0, "selectivity=1%"%string);
                (quiet 40, "point: 5"%string)] in
  workload_loop scenario_index 3 group initial
  = Ok (st, [Echo "selectivity=1%"; Lookup 5])
  ∧ (∃ st',
       process_line scenario_index 3 (quiet 0) "range: 30,10" st = Ok (st', [])
       ∧ searchtime st' = 2
       ∧ ¬ (avg_blk_of st' < avg_blk_of st)%Q)
  ∧ evaluate_workload scenario_index 3 group
    = Ok (initial, [Echo "selectivity=1%"; Lookup 5;
                    AvgBlk (0 # 1); AvgTime (40 # 1000000000)])
  ∧ evaluate_workload scenario_index 3
      (group ++ [(quiet 0, "range: 30,10"%string)])
    = Ok (initial, [Echo "selectivity=1%"; Lookup 5;
                    AvgBlk (0 # 2); AvgTime (40 # 2000000000)]).
Proof.
  cbn zeta. split; [vm_compute; reflexivity |]. split.
  - eexists. split; [vm_compute; reflexivity |].
    split; [reflexivity |]. vm_compute. discriminate.
  - split; vm_compute; reflexivity.
Qed.

(** C8, amended.  A range record whose start bound is above its end bound
    costs no lookup; its accumulator stays all false, so the block-count
    total is unchanged, and the query counter still goes up by one.  The
    average block count of the group therefore never grows by such a
    record; it shrinks exactly when the total is positive and stays zero
    when the total is zero. *)
Theorem inverted_range_counts_as_empty_query
    (index : IndexStructure) (num_stripes : nat) (a : ambient) (line : string)
    (st : state) (startv endv : Z) :
  state_in_long st →
  ¬ has_substring line "selectivity" → begins_with line "range:" →
  query_bounds a line = Ok (Some (startv, endv)) → endv < startv →
  evaluate_query index num_stripes startv endv
  = Ok (Bitmap64_make num_stripes false, [])
  ∧ GetOnesCount (Bitmap64_make num_stripes false) = 0%nat
  ∧ ∃ st',
      process_line index num_stripes a line st = Ok (st', [])
      ∧ blkcount st' = blkcount st
      ∧ searchtime st' = wrap64 (searchtime st + 1)
      ∧ (searchtime st < LONG_MAX → searchtime st' = searchtime st + 1)
      ∧ (0 < searchtime st < LONG_MAX →
         (0 ≤ blkcount st → (avg_blk_of st' <= avg_blk_of st)%Q)
         ∧ (0 < blkcount st ↔ (avg_blk_of st' < avg_blk_of st)%Q)
         ∧ (blkcount st = 0 → (avg_blk_of st' == avg_blk_of st)%Q)).
Proof.
  intros (Hblk & Htime & Hcount) Hno Hrange Hbounds Hlt.
  pose proof (evaluate_query_empty index num_stripes startv endv Hlt) as Heval.
  split; [exact Heval |]. split; [apply GetOnesCount_make_false |].
  eexists. split.
  { rewrite process_line_query, Hbounds by exact Hno.
    cbn [mbind outcome_bind]. unfold run_query. rewrite Heval. reflexivity. }
  cbn [blkcount searchtime]. rewrite GetOnesCount_make_false.
  assert (wrap64 (blkcount st + Z.of_nat 0) = blkcount st) as Hsame.
  { replace (blkcount st + Z.of_nat 0) with (blkcount st) by lia.
    apply wrap64_id, Hblk. }
  assert (searchtime st < LONG_MAX →
          wrap64 (searchtime st + 1) = searchtime st + 1) as Hsucc.
  { intros H. apply wrap64_id. unfold in_long, LONG_MAX in *. lia. }
  split; [exact Hsame |]. split; [reflexivity |]. split; [exact Hsucc |].
  intros [Hpos Hmax]. unfold avg_blk_of. cbn [blkcount searchtime].
  rewrite Hsame, Hsucc by exact Hmax.
  destruct (average_diluted (blkcount st) (searchtime st) Hpos)
    as (Hle & Hstrict & Hzero).
  split; [exact Hle |]. split; [| exact Hzero].
  split; [exact Hstrict |].
  intros Hless. destruct (Z_lt_le_dec 0 (blkcount st)) as [H | H]; [exact H |].
  exfalso. revert Hless. rewrite !Qdiv_inject_Z by lia.
  unfold Qlt. cbn. rewrite !Z2Pos.id by lia. nia.
Qed.

Lemma inverted_range_counts_as_empty_query_witness :
  let st := {| blkcount := 3; timecount := 40; searchtime := 1 |} in
  state_in_long st
  ∧ ¬ has_substring "range: 30,10" "selectivity"
  ∧ begins_with "range: 30,10" "range:"
  ∧ query_bounds (quiet 0) "range: 30,10" = Ok (Some (30, 10))
  ∧ 10 < 30
  ∧ ∃ st',
      process_line scenario_index 3 (quiet 0) "range: 30,10" st = Ok (st', [])
      ∧ blkcount st' = 3.
Proof.
  set (st := {| blkcount := 3; timecount := 40; searchtime := 1 |}).
  assert (state_in_long st) as Hst
    by (repeat split; cbn; unfold LONG_MIN, LONG_MAX; lia).
  assert (¬ has_substring "range: 30,10" "selectivity") as Hno
    by (rewrite <- find_npos; intros H; apply H; reflexivity).
  assert (begins_with "range: 30,10" "range:") as Hrange
    by (exists " 30,10"%string; reflexivity).
  assert (query_bounds (quiet 0) "range: 30,10" = Ok (Some (30, 10))) as Hb
    by reflexivity.
  cbn zeta. split; [exact Hst |]. split; [exact Hno |].
  split; [exact Hrange |]. split; [exact Hb |]. split; [lia |].
  destruct (inverted_range_counts_as_empty_query scenario_index 3 (quiet 0)
              "range: 30,10" st 30 10 Hst Hno Hrange Hb ltac:(lia))
    as (_ & _ & st' & Hline & Hblk & _).
  exists st'. split; [exact Hline | exact Hblk].
Defined.

(** ** Records that do not parse *)

(** The claim of C5 fails: the remainder of [point: x] does not parse, yet
    the line is neither skipped nor does the evaluator stop; the failed
    extraction has stored 0, the value 0 is looked up, and its three blocks
    and the query are in the average the group reports. *)
Lemma unparsed_point_is_evaluated :
  parse_fails "point: x"
  ∧ process_line full_index 3 (quiet 5) "point: x" initial
    = Ok ({| blkcount := 3; timecount := 5; searchtime := 1 |}, [Lookup 0])
  ∧ process_line full_index 3 (quiet 5) "point: x" initial ≠ Ok (initial, [])
  ∧ (∀ f, process_line full_index 3 (quiet 5) "point: x" initial ≠ Fault f)
  ∧ evaluate_workload full_index 3
      [(quiet 0, "selectivity=1%"%string); (quiet 5, "point: x"%string)]
    = Ok (initial, [Echo "selectivity=1%"; Lookup 0;
                    AvgBlk (3 # 1); AvgTime (5 # 1000000000)]).
Proof.
  split; [right; exists " x"%string; split; reflexivity |].
  split; [vm_compute; reflexivity |].
  split; [vm_compute; discriminate |].
  split; [intros f; vm_compute; discriminate | vm_compute; reflexivity].
Qed.

(** When the chain of a [range:] record stores an end bound, the start
    bound was read without failure, and an end bound stored by a failed
    extraction is zero or a saturated bound. *)
Lemma extract_range_stored_end (rest : string) (iss' : istringstream)
      (startv : option Z) (endv : Z) :
  extract_range rest = (iss', startv, Some endv) →
  (∃ v, startv = Some v)
  ∧ (failbit iss' = true → endv = 0 ∨ endv = LONG_MIN ∨ endv = LONG_MAX).
Proof.
  unfold extract_range.
  destruct (extract_long (iss_of rest)) as [iss1 s1] eqn:H1.
  destruct (extract_char iss1) as [iss2 c] eqn:H2.
  destruct (extract_long iss2) as [iss3 e] eqn:H3.
  intros [= <- <- ->]. split.
  - destruct s1 as [v|]; [eauto |]. exfalso.
    unfold extract_long in H1. cbn [good iss_of failbit eofbit negb andb buf] in H1.
    destruct (is_empty (skipws rest)).
    + injection H1 as <-. cbn in H2. injection H2 as <- _.
      cbn in H3. discriminate.
    + destruct (num_get_long (skipws rest)) as [[v ok] r]. discriminate.
  - intros Hfail. eapply extract_long_failed; eauto.
Qed.

(** C5, amended.  A line that begins with [range:] or [point:] and is not a
    header is evaluated whether or not its remainder parses: the evaluator
    does not test the stream, it runs the query for the bounds the
    extraction left, and whenever that returns the query counter has gone
    up by one and the block count and the duration of the lookups are in
    the totals.  A bound that a failed extraction stored is 0, or
    [LONG_MIN] or [LONG_MAX] for a numeral out of range: so it is for the
    bound of a [point:] line whose extraction is made and fails, and for
    the end bound of a [range:] line whose chain stores one and fails. *)
Theorem query_records_are_not_validated
    (index : IndexStructure) (num_stripes : nat) (a : ambient) (line : string)
    (st : state) :
  ¬ has_substring line "selectivity" →
  begins_with line "range:" ∨ begins_with line "point:" →
  ∃ startv endv,
    query_bounds a line = Ok (Some (startv, endv))
    ∧ process_line index num_stripes a line st
      = run_query index num_stripes a startv endv st
    ∧ (∀ st' out,
         process_line index num_stripes a line st = Ok (st', out) →
         ∃ totalres,
           evaluate_query index num_stripes startv endv = Ok (totalres, out)
           ∧ searchtime st' = wrap64 (searchtime st + 1)
           ∧ blkcount st'
             = wrap64 (blkcount st + Z.of_nat (GetOnesCount totalres))
           ∧ timecount st' = wrap64 (timecount st + searchduration a))
    ∧ (∀ rest iss' v,
         line = "point:" +:+ rest →
         extract_long (iss_of rest) = (iss', Some v) → failbit iss' = true →
         startv = v ∧ endv = v ∧ (v = 0 ∨ v = LONG_MIN ∨ v = LONG_MAX))
    ∧ (∀ rest iss' s e,
         line = "range:" +:+ rest →
         extract_range rest = (iss', s, Some e) → failbit iss' = true →
         s = Some startv ∧ endv = e
         ∧ (e = 0 ∨ e = LONG_MIN ∨ e = LONG_MAX)).
Proof.
  intros Hno Hkey.
  assert (∃ startv endv, query_bounds a line = Ok (Some (startv, endv)))
    as (startv & endv & Hb).
  { destruct Hkey as [[rest ->] | [rest ->]].
    - rewrite query_bounds_range. destruct (parse_range a rest); eauto.
    - rewrite query_bounds_point. destruct (parse_point a rest); eauto. }
  exists startv, endv. split; [exact Hb |].
  assert (process_line index num_stripes a line st
          = run_query index num_stripes a startv endv st) as Hline
    by (rewrite process_line_query, Hb by exact Hno; reflexivity).
  split; [exact Hline |]. split; [| split].
  - intros st' out. rewrite Hline. unfold run_query.
    destruct (evaluate_query index num_stripes startv endv)
      as [[totalres lookups]|f]; [| discriminate].
    cbn. intros [= <- <-]. exists totalres. auto.
  - intros rest iss' v -> Hext Hfail.
    rewrite query_bounds_point in Hb. unfold parse_point in Hb.
    rewrite Hext in Hb. cbn in Hb. injection Hb as <- <-.
    split; [reflexivity |]. split; [reflexivity |].
    eapply extract_long_failed; eauto.
  - intros rest iss' s e -> Hext Hfail.
    destruct (extract_range_stored_end _ _ _ _ Hext) as [[v ->] Hstored].
    rewrite query_bounds_range in Hb. unfold parse_range in Hb.
    rewrite Hext in Hb. cbn in Hb. injection Hb as <- <-. auto.
Qed.

Lemma query_records_are_not_validated_witness :
  ¬ has_substring "point: x" "selectivity"
  ∧ (begins_with "point: x" "range:" ∨ begins_with "point: x" "point:")
  ∧ ∃ startv endv,
      query_bounds (quiet 5) "point: x" = Ok (Some (startv, endv))
      ∧ process_line full_index 3 (quiet 5) "point: x" initial
        = run_query full_index 3 (quiet 5) startv endv initial.
Proof.
  assert (¬ has_substring "point: x" "selectivity") as Hno
    by (rewrite <- find_npos; intros H; apply H; reflexivity).
  assert (begins_with "point: x" "range:" ∨ begins_with "point: x" "point:")
    as Hkey by (right; exists " x"%string; reflexivity).
  split; [exact Hno |]. split; [exact Hkey |].
  destruct (query_records_are_not_validated full_index 3 (quiet 5) "point: x"
              initial Hno Hkey) as (startv & endv & Hb & Hline & _).
  exists startv, endv. split; [exact Hb | exact Hline].
Defined.

(** * The lookup samplers *)

Lemma vector_at_Ok (v : list Z) (i : Z) :
  0 ≤ i < Z.of_nat (length v) → ∃ x, vector_at v i = Ok x ∧ x ∈ v.
Proof.
  intros Hi. unfold vector_at. rewrite decide_True by lia.
  destruct (lookup_lt_is_Some_2 v (Z.to_nat i) ltac:(lia)) as [x Hx].
  rewrite Hx. exists x. split; [reflexivity |].
  eapply list_elem_of_lookup_2, Hx.
Qed.

(** A read succeeds exactly within the bounds. *)
Lemma vector_at_in_bounds (v : list Z) (i : Z) :
  (∃ x, vector_at v i = Ok x) ↔ 0 ≤ i < Z.of_nat (length v).
Proof.
  split.
  - intros [x Hx]. unfold vector_at in Hx.
    destruct (decide (0 ≤ i)); [| discriminate].
    destruct (v !! Z.to_nat i) eqn:Hl; [| discriminate].
    apply lookup_lt_Some in Hl. lia.
  - intros Hi. destruct (vector_at_Ok v i Hi) as (x & Hx & _). eauto.
Qed.

Lemma vector_at_empty (i : Z) : vector_at [] i = Fault VectorOutOfBounds.
Proof. unfold vector_at. destruct (decide (0 ≤ i)); reflexivity. Qed.

Lemma elem_of_erase_remove (x y : Z) (v : list Z) :
  y ∈ erase_remove x v ↔ y ≠ x ∧ y ∈ v.
Proof. unfold erase_remove. rewrite list_elem_of_filter. reflexivity. Qed.

Lemma length_erase_remove (x : Z) (v : list Z) :
  (length (erase_remove x v) ≤ length v)%nat.
Proof. unfold erase_remove. apply length_filter. Qed.

Lemma offset_bound_nonempty (distinct : list Z) :
  distinct ≠ [] → Z.of_nat (length distinct) ≤ SIZE_MAX →
  offset_bound distinct = Z.of_nat (length distinct) - 1.
Proof.
  intros Hne Hfit. unfold offset_bound, wrap_size_t.
  destruct distinct as [|x distinct]; [congruence |].
  cbn [length] in *. unfold SIZE_MAX in Hfit. rewrite Z.mod_small; lia.
Qed.

Lemma offset_bound_empty : offset_bound [] = SIZE_MAX.
Proof. reflexivity. Qed.

Lemma kLookupBatchSize_pos : ∃ n, Z.to_nat kLookupBatchSize = S n.
Proof.
  exists (Z.to_nat (kLookupBatchSize - 1)).
  unfold kLookupBatchSize. lia.
Qed.

Section SamplerFacts.

Variable E : Engine.
Variable column : Column.

Lemma offsets_in_range (n : nat) (hi : Z) (gen : Gen E) :
  engine_in_range E → 0 ≤ hi →
  Forall (λ off, 0 ≤ off ≤ hi) (offsets E n hi gen).
Proof.
  intros Hrange Hhi. revert gen.
  induction n as [|n IH]; intros gen; cbn [offsets]; [constructor |].
  pose proof (Hrange 0 hi gen Hhi) as Hoff.
  destruct (uniform_int E 0 hi gen) as [off gen']. cbn in Hoff.
  constructor; [exact Hoff | apply IH].
Qed.

Lemma length_offsets (n : nat) (hi : Z) (gen : Gen E) :
  length (offsets E n hi gen) = n.
Proof.
  revert gen. induction n as [|n IH]; intros gen; cbn [offsets];
    [reflexivity |].
  destruct (uniform_int E 0 hi gen) as [off gen']. cbn. rewrite IH.
  reflexivity.
Qed.

(** The filling loop reads the vector at the offsets it draws, in order. *)
Lemma fill_positive_reads (n : nat) (distinct : list Z) (hi : Z) (gen : Gen E) :
  fill_positive E n distinct hi gen
  = mapM (vector_at distinct) (offsets E n hi gen).
Proof.
  revert gen. induction n as [|n IH]; intros gen;
    cbn [fill_positive offsets]; [reflexivity |].
  destruct (uniform_int E 0 hi gen) as [off gen']. cbn [mapM].
  destruct (vector_at distinct off); [| reflexivity].
  cbn [mbind outcome_bind]. rewrite IH. reflexivity.
Qed.

Lemma fill_positive_Ok (n : nat) (distinct : list Z) (hi : Z) (gen : Gen E) :
  engine_in_range E → 0 ≤ hi < Z.of_nat (length distinct) →
  ∃ values, fill_positive E n distinct hi gen = Ok values
            ∧ length values = n
            ∧ ∀ v, v ∈ values → v ∈ distinct.
Proof.
  intros Hrange Hhi. revert gen.
  induction n as [|n IH]; intros gen; cbn [fill_positive].
  - exists []. repeat split. intros v Hv. inversion Hv.
  - pose proof (Hrange 0 hi gen ltac:(lia)) as Hoff.
    destruct (uniform_int E 0 hi gen) as [off gen']. cbn in Hoff.
    destruct (vector_at_Ok distinct off ltac:(lia)) as (x & -> & Hx).
    destruct (IH gen') as (values & -> & Hlen & Hin).
    exists (x :: values). cbn. repeat split; [congruence |].
    intros v [-> | Hv]%elem_of_cons; auto.
Qed.

(** On an empty vector the first read is out of bounds. *)
Lemma fill_positive_empty (n : nat) (hi : Z) (gen : Gen E) :
  fill_positive E (S n) [] hi gen = Fault VectorOutOfBounds.
Proof.
  cbn [fill_positive]. destruct (uniform_int E 0 hi gen) as [off gen'].
  rewrite vector_at_empty. reflexivity.
Qed.

(** The inner loop of the negative sampler leaves only with a value
    outside the column. *)
Lemma redraw_absent (fuel : nat) (value : Z) (gen : Gen E)
      (value' : Z) (gen' : Gen E) :
  redraw E column fuel value gen = Ok (value', gen') →
  Contains column value' = false.
Proof.
  revert value gen. induction fuel as [|fuel IH]; intros value gen;
    cbn [redraw]; destruct (Contains column value) eqn:Hc;
    try discriminate; try (intros [= <- <-]; exact Hc).
  destruct (uniform_int E LONG_MIN LONG_MAX gen) as [v1 g1]. apply IH.
Qed.

Lemma redraw_fault (fuel : nat) (value : Z) (gen : Gen E) (f : fault) :
  redraw E column fuel value gen = Fault f → f = Diverges.
Proof.
  revert value gen. induction fuel as [|fuel IH]; intros value gen;
    cbn [redraw]; destruct (Contains column value); try discriminate.
  - intros [= <-]. reflexivity.
  - destruct (uniform_int E LONG_MIN LONG_MAX gen) as [v1 g1]. apply IH.
Qed.

Lemma redraw_fuel (fuel fuel' : nat) (value : Z) (gen : Gen E)
      (r : Z * Gen E) :
  redraw E column fuel value gen = Ok r → (fuel ≤ fuel')%nat →
  redraw E column fuel' value gen = Ok r.
Proof.
  revert fuel' value gen. induction fuel as [|fuel IH];
    intros fuel' value gen; cbn [redraw].
  - destruct (Contains column value) eqn:Hc; [discriminate |].
    intros Hr _. destruct fuel'; cbn [redraw]; rewrite Hc; exact Hr.
  - destruct (Contains column value) eqn:Hc.
    + intros Hr Hle. destruct fuel' as [|fuel']; [lia |].
      cbn [redraw]. rewrite Hc.
      destruct (uniform_int E LONG_MIN LONG_MAX gen) as [v1 g1].
      apply IH; [exact Hr | lia].
    + intros Hr _. destruct fuel'; cbn [redraw]; rewrite Hc; exact Hr.
Qed.

(** When the [k]-th draw is outside the column, [k] rounds of the inner
    loop are enough. *)
Lemma redraw_finds (k : nat) (gen : Gen E) :
  Contains column (nth_draw E k gen) = false →
  ∃ r, (let '(value, gen1) := uniform_int E LONG_MIN LONG_MAX gen in
        redraw E column k value gen1) = Ok r.
Proof.
  revert gen. induction k as [|k IH]; intros gen; cbn [nth_draw].
  - destruct (uniform_int E LONG_MIN LONG_MAX gen) as [v g1].
    intros Hc. cbn [redraw]. rewrite Hc. eauto.
  - destruct (uniform_int E LONG_MIN LONG_MAX gen) as [v g1].
    intros Hc. cbn [redraw]. destruct (Contains column v); [| eauto].
    apply IH, Hc.
Qed.

Lemma fill_negative_fuel (fuel fuel' n : nat) (gen : Gen E) (values : list Z) :
  fill_negative E column fuel n gen = Ok values → (fuel ≤ fuel')%nat →
  fill_negative E column fuel' n gen = Ok values.
Proof.
  intros Hr Hle. revert gen values Hr.
  induction n as [|n IH]; intros gen values; cbn [fill_negative]; [auto |].
  destruct (uniform_int E LONG_MIN LONG_MAX gen) as [v g1].
  destruct (redraw E column fuel v g1) as [[v' g2]|f] eqn:Hre;
    [| discriminate].
  rewrite (redraw_fuel _ _ _ _ _ Hre Hle). cbn [mbind outcome_bind].
  destruct (fill_negative E column fuel n g2) as [vs|f] eqn:Hfill;
    [| discriminate].
  rewrite (IH _ _ Hfill). auto.
Qed.

(** While the engine keeps finding absent values there is fuel for any
    number of rounds. *)
Lemma fill_negative_total (n : nat) (gen : Gen E) :
  finds_absent E column →
  ∃ fuel values, fill_negative E column fuel n gen = Ok values.
Proof.
  intros Hfind. revert gen. induction n as [|n IH]; intros gen.
  - exists 0%nat, []. reflexivity.
  - destruct (Hfind gen) as [k Hk].
    destruct (redraw_finds k gen Hk) as [[v' g2] Hre].
    cbn [fill_negative].
    destruct (uniform_int E LONG_MIN LONG_MAX gen) as [v g1].
    destruct (IH g2) as (fuel & values & Hfill).
    exists (k + fuel)%nat, (v' :: values).
    rewrite (redraw_fuel _ _ _ _ _ Hre) by lia. cbn [mbind outcome_bind].
    rewrite (fill_negative_fuel _ _ _ _ _ Hfill) by lia. reflexivity.
Qed.

(** Whatever the filling loop returns has the asked length and holds only
    values outside the column. *)
Lemma fill_negative_absent (fuel n : nat) (gen : Gen E) (values : list Z) :
  fill_negative E column fuel n gen = Ok values →
  length values = n ∧ ∀ v, v ∈ values → Contains column v = false.
Proof.
  revert gen values. induction n as [|n IH]; intros gen values;
    cbn [fill_negative].
  - intros [= <-]. split; [reflexivity |]. intros v Hv. inversion Hv.
  - destruct (uniform_int E LONG_MIN LONG_MAX gen) as [v g1].
    destruct (redraw E column fuel v g1) as [[v' g2]|f] eqn:Hre;
      [| discriminate].
    cbn [mbind outcome_bind].
    destruct (fill_negative E column fuel n g2) as [vs|f] eqn:Hfill;
      [| discriminate].
    intros [= <-]. destruct (IH _ _ Hfill) as [Hlen Hall].
    split; [cbn; congruence |].
    intros x [-> | Hx]%elem_of_cons; [| auto].
    eapply redraw_absent, Hre.
Qed.

(** The values of the batch are draws from the full domain of [long]. *)
Lemma redraw_in_long (fuel : nat) (value : Z) (gen : Gen E)
      (value' : Z) (gen' : Gen E) :
  engine_in_range E → in_long value →
  redraw E column fuel value gen = Ok (value', gen') → in_long value'.
Proof.
  intros Hrange. revert value gen.
  induction fuel as [|fuel IH]; intros value gen Hv; cbn [redraw];
    destruct (Contains column value); try discriminate;
    try (intros [= <- _]; exact Hv).
  pose proof (Hrange LONG_MIN LONG_MAX gen ltac:(unfold LONG_MIN, LONG_MAX; lia))
    as Hdraw.
  destruct (uniform_int E LONG_MIN LONG_MAX gen) as [v1 g1]. apply IH, Hdraw.
Qed.

Lemma fill_negative_in_long (fuel n : nat) (gen : Gen E) (values : list Z) :
  engine_in_range E →
  fill_negative E column fuel n gen = Ok values →
  ∀ v, v ∈ values → in_long v.
Proof.
  intros Hrange. revert gen values.
  induction n as [|n IH]; intros gen values; cbn [fill_negative].
  - intros [= <-] v Hv. inversion Hv.
  - pose proof (Hrange LONG_MIN LONG_MAX gen
                  ltac:(unfold LONG_MIN, LONG_MAX; lia)) as Hdraw.
    destruct (uniform_int E LONG_MIN LONG_MAX gen) as [v0 g1].
    destruct (redraw E column fuel v0 g1) as [[v' g2]|f] eqn:Hre;
      [| discriminate].
    cbn [mbind outcome_bind].
    destruct (fill_negative E column fuel n g2) as [vs|f] eqn:Hfill;
      [| discriminate].
    intros [= <-] x [-> | Hx]%elem_of_cons.
    + eapply redraw_in_long; eauto.
    + eapply IH; eauto.
Qed.

Lemma fill_negative_fault (fuel n : nat) (gen : Gen E) (f : fault) :
  fill_negative E column fuel n gen = Fault f → f = Diverges.
Proof.
  revert gen. induction n as [|n IH]; intros gen; cbn [fill_negative];
    [discriminate |].
  destruct (uniform_int E LONG_MIN LONG_MAX gen) as [v g1].
  destruct (redraw E column fuel v g1) as [[v' g2]|f'] eqn:Hre.
  - cbn [mbind outcome_bind].
    destruct (fill_negative E column fuel n g2) as [vs|f'] eqn:Hfill;
      [discriminate |].
    intros [= <-]. eapply IH, Hfill.
  - intros [= <-]. eapply redraw_fault, Hre.
Qed.

End SamplerFacts.

(** ** Negative sampling *)

(** C6.  Every value of the negative-lookup batch is outside the column:
    whatever batch [BM_NegativeLookup] builds has [kLookupBatchSize] values,
    each a draw from the full domain of [long], and [Contains] is false of
    each, since the inner loop redraws until it is; the only other outcome
    is that an inner loop does not leave.  While the engine keeps coming to
    values outside the column the batch is built. *)
Theorem negative_batch_is_absent
    (E : Engine) (column : Column) (passes : nat) :
  (∀ fuel values lookups,
     BM_NegativeLookup E column fuel passes = Ok (values, lookups) →
     Z.of_nat (length values) = kLookupBatchSize
     ∧ (∀ v, v ∈ values → Contains column v = false)
     ∧ (engine_in_range E → ∀ v, v ∈ values → in_long v)
     ∧ lookups = concat (replicate passes (Lookup <$> values)))
  ∧ (∀ fuel f, BM_NegativeLookup E column fuel passes = Fault f → f = Diverges)
  ∧ (finds_absent E column →
     ∃ fuel values lookups,
       BM_NegativeLookup E column fuel passes = Ok (values, lookups)
       ∧ Z.of_nat (length values) = kLookupBatchSize
       ∧ ∀ v, v ∈ values → Contains column v = false).
Proof.
  assert (∀ fuel values lookups,
            BM_NegativeLookup E column fuel passes = Ok (values, lookups) →
            Z.of_nat (length values) = kLookupBatchSize
            ∧ (∀ v, v ∈ values → Contains column v = false)
            ∧ (engine_in_range E → ∀ v, v ∈ values → in_long v)
            ∧ lookups = concat (replicate passes (Lookup <$> values)))
    as Hsound.
  { intros fuel values lookups. unfold BM_NegativeLookup.
    destruct (fill_negative E column fuel _ _) as [vs|f] eqn:Hfill;
      [| discriminate].
    cbn [mbind outcome_bind]. intros [= <- <-].
    destruct (fill_negative_absent E column _ _ _ _ Hfill) as [Hlen Hall].
    split; [rewrite Hlen; unfold kLookupBatchSize; lia |].
    split; [exact Hall |]. split; [| reflexivity].
    intros Hrange. eapply fill_negative_in_long; eauto. }
  split; [exact Hsound |]. split.
  - intros fuel f. unfold BM_NegativeLookup.
    destruct (fill_negative E column fuel _ _) as [vs|f'] eqn:Hfill;
      [discriminate |].
    intros [= <-]. eapply fill_negative_fault, Hfill.
  - intros Hfind.
    destruct (fill_negative_total E column (Z.to_nat kLookupBatchSize)
                (seed E 42) Hfind) as (fuel & values & Hfill).
    exists fuel, values, (concat (replicate passes (lookup_pass values))).
    assert (BM_NegativeLookup E column fuel passes
            = Ok (values, concat (replicate passes (lookup_pass values))))
      as Hrun by (unfold BM_NegativeLookup; rewrite Hfill; reflexivity).
    split; [exact Hrun |].
    destruct (Hsound _ _ _ Hrun) as (Hlen & Hall & _ & _). auto.
Qed.

Lemma negative_batch_is_absent_witness :
  finds_absent counting_engine (column_of [42; 43; 45])
  ∧ ∃ fuel values lookups,
      BM_NegativeLookup counting_engine (column_of [42; 43; 45]) fuel 1
      = Ok (values, lookups)
      ∧ ∀ v, v ∈ values → Contains (column_of [42; 43; 45]) v = false.
Proof.
  assert (finds_absent counting_engine (column_of [42; 43; 45])) as Hfind.
  { assert (∀ g, Z.max LONG_MIN (Z.min LONG_MAX g) ∈ [42; 43; 45]
                 ↔ g = 42 ∨ g = 43 ∨ g = 45) as Hclamp.
    { intros g. rewrite !elem_of_cons, elem_of_nil.
      unfold LONG_MIN, LONG_MAX. lia. }
    intros gen. destruct (decide (gen = 42 ∨ gen = 43 ∨ gen = 45)) as [H | H].
    - exists 4%nat. apply bool_decide_eq_false.
      cbn [nth_draw uniform_int counting_engine]. rewrite Hclamp. lia.
    - exists 0%nat. apply bool_decide_eq_false.
      cbn [nth_draw uniform_int counting_engine]. rewrite Hclamp. exact H. }
  split; [exact Hfind |].
  destruct (negative_batch_is_absent counting_engine (column_of [42; 43; 45]) 1)
    as (_ & _ & Htotal).
  destruct (Htotal Hfind) as (fuel & values & lookups & Hrun & _ & Hall).
  exists fuel, values, lookups. split; [exact Hrun | exact Hall].
Defined.

(** ** Positive sampling *)

(** C7.  For a column with a distinct value other than the null sentinel,
    the positive batch is built, it has [kLookupBatchSize] values, and each
    is one of the column's distinct values with the sentinel erased: it is
    in the column and it is not the sentinel.  The sentinel is never in the
    list the offsets index. *)
Theorem positive_batch_is_present
    (E : Engine) (column : Column) (kIntNullSentinel : Z) (passes : nat) :
  engine_in_range E → column_sound column →
  Z.of_nat (length (distinct_values column)) ≤ SIZE_MAX →
  erase_remove kIntNullSentinel (distinct_values column) ≠ [] →
  (kIntNullSentinel ∉ erase_remove kIntNullSentinel (distinct_values column))
  ∧ ∃ values lookups,
      BM_PositiveDistinctLookup E column kIntNullSentinel passes
      = Ok (values, lookups)
      ∧ Z.of_nat (length values) = kLookupBatchSize
      ∧ ∀ v, v ∈ values →
          v ∈ erase_remove kIntNullSentinel (distinct_values column)
          ∧ v ∈ distinct_values column
          ∧ Contains column v = true
          ∧ v ≠ kIntNullSentinel.
Proof.
  intros Hrange Hsound Hfit Hne.
  split; [rewrite elem_of_erase_remove; tauto |].
  set (distinct := erase_remove kIntNullSentinel (distinct_values column)) in *.
  assert (Z.of_nat (length distinct) ≤ SIZE_MAX) as Hfit'.
  { pose proof (length_erase_remove kIntNullSentinel (distinct_values column)).
    fold distinct in H. lia. }
  pose proof (offset_bound_nonempty distinct Hne Hfit') as Hbound.
  assert (0 < Z.of_nat (length distinct)) as Hpos.
  { destruct distinct; [congruence | cbn; lia]. }
  destruct (fill_positive_Ok E (Z.to_nat kLookupBatchSize) distinct
              (offset_bound distinct) (seed E 42) Hrange ltac:(lia))
    as (values & Hfill & Hlen & Hin).
  exists values, (concat (replicate passes (lookup_pass values))).
  split.
  { unfold BM_PositiveDistinctLookup. fold distinct. rewrite Hfill.
    reflexivity. }
  split; [rewrite Hlen; unfold kLookupBatchSize; lia |].
  intros v Hv%Hin. split; [exact Hv |].
  apply elem_of_erase_remove in Hv as [Hnot Hdist]. auto.
Qed.

Lemma positive_batch_is_present_witness :
  engine_in_range counting_engine
  ∧ column_sound (column_of [10; -1; 20; 10; 30])
  ∧ erase_remove (-1) (distinct_values (column_of [10; -1; 20; 10; 30])) ≠ []
  ∧ ∃ values lookups,
      BM_PositiveDistinctLookup counting_engine
        (column_of [10; -1; 20; 10; 30]) (-1) 1 = Ok (values, lookups)
      ∧ ∀ v, v ∈ values →
          Contains (column_of [10; -1; 20; 10; 30]) v = true ∧ v ≠ -1.
Proof.
  assert (engine_in_range counting_engine) as Hrange
    by (intros a b g Hab; cbn; lia).
  assert (column_sound (column_of [10; -1; 20; 10; 30])) as Hsound.
  { intros v Hv. cbn in Hv |- *. apply bool_decide_eq_true.
    apply elem_of_remove_dups, Hv. }
  assert (erase_remove (-1) (distinct_values (column_of [10; -1; 20; 10; 30]))
          ≠ []) as Hne by (vm_compute; discriminate).
  split; [exact Hrange |]. split; [exact Hsound |]. split; [exact Hne |].
  destruct (positive_batch_is_present counting_engine
              (column_of [10; -1; 20; 10; 30]) (-1) 1 Hrange Hsound
              ltac:(vm_compute; discriminate) Hne)
    as (_ & values & lookups & Hrun & _ & Hall).
  exists values, lookups. split; [exact Hrun |].
  intros v Hv. destruct (Hall v Hv) as (_ & _ & Hc & Hs). auto.
Defined.

(** C10.  With a non-empty list of distinct values after the sentinel is
    erased, [distinct_values.size() - 1] is the last index of the list,
    every offset drawn is within the bounds of the list and every read
    succeeds.  With an empty list the subtraction wraps around to
    [SIZE_MAX] and the first read is out of bounds: the batch is built
    exactly when the list is not empty. *)
Theorem positive_offsets_in_bounds
    (E : Engine) (column : Column) (kIntNullSentinel : Z) (passes : nat) :
  engine_in_range E →
  Z.of_nat (length (distinct_values column)) ≤ SIZE_MAX →
  let distinct := erase_remove kIntNullSentinel (distinct_values column) in
  let drawn :=
    offsets E (Z.to_nat kLookupBatchSize) (offset_bound distinct) (seed E 42) in
  (distinct ≠ [] →
   offset_bound distinct = Z.of_nat (length distinct) - 1
   ∧ 0 ≤ offset_bound distinct ≤ SIZE_MAX
   ∧ Forall (λ off, 0 ≤ off < Z.of_nat (length distinct)) drawn
   ∧ Forall (λ off, ∃ x, vector_at distinct off = Ok x) drawn
   ∧ ∃ values lookups,
       BM_PositiveDistinctLookup E column kIntNullSentinel passes
       = Ok (values, lookups)
       ∧ mapM (vector_at distinct) drawn = Ok values)
  ∧ (distinct = [] →
     offset_bound distinct = SIZE_MAX
     ∧ Forall (λ off, vector_at distinct off = Fault VectorOutOfBounds) drawn
     ∧ drawn ≠ []
     ∧ BM_PositiveDistinctLookup E column kIntNullSentinel passes
       = Fault VectorOutOfBounds).
Proof.
  intros Hrange Hfit distinct drawn.
  assert (Z.of_nat (length distinct) ≤ SIZE_MAX) as Hfit'.
  { pose proof (length_erase_remove kIntNullSentinel (distinct_values column)).
    fold distinct in H. lia. }
  split.
  - intros Hne.
    pose proof (offset_bound_nonempty distinct Hne Hfit') as Hbound.
    assert (0 < Z.of_nat (length distinct)) as Hpos.
    { destruct distinct; [congruence | cbn; lia]. }
    split; [exact Hbound |]. split; [lia |].
    assert (Forall (λ off, 0 ≤ off < Z.of_nat (length distinct)) drawn)
      as Hdrawn.
    { eapply Forall_impl;
        [apply offsets_in_range; [exact Hrange | lia] |].
      cbn. intros off Hoff. lia. }
    split; [exact Hdrawn |]. split.
    { eapply Forall_impl; [exact Hdrawn |]. cbn. intros off Hoff.
      apply vector_at_in_bounds, Hoff. }
    destruct (fill_positive_Ok E (Z.to_nat kLookupBatchSize) distinct
                (offset_bound distinct) (seed E 42) Hrange ltac:(lia))
      as (values & Hfill & _ & _).
    exists values, (concat (replicate passes (lookup_pass values))).
    split.
    + unfold BM_PositiveDistinctLookup. fold distinct. rewrite Hfill.
      reflexivity.
    + unfold drawn. rewrite <- fill_positive_reads. exact Hfill.
  - intros Hempty.
    split; [rewrite Hempty; apply offset_bound_empty |]. split.
    { apply Forall_forall. intros off _. rewrite Hempty.
      apply vector_at_empty. }
    destruct kLookupBatchSize_pos as [n Hn]. split.
    { intros Hnil.
      pose proof (length_offsets E (Z.to_nat kLookupBatchSize)
                    (offset_bound distinct) (seed E 42)) as Hlen.
      unfold drawn in Hnil. rewrite Hnil, Hn in Hlen. discriminate. }
    unfold BM_PositiveDistinctLookup. fold distinct. rewrite Hn.
    generalize (offset_bound distinct). rewrite Hempty. intros hi.
    rewrite fill_positive_empty. reflexivity.
Qed.

Lemma positive_offsets_in_bounds_witness :
  engine_in_range counting_engine
  ∧ BM_PositiveDistinctLookup counting_engine (column_of [-1; -1]) (-1) 1
    = Fault VectorOutOfBounds
  ∧ offset_bound (erase_remove (-1) (distinct_values (column_of [7; -1; 9])))
    = 1.
Proof.
  assert (engine_in_range counting_engine) as Hrange
    by (intros a b g Hab; cbn; lia).
  split; [exact Hrange |]. split.
  - destruct (positive_offsets_in_bounds counting_engine (column_of [-1; -1])
                (-1) 1 Hrange ltac:(vm_compute; discriminate))
      as (_ & Hempty).
    destruct (Hempty eq_refl) as (_ & _ & _ & Hrun). exact Hrun.
  - destruct (positive_offsets_in_bounds counting_engine (column_of [7; -1; 9])
                (-1) 1 Hrange ltac:(vm_compute; discriminate))
      as (Hfull & _).
    destruct (Hfull ltac:(vm_compute; discriminate)) as (Hbound & _).
    exact Hbound.
Defined.

(** * More of the workload evaluator *)

Lemma GetOnesCount_le_length (bm : Bitmap64) :
  (GetOnesCount bm ≤ length bm)%nat.
Proof.
  induction bm as [|b bm IH]; cbn [GetOnesCount length]; [lia |].
  destruct b; lia.
Qed.

Lemma set_true_bits_length (tempres : list nat) (totalres res : Bitmap64) :
  set_true_bits tempres totalres = Ok res → length res = length totalres.
Proof.
  revert totalres. induction tempres as [|i tempres IH]; intros totalres;
    cbn [set_true_bits].
  - intros [= <-]. reflexivity.
  - unfold Set_. destruct (decide (i < length totalres)%nat); [| discriminate].
    cbn [mbind outcome_bind]. intros H%IH. rewrite H. apply length_insert.
Qed.

(** A fault of the inner loop is a violated precondition of [Set]. *)
Lemma set_true_bits_fault (tempres : list nat) (totalres : Bitmap64) (f : fault) :
  set_true_bits tempres totalres = Fault f → f = BitmapPrecondition.
Proof.
  revert totalres. induction tempres as [|i tempres IH]; intros totalres;
    cbn [set_true_bits]; [discriminate |].
  unfold Set_. destruct (decide (i < length totalres)%nat).
  - cbn [mbind outcome_bind]. apply IH.
  - cbn. intros [= <-]. reflexivity.
Qed.

Lemma substr_begins_with (line keyword : string) :
  begins_with line keyword → ∃ rest, substr (String.length keyword) line = Ok rest.
Proof. intros [rest ->]. exists rest. apply substr_append. Qed.

Section MoreEvaluatorFacts.

Variable index : IndexStructure.
Variable num_stripes : nat.

Lemma range_loop_length (fuel : nat) (value endv : Z)
      (totalres res : Bitmap64) (lookups : list event) :
  range_loop index num_stripes fuel value endv totalres = Ok (res, lookups) →
  length res = length totalres.
Proof.
  revert value totalres lookups.
  induction fuel as [|fuel IH]; intros value totalres lookups;
    cbn [range_loop]; destruct (decide (value ≤ endv));
    try discriminate; try (intros [= <- _]; reflexivity).
  unfold union_lookup.
  destruct (set_true_bits _ totalres) as [r1|f] eqn:Hset; [| discriminate].
  cbn [mbind outcome_bind].
  destruct (range_loop index num_stripes fuel _ endv r1) as [[r2 ls]|f]
    eqn:Hloop; [| discriminate].
  cbn. intros [= <- _].
  rewrite (IH _ _ _ Hloop). eapply set_true_bits_length, Hset.
Qed.

(** The trace of the range loop holds lookups only. *)
Lemma range_loop_trace (fuel : nat) (value endv : Z)
      (totalres res : Bitmap64) (lookups : list event) :
  range_loop index num_stripes fuel value endv totalres = Ok (res, lookups) →
  lookups = Lookup <$> looked_up lookups.
Proof.
  revert value totalres res lookups.
  induction fuel as [|fuel IH]; intros value totalres res lookups;
    cbn [range_loop]; destruct (decide (value ≤ endv));
    try discriminate; try (intros [= _ <-]; reflexivity).
  destruct (union_lookup index num_stripes value totalres) as [r1|f];
    [| discriminate].
  cbn [mbind outcome_bind].
  destruct (range_loop index num_stripes fuel _ endv r1) as [[r2 ls]|f]
    eqn:Hloop; [| discriminate].
  cbn. intros [= _ <-]. cbn. f_equal. eapply IH, Hloop.
Qed.

Lemma range_loop_fault (fuel : nat) (value endv : Z) (totalres : Bitmap64)
      (f : fault) :
  range_loop index num_stripes fuel value endv totalres = Fault f →
  f = BitmapPrecondition ∨ f = Diverges.
Proof.
  revert value totalres.
  induction fuel as [|fuel IH]; intros value totalres;
    cbn [range_loop]; destruct (decide (value ≤ endv)); try discriminate.
  - intros [= <-]. auto.
  - unfold union_lookup.
    destruct (set_true_bits _ totalres) as [r1|f1] eqn:Hset.
    + cbn [mbind outcome_bind].
      destruct (range_loop index num_stripes fuel _ endv r1) as [[r2 ls]|f2]
        eqn:Hloop; [discriminate |].
      cbn. intros [= <-]. eapply IH, Hloop.
    + cbn. intros [= <-]. left. eapply set_true_bits_fault, Hset.
Qed.

(** What an iteration of the loop over the lines can have done when it
    returns: a flush and an echo, a query, or nothing. *)
Lemma process_line_cases (a : ambient) (line : string) (st st' : state)
      (out : list event) :
  process_line index num_stripes a line st = Ok (st', out) →
  (is_header_line line = true
   ∧ ∃ report, flush st = Ok (st', report) ∧ out = report ++ [Echo line])
  ∨ (is_header_line line = false ∧ is_query_line line = true
     ∧ ∃ startv endv totalres,
         query_bounds a line = Ok (Some (startv, endv))
         ∧ evaluate_query index num_stripes startv endv = Ok (totalres, out)
         ∧ length totalres = num_stripes
         ∧ st' = {| blkcount :=
                      wrap64 (blkcount st + Z.of_nat (GetOnesCount totalres));
                    timecount := wrap64 (timecount st + searchduration a);
                    searchtime := wrap64 (searchtime st + 1) |})
  ∨ (is_header_line line = false ∧ is_query_line line = false
     ∧ st' = st ∧ out = []).
Proof.
  rewrite process_line_classify. unfold is_header_line, is_query_line.
  assert (∀ startv endv,
            run_query index num_stripes a startv endv st = Ok (st', out) →
            ∃ totalres,
              evaluate_query index num_stripes startv endv = Ok (totalres, out)
              ∧ length totalres = num_stripes
              ∧ st' = {| blkcount :=
                           wrap64 (blkcount st
                                   + Z.of_nat (GetOnesCount totalres));
                         timecount := wrap64 (timecount st + searchduration a);
                         searchtime := wrap64 (searchtime st + 1) |})
    as Hrun.
  { intros startv endv. unfold run_query.
    destruct (evaluate_query index num_stripes startv endv)
      as [[totalres lookups]|f] eqn:Heval; [| discriminate].
    cbn. intros [= <- <-]. exists totalres. split; [reflexivity |].
    split; [| reflexivity].
    unfold evaluate_query in Heval. apply range_loop_length in Heval.
    rewrite Heval. apply length_make. }
  destruct (classify line) eqn:Hclass.
  - apply classify_Header, find_npos in Hclass.
    rewrite bool_decide_eq_true_2 by exact Hclass.
    destruct (flush st) as [[st1 report]|f]; [| discriminate].
    cbn. intros [= <- <-]. left. eauto.
  - pose proof Hclass as [Hno [rest Hrest]]%classify_RangeRecord.
    rewrite <- find_npos in Hno. rewrite bool_decide_eq_false_2 by exact Hno.
    subst line. change 6%nat with (String.length "range:").
    rewrite substr_append. cbn [mbind outcome_bind].
    destruct (parse_range a rest) as [startv endv] eqn:Hp.
    intros (totalres & Heval & Hlen & Hst)%Hrun. right. left.
    split; [reflexivity |]. split; [reflexivity |].
    exists startv, endv, totalres. rewrite query_bounds_range, Hp. auto.
  - pose proof Hclass as (Hno & _ & [rest Hrest])%classify_PointRecord.
    rewrite <- find_npos in Hno. rewrite bool_decide_eq_false_2 by exact Hno.
    subst line. change 6%nat with (String.length "point:").
    rewrite substr_append. cbn [mbind outcome_bind].
    destruct (parse_point a rest) as [startv endv] eqn:Hp.
    intros (totalres & Heval & Hlen & Hst)%Hrun. right. left.
    split; [reflexivity |]. split; [reflexivity |].
    exists startv, endv, totalres. rewrite query_bounds_point, Hp. auto.
  - apply classify_Ignored in Hclass as (Hno & _ & _).
    rewrite <- find_npos in Hno. rewrite bool_decide_eq_false_2 by exact Hno.
    intros [= <- <-]. right. right. auto.
Qed.

(** A flush always returns, and with the accumulators of the reset unless
    the counter was already zero. *)
Lemma flush_fresh (k : Z) (st : state) :
  fresh k st → ∃ report, flush st = Ok (initial, report).
Proof.
  intros [_ Hzero]. destruct (decide (searchtime st = 0)) as [H | H].
  - rewrite flush_zero by exact H. rewrite (Hzero H). eauto.
  - rewrite flush_nonzero by exact H. eauto.
Qed.

Lemma initial_fresh : fresh 0 initial.
Proof. split; [cbn; lia | reflexivity]. Qed.

Lemma process_line_fresh (k : Z) (a : ambient) (line : string)
      (st st' : state) (out : list event) :
  fresh k st → k < LONG_MAX →
  process_line index num_stripes a line st = Ok (st', out) →
  fresh (k + 1) st'.
Proof.
  intros [Hk Hzero] Hmax
    [(_ & report & Hflush & _) | [(_ & _ & s & e & res & _ & _ & _ & ->)
                                  | (_ & _ & -> & _)]]%process_line_cases.
  - destruct (decide (searchtime st = 0)) as [H | H].
    + rewrite flush_zero in Hflush by exact H. injection Hflush as <- _.
      split; [lia | exact Hzero].
    + rewrite flush_nonzero in Hflush by exact H. injection Hflush as <- _.
      split; [cbn; lia | reflexivity].
  - unfold fresh. cbn [searchtime].
    rewrite (wrap64_id (searchtime st + 1))
      by (unfold in_long, LONG_MIN, LONG_MAX in *; lia).
    split; [lia | intros; lia].
  - split; [lia | exact Hzero].
Qed.

Lemma workload_loop_fresh (w : list (ambient * string)) (k : Z)
      (st st' : state) (out : list event) :
  fresh k st → k + Z.of_nat (length w) ≤ LONG_MAX →
  workload_loop index num_stripes w st = Ok (st', out) →
  fresh (k + Z.of_nat (length w)) st'.
Proof.
  revert k st out. induction w as [|[a line] w IH]; intros k st out Hst Hmax;
    cbn [workload_loop].
  - intros [= <- _]. cbn. rewrite Z.add_0_r. exact Hst.
  - destruct (process_line index num_stripes a line st) as [[st1 out1]|f]
      eqn:Hline; [| discriminate].
    cbn [mbind outcome_bind].
    destruct (workload_loop index num_stripes w st1) as [[st2 out2]|f]
      eqn:Hloop; [| discriminate].
    cbn. intros [= <- _]. cbn [length] in Hmax |- *.
    replace (k + Z.of_nat (S (length w))) with (k + 1 + Z.of_nat (length w))
      by lia.
    eapply IH; [| lia | exact Hloop].
    eapply process_line_fresh; [exact Hst | lia | exact Hline].
Qed.

End MoreEvaluatorFacts.

(** X1.  A header line splits a workload: the trace of the whole is the
    trace of the lines before the header, evaluated as a workload of their
    own with its closing report, then the echo of the header, then the
    trace of the lines after it, evaluated from the reset accumulators.  The
    lines before the header are fewer than the values of a [long]. *)
Theorem header_splits_workload
    (index : IndexStructure) (num_stripes : nat)
    (w1 w2 : list (ambient * string)) (a : ambient) (header : string) :
  has_substring header "selectivity" →
  Z.of_nat (length w1) ≤ LONG_MAX →
  evaluate_workload index num_stripes (w1 ++ (a, header) :: w2)
  = '(_, out1) ← evaluate_workload index num_stripes w1;
    '(st2, out2) ← evaluate_workload index num_stripes w2;
    Ok (st2, out1 ++ Echo header :: out2).
Proof.
  intros Hheader Hlen. unfold evaluate_workload.
  rewrite workload_loop_app.
  destruct (workload_loop index num_stripes w1 initial) as [[st1 out1]|f]
    eqn:Hloop1; [| reflexivity].
  cbn [mbind outcome_bind workload_loop].
  rewrite process_line_header by exact Hheader.
  destruct (flush_fresh (0 + Z.of_nat (length w1)) st1) as [report Hflush].
  { eapply workload_loop_fresh; [apply initial_fresh | lia | exact Hloop1]. }
  rewrite Hflush. cbn [mbind outcome_bind].
  destruct (workload_loop index num_stripes w2 initial) as [[st2 out2]|f];
    [| reflexivity].
  cbn [mbind outcome_bind].
  destruct (flush st2) as [[st3 report2]|f]; [| reflexivity].
  cbn [mbind outcome_bind]. f_equal. f_equal.
  rewrite <- !app_assoc. cbn. reflexivity.
Qed.

Lemma header_splits_workload_witness :
  has_substring "selectivity=high" "selectivity"
  ∧ evaluate_workload scenario_index 3
      ([(quiet 7, "point: 20"%string)]
       ++ (quiet 0, "selectivity=high"%string)
          :: [(quiet 9, "point: 30"%string)])
    = Ok (initial, [Lookup 20; AvgBlk (1 # 1); AvgTime (7 # 1000000000);
                    Echo "selectivity=high";
                    Lookup 30; AvgBlk (1 # 1); AvgTime (9 # 1000000000)]).
Proof.
  assert (has_substring "selectivity=high" "selectivity") as H
    by (exists EmptyString, "=high"%string; reflexivity).
  split; [exact H |].
  rewrite (header_splits_workload scenario_index 3
             [(quiet 7, "point: 20"%string)] [(quiet 9, "point: 30"%string)]
             (quiet 0) "selectivity=high" H
             ltac:(cbn; unfold LONG_MAX; lia)).
  vm_compute. reflexivity.
Defined.

(** ** Projections of the trace *)

Lemma echoes_app (out1 out2 : list event) :
  echoes (out1 ++ out2) = echoes out1 ++ echoes out2.
Proof. apply omap_app. Qed.

Lemma reported_blocks_app (out1 out2 : list event) :
  reported_blocks (out1 ++ out2) = reported_blocks out1 ++ reported_blocks out2.
Proof. apply omap_app. Qed.

Lemma echoes_lookups (vs : list Z) : echoes (Lookup <$> vs) = [].
Proof. induction vs as [|v vs IH]; [reflexivity | exact IH]. Qed.

Lemma reported_blocks_lookups (vs : list Z) :
  reported_blocks (Lookup <$> vs) = [].
Proof. induction vs as [|v vs IH]; [reflexivity | exact IH]. Qed.

Lemma flush_report (st st' : state) (report : list event) :
  flush st = Ok (st', report) →
  echoes report = []
  ∧ (searchtime st = 0 → st' = st ∧ report = [])
  ∧ (searchtime st ≠ 0 →
     st' = initial ∧ reported_blocks report = [avg_blk_of st]).
Proof.
  destruct (decide (searchtime st = 0)) as [H | H].
  - rewrite flush_zero by exact H. intros [= <- <-].
    split; [reflexivity |]. split; [auto | contradiction].
  - rewrite flush_nonzero by exact H. intros [= <- <-].
    split; [reflexivity |]. split; [contradiction | auto].
Qed.

Lemma average_in_range (n total count : Z) :
  0 < count → 0 ≤ total ≤ count * n →
  average_within n (inject_Z total / inject_Z count).
Proof.
  intros Hc Ht. unfold average_within. rewrite Qdiv_inject_Z by exact Hc.
  unfold Qle. cbn. rewrite Z2Pos.id by exact Hc. lia.
Qed.

Section TraceFacts.

Variable index : IndexStructure.
Variable num_stripes : nat.

Lemma evaluate_query_trace (startv endv : Z) (res : Bitmap64)
      (out : list event) :
  evaluate_query index num_stripes startv endv = Ok (res, out) →
  out = Lookup <$> looked_up out.
Proof. unfold evaluate_query. apply range_loop_trace. Qed.

Lemma process_line_echoes (a : ambient) (line : string) (st st' : state)
      (out : list event) :
  process_line index num_stripes a line st = Ok (st', out) →
  echoes out = if is_header_line line then [line] else [].
Proof.
  intros [(-> & report & Hflush & ->)
         | [(-> & _ & s & e & res & _ & Heval & _)
           | (-> & _ & _ & ->)]]%process_line_cases.
  - rewrite echoes_app. apply flush_report in Hflush as [-> _]. reflexivity.
  - rewrite (evaluate_query_trace _ _ _ _ Heval). apply echoes_lookups.
  - reflexivity.
Qed.

Lemma workload_loop_echoes (w : list (ambient * string)) (st st' : state)
      (out : list event) :
  workload_loop index num_stripes w st = Ok (st', out) →
  echoes out = filter (λ line, is_header_line line = true) (w.*2).
Proof.
  revert st st' out. induction w as [|[a line] w IH]; intros st st' out;
    cbn [workload_loop].
  - intros [= _ <-]. reflexivity.
  - destruct (process_line index num_stripes a line st) as [[st1 out1]|f]
      eqn:Hline; [| discriminate].
    cbn [mbind outcome_bind].
    destruct (workload_loop index num_stripes w st1) as [[st2 out2]|f]
      eqn:Hloop; [| discriminate].
    cbn [mbind outcome_bind]. intros [= _ <-].
    rewrite echoes_app, (process_line_echoes _ _ _ _ _ Hline), (IH _ _ _ Hloop).
    cbn [fmap list_fmap snd]. rewrite filter_cons.
    destruct (is_header_line line) eqn:Hh.
    + rewrite decide_True by reflexivity. reflexivity.
    + rewrite decide_False by discriminate. reflexivity.
Qed.

(** Each step keeps the block-count total within the stripes of the
    queries counted and reports averages within the stripe count. *)
Lemma process_line_blocks (k : Z) (a : ambient) (line : string)
      (st st' : state) (out : list event) :
  fresh k st → blocks_bounded (Z.of_nat num_stripes) st →
  k < LONG_MAX → (k + 1) * Z.of_nat num_stripes ≤ LONG_MAX →
  process_line index num_stripes a line st = Ok (st', out) →
  blocks_bounded (Z.of_nat num_stripes) st'
  ∧ Forall (average_within (Z.of_nat num_stripes)) (reported_blocks out).
Proof.
  intros [Hk Hzero] Hb Hmax Hprod
    [(_ & report & Hflush & ->)
    | [(_ & _ & s & e & res & _ & Heval & Hlen & ->)
      | (_ & _ & -> & ->)]]%process_line_cases.
  - rewrite reported_blocks_app, app_nil_r.
    apply flush_report in Hflush as (_ & Hz & Hnz).
    destruct (decide (searchtime st = 0)) as [H | H].
    + destruct (Hz H) as [-> ->]. split; [exact Hb | constructor].
    + destruct (Hnz H) as [-> ->].
      split; [unfold blocks_bounded; cbn; lia |].
      constructor; [| constructor].
      apply average_in_range; [lia | exact Hb].
  - rewrite (evaluate_query_trace _ _ _ _ Heval), reported_blocks_lookups.
    split; [| constructor].
    pose proof (GetOnesCount_le_length res) as Hpop. rewrite Hlen in Hpop.
    unfold blocks_bounded in *. cbn [blkcount searchtime].
    rewrite (wrap64_id (searchtime st + 1))
      by (unfold in_long, LONG_MIN, LONG_MAX in *; lia).
    rewrite wrap64_id by (unfold in_long, LONG_MIN, LONG_MAX in *; nia).
    nia.
  - split; [exact Hb | constructor].
Qed.

Lemma workload_loop_blocks (w : list (ambient * string)) (k : Z)
      (st st' : state) (out : list event) :
  fresh k st → blocks_bounded (Z.of_nat num_stripes) st →
  k + Z.of_nat (length w) ≤ LONG_MAX →
  (k + Z.of_nat (length w)) * Z.of_nat num_stripes ≤ LONG_MAX →
  workload_loop index num_stripes w st = Ok (st', out) →
  fresh (k + Z.of_nat (length w)) st'
  ∧ blocks_bounded (Z.of_nat num_stripes) st'
  ∧ Forall (average_within (Z.of_nat num_stripes)) (reported_blocks out).
Proof.
  revert k st st' out.
  induction w as [|[a line] w IH]; intros k st st' out Hst Hb Hmax Hprod;
    cbn [workload_loop].
  - intros [= <- <-]. cbn [length Z.of_nat]. rewrite Z.add_0_r.
    split; [exact Hst |]. split; [exact Hb | constructor].
  - destruct (process_line index num_stripes a line st) as [[st1 out1]|f]
      eqn:Hline; [| discriminate].
    cbn [mbind outcome_bind].
    destruct (workload_loop index num_stripes w st1) as [[st2 out2]|f]
      eqn:Hloop; [| discriminate].
    cbn [mbind outcome_bind]. intros [= <- <-]. cbn [length] in *.
    assert (0 ≤ k) as Hk0 by (destruct Hst as [[? ?] _]; lia).
    destruct (process_line_blocks k a line st st1 out1 Hst Hb ltac:(lia)
                ltac:(nia) Hline) as [Hb1 Hout1].
    pose proof (process_line_fresh index num_stripes k a line st st1 out1 Hst
                  ltac:(lia) Hline) as Hst1.
    destruct (IH (k + 1) st1 st2 out2 Hst1 Hb1 ltac:(lia) ltac:(nia) Hloop)
      as (Hst2 & Hb2 & Hout2).
    replace (k + Z.of_nat (S (length w))) with (k + 1 + Z.of_nat (length w))
      by lia.
    split; [exact Hst2 |]. split; [exact Hb2 |].
    rewrite reported_blocks_app. apply Forall_app. auto.
Qed.

End TraceFacts.

(** X2.  The lines a run echoes are the header lines of the workload, each
    verbatim and once, in the order of the file; no other line is echoed,
    neither by the loop nor by the closing report. *)
Theorem headers_are_echoed_in_order
    (index : IndexStructure) (num_stripes : nat)
    (w : list (ambient * string)) (st : state) (out : list event) :
  evaluate_workload index num_stripes w = Ok (st, out) →
  echoes out = filter (λ line, is_header_line line = true) (w.*2)
  ∧ ∀ line, line ∈ echoes out ↔
            (∃ a, (a, line) ∈ w) ∧ has_substring line "selectivity".
Proof.
  unfold evaluate_workload.
  destruct (workload_loop index num_stripes w initial) as [[st1 out1]|f]
    eqn:Hloop; [| discriminate].
  cbn [mbind outcome_bind].
  destruct (flush st1) as [[st2 report]|f] eqn:Hflush; [| discriminate].
  cbn [mbind outcome_bind]. intros [= <- <-].
  assert (echoes (out1 ++ report)
          = filter (λ line, is_header_line line = true) (w.*2)) as Hechoes.
  { rewrite echoes_app, (workload_loop_echoes _ _ _ _ _ _ Hloop).
    apply flush_report in Hflush as [-> _]. apply app_nil_r. }
  split; [exact Hechoes |].
  intros line. rewrite Hechoes, list_elem_of_filter, list_elem_of_fmap.
  unfold is_header_line. rewrite bool_decide_eq_true, find_npos. split.
  - intros [Hh ([a l] & -> & Hin)]. split; [exists a; exact Hin | exact Hh].
  - intros [[a Hin] Hh]. split; [exact Hh |]. exists (a, line). auto.
Qed.

Lemma headers_are_echoed_in_order_witness :
  ∃ st out,
    evaluate_workload scenario_index 3
      [(quiet 0, "selectivity=low"%string); (quiet 7, "point: 20"%string);
       (quiet 0, "# note"%string); (quiet 0, "selectivity=high"%string)]
    = Ok (st, out)
    ∧ echoes out = ["selectivity=low"; "selectivity=high"]%string.
Proof.
  eexists _, _. split; [vm_compute; reflexivity |].
  match goal with
  | |- echoes ?out = _ =>
      destruct (headers_are_echoed_in_order scenario_index 3
                  [(quiet 0, "selectivity=low"%string);
                   (quiet 7, "point: 20"%string);
                   (quiet 0, "# note"%string);
                   (quiet 0, "selectivity=high"%string)] initial out
                  ltac:(vm_compute; reflexivity)) as [-> _]
  end.
  vm_compute. reflexivity.
Defined.

(** X3.  Every average block count a run reports lies between zero and the
    number of stripes.  The workload is short enough for the counter and for
    the block-count total not to leave the range of [long]. *)
Theorem reported_average_within_stripes
    (index : IndexStructure) (num_stripes : nat)
    (w : list (ambient * string)) (st : state) (out : list event) :
  Z.of_nat (length w) ≤ LONG_MAX →
  Z.of_nat (length w) * Z.of_nat num_stripes ≤ LONG_MAX →
  evaluate_workload index num_stripes w = Ok (st, out) →
  ∀ q, q ∈ reported_blocks out →
       (0 <= q)%Q ∧ (q <= inject_Z (Z.of_nat num_stripes))%Q.
Proof.
  intros Hlen Hprod. unfold evaluate_workload.
  destruct (workload_loop index num_stripes w initial) as [[st1 out1]|f]
    eqn:Hloop; [| discriminate].
  cbn [mbind outcome_bind].
  destruct (flush st1) as [[st2 report]|f] eqn:Hflush; [| discriminate].
  cbn [mbind outcome_bind]. intros [= <- <-].
  destruct (workload_loop_blocks index num_stripes w 0 initial st1 out1
              initial_fresh ltac:(unfold blocks_bounded; cbn; lia)
              ltac:(lia) ltac:(lia) Hloop) as ([Hcount _] & Hb & Hout).
  intros q. rewrite reported_blocks_app, elem_of_app. intros [Hq | Hq].
  - exact (proj1 (Forall_forall _ _) Hout q Hq).
  - apply flush_report in Hflush as (_ & Hz & Hnz).
    destruct (decide (searchtime st1 = 0)) as [H | H].
    + destruct (Hz H) as [_ ->]. inversion Hq.
    + destruct (Hnz H) as [_ Hr]. rewrite Hr in Hq.
      apply list_elem_of_singleton in Hq as ->.
      apply average_in_range; [lia | exact Hb].
Qed.

Lemma reported_average_within_stripes_witness :
  ∃ st out,
    evaluate_workload full_index 3
      [(quiet 5, "range: 1,4"%string); (quiet 5, "range: 9,2"%string)]
    = Ok (st, out)
    ∧ ∀ q, q ∈ reported_blocks out → (0 <= q)%Q ∧ (q <= inject_Z 3)%Q.
Proof.
  eexists _, _. split; [vm_compute; reflexivity |].
  apply (reported_average_within_stripes full_index 3
           [(quiet 5, "range: 1,4"%string); (quiet 5, "range: 9,2"%string)]
           initial);
    [cbn; unfold LONG_MAX; lia | cbn; unfold LONG_MAX; lia
    | vm_compute; reflexivity].
Defined.

(** ** The lines of one group *)

Lemma is_query_line_query (line : string) :
  is_query_line line = true ↔ is_query line.
Proof.
  unfold is_query_line, is_query.
  destruct (classify line); split; intros H; try reflexivity; try discriminate;
    auto; destruct H; discriminate.
Qed.

Lemma is_header_line_header (line : string) :
  is_header_line line = true ↔ has_substring line "selectivity".
Proof.
  unfold is_header_line. rewrite bool_decide_eq_true. apply find_npos.
Qed.

Lemma is_query_line_not_header (line : string) :
  is_query_line line = true → is_header_line line = false.
Proof.
  intros Hq. destruct (is_header_line line) eqn:Hh; [| reflexivity].
  apply is_header_line_header, classify_Header in Hh.
  unfold is_query_line in Hq. rewrite Hh in Hq. discriminate.
Qed.

Lemma is_query_line_bounds (a : ambient) (line : string) :
  is_query_line line = true →
  ∃ startv endv, query_bounds a line = Ok (Some (startv, endv)).
Proof.
  unfold is_query_line.
  destruct (classify line) eqn:Hc; try discriminate; intros _.
  - apply classify_RangeRecord in Hc as [_ [rest ->]].
    rewrite query_bounds_range.
    destruct (parse_range a rest) as [startv endv]. eauto.
  - apply classify_PointRecord in Hc as (_ & _ & [rest ->]).
    rewrite query_bounds_point.
    destruct (parse_point a rest) as [startv endv]. eauto.
Qed.

Section GroupFacts.

Variable index : IndexStructure.
Variable num_stripes : nat.

Lemma process_line_ignored (a : ambient) (line : string) (st : state) :
  is_header_line line = false → is_query_line line = false →
  process_line index num_stripes a line st = Ok (st, []).
Proof.
  intros Hh Hq. rewrite process_line_classify.
  unfold is_query_line in Hq.
  destruct (classify line) eqn:Hc; try discriminate; [| reflexivity].
  apply classify_Header, is_header_line_header in Hc. congruence.
Qed.

(** Within a group the loop passes over every line that is no query. *)
Lemma workload_loop_filter (g : list (ambient * string)) (st : state) :
  Forall (λ q, is_header_line q.2 = false) g →
  workload_loop index num_stripes g st
  = workload_loop index num_stripes
      (filter (λ q, is_query_line q.2 = true) g) st.
Proof.
  intros Hg. revert st.
  induction Hg as [|[a line] g Hh _ IH]; intros st; [reflexivity |].
  cbn [snd] in Hh. rewrite filter_cons. cbn [snd].
  destruct (is_query_line line) eqn:Hq.
  - rewrite decide_True by reflexivity. cbn [workload_loop].
    destruct (process_line index num_stripes a line st) as [[st1 out1]|f];
      [| reflexivity].
    cbn [mbind outcome_bind]. rewrite IH. reflexivity.
  - rewrite decide_False by discriminate. cbn [workload_loop].
    rewrite process_line_ignored by assumption.
    cbn [mbind outcome_bind]. rewrite IH.
    destruct (workload_loop index num_stripes _ st) as [[st2 out2]|f];
      reflexivity.
Qed.

Lemma process_line_lookups (a : ambient) (line : string) (st st' : state)
      (out : list event) :
  is_query_line line = true →
  process_line index num_stripes a line st = Ok (st', out) →
  out = query_lookups index num_stripes (a, line).
Proof.
  intros Hq
    [(Hh & _) | [(_ & _ & s & e & res & Hb & Heval & _) | (_ & Hn & _)]]
      %process_line_cases.
  - rewrite (is_query_line_not_header _ Hq) in Hh. discriminate.
  - unfold query_lookups. cbn [fst snd]. rewrite Hb, Heval. reflexivity.
  - congruence.
Qed.

Lemma workload_loop_lookups (qs : list (ambient * string)) (st st' : state)
      (out : list event) :
  Forall (λ q, is_query_line q.2 = true) qs →
  workload_loop index num_stripes qs st = Ok (st', out) →
  out = concat (query_lookups index num_stripes <$> qs).
Proof.
  intros Hqs. revert st st' out.
  induction Hqs as [|[a line] qs Hq _ IH]; intros st st' out;
    cbn [workload_loop].
  - intros [= _ <-]. reflexivity.
  - destruct (process_line index num_stripes a line st) as [[st1 out1]|f]
      eqn:Hline; [| discriminate].
    cbn [mbind outcome_bind].
    destruct (workload_loop index num_stripes qs st1) as [[st2 out2]|f]
      eqn:Hloop; [| discriminate].
    cbn [mbind outcome_bind]. intros [= _ <-].
    cbn [fmap list_fmap concat]. cbn [snd] in Hq.
    rewrite <- (IH _ _ _ Hloop), <- (process_line_lookups a line _ _ _ Hq Hline).
    reflexivity.
Qed.

(** With one slot per stripe in every answer of the index, a step faults
    only when the loop over the range of a query does not leave. *)
Lemma range_loop_sized_fault (fuel : nat) (value endv : Z)
      (totalres : Bitmap64) (f : fault) :
  index_sized index → length totalres = num_stripes →
  range_loop index num_stripes fuel value endv totalres = Fault f →
  f = Diverges.
Proof.
  intros Hsized. revert value totalres.
  induction fuel as [|fuel IH]; intros value totalres Hlen;
    cbn [range_loop]; destruct (decide (value ≤ endv)); try discriminate.
  - intros [= <-]. reflexivity.
  - destruct (union_lookup_Ok index num_stripes value totalres Hsized Hlen)
      as (r1 & -> & Hlen1 & _).
    cbn [mbind outcome_bind].
    destruct (range_loop index num_stripes fuel _ endv r1) as [[r2 ls]|f2]
      eqn:Hloop; [discriminate |].
    cbn. intros [= <-]. eapply IH, Hloop. exact Hlen1.
Qed.

Lemma query_bounds_Ok (a : ambient) (line : string) :
  ∃ bounds, query_bounds a line = Ok bounds.
Proof.
  unfold query_bounds.
  destruct (decide (find line "range:" = Some 0%nat)) as [Hr | _].
  - apply find_zero in Hr as [rest ->].
    change 6%nat with (String.length "range:"). rewrite substr_append.
    cbn [mbind outcome_bind]. eauto.
  - destruct (decide (find line "point:" = Some 0%nat)) as [Hp | _]; [| eauto].
    apply find_zero in Hp as [rest ->].
    change 6%nat with (String.length "point:"). rewrite substr_append.
    cbn [mbind outcome_bind]. eauto.
Qed.

Lemma process_line_fault (a : ambient) (line : string) (st : state)
      (f : fault) :
  index_sized index →
  process_line index num_stripes a line st = Fault f →
  f = Diverges
  ∧ ∃ startv endv,
      query_bounds a line = Ok (Some (startv, endv))
      ∧ evaluate_query index num_stripes startv endv = Fault Diverges.
Proof.
  intros Hsized. unfold process_line.
  destruct (decide (find line "selectivity" ≠ None)) as [_ | _].
  - destruct (flush_total st) as (st' & report & -> & _). discriminate.
  - destruct (query_bounds_Ok a line) as [[[startv endv]|] Hb]; rewrite Hb;
      cbn [mbind outcome_bind]; [| discriminate].
    unfold run_query.
    destruct (evaluate_query index num_stripes startv endv) as [[res ls]|f1]
      eqn:Heval; [discriminate |].
    cbn. intros [= <-].
    assert (f1 = Diverges) as ->.
    { unfold evaluate_query in Heval.
      eapply range_loop_sized_fault, Heval; [exact Hsized |].
      apply length_make. }
    eauto.
Qed.

Lemma process_line_returns (a : ambient) (line : string) (st : state) :
  index_sized index → bounds_defined a line →
  ∃ st' out, process_line index num_stripes a line st = Ok (st', out).
Proof.
  intros Hsized Hdef.
  destruct (process_line index num_stripes a line st) as [[st' out]|f]
    eqn:Hline; [eauto |].
  exfalso.
  apply process_line_fault in Hline as (_ & s & e & Hb & Heval); [| auto].
  destruct (Hdef s e Hb) as [Hs He].
  destruct (evaluate_query_Ok index num_stripes s e Hsized Hs He)
    as (res & _ & Hok & _).
  congruence.
Qed.

Lemma workload_loop_fault (w : list (ambient * string)) (st : state)
      (f : fault) :
  index_sized index →
  workload_loop index num_stripes w st = Fault f →
  f = Diverges
  ∧ ∃ a line startv endv,
      (a, line) ∈ w
      ∧ query_bounds a line = Ok (Some (startv, endv))
      ∧ evaluate_query index num_stripes startv endv = Fault Diverges.
Proof.
  intros Hsized. revert st.
  induction w as [|[a line] w IH]; intros st; cbn [workload_loop];
    [discriminate |].
  destruct (process_line index num_stripes a line st) as [[st1 out1]|f1]
    eqn:Hline.
  - cbn [mbind outcome_bind].
    destruct (workload_loop index num_stripes w st1) as [[st2 out2]|f2]
      eqn:Hloop; [discriminate |].
    cbn. intros [= <-].
    destruct (IH _ Hloop) as (-> & a' & l' & s & e & Hin & Hb & Heval).
    split; [reflexivity |]. exists a', l', s, e.
    split; [right; exact Hin | auto].
  - cbn. intros [= <-].
    apply process_line_fault in Hline as (-> & s & e & Hb & Heval); [| auto].
    split; [reflexivity |]. exists a, line, s, e.
    split; [left | auto].
Qed.

Lemma workload_loop_returns (w : list (ambient * string)) (st : state) :
  index_sized index → Forall (λ q, bounds_defined q.1 q.2) w →
  ∃ st' out, workload_loop index num_stripes w st = Ok (st', out).
Proof.
  intros Hsized Hw. revert st.
  induction Hw as [|[a line] w Hdef _ IH]; intros st; cbn [workload_loop];
    [eauto |].
  destruct (process_line_returns a line st Hsized Hdef) as (st1 & out1 & ->).
  cbn [mbind outcome_bind].
  destruct (IH st1) as (st2 & out2 & ->). cbn. eauto.
Qed.

End GroupFacts.

(** The run over a group, a stretch of lines without a header line. *)
Lemma run_over_group
    (index : IndexStructure) (num_stripes : nat)
    (g : list (ambient * string)) (st : state) (out : list event) :
  Forall (λ q, ¬ has_substring q.2 "selectivity") g →
  Z.of_nat (length g) ≤ LONG_MAX →
  evaluate_workload index num_stripes g = Ok (st, out) →
  let qs := filter (λ q, is_query_line q.2 = true) g in
  st = initial
  ∧ out = concat (query_lookups index num_stripes <$> qs)
          ++ group_report index num_stripes qs.
Proof.
  intros Hg Hlen Hrun qs. revert Hrun. unfold evaluate_workload.
  rewrite workload_loop_filter.
  2:{ eapply Forall_impl; [exact Hg |]. cbn. intros [a line] Hn. cbn in *.
      destruct (is_header_line line) eqn:Hh; [| reflexivity].
      apply is_header_line_header in Hh. contradiction. }
  fold qs.
  assert (Forall (λ q, is_query_line q.2 = true) qs) as Hqs.
  { apply Forall_forall. intros q [Hq _]%list_elem_of_filter. exact Hq. }
  assert (Z.of_nat (length qs) ≤ LONG_MAX) as Hlenqs.
  { pose proof (length_filter (λ q : ambient * string,
                                 is_query_line q.2 = true) g) as Hle.
    fold qs in Hle. lia. }
  destruct (workload_loop index num_stripes qs initial) as [[st1 out1]|f]
    eqn:Hloop; [| discriminate].
  cbn [mbind outcome_bind].
  pose proof (workload_loop_lookups index num_stripes qs _ _ _ Hqs Hloop)
    as ->.
  assert (Forall (λ q, is_query q.2) qs) as Hqs2.
  { eapply Forall_impl; [exact Hqs |]. intros q. apply is_query_line_query. }
  destruct (group_totals index num_stripes qs initial st1 _ initial_in_long
              Hqs2 Hloop) as (Hcount & Hblk & Htime).
  cbn [searchtime blkcount timecount initial] in Hcount, Hblk, Htime.
  rewrite Z.add_0_l in Hcount, Hblk, Htime.
  rewrite wrap64_id in Hcount
    by (unfold in_long, LONG_MIN, LONG_MAX in *; lia).
  destruct qs as [|q qs'] eqn:Hqs'.
  - cbn in Hloop. injection Hloop as <-.
    rewrite flush_zero by reflexivity. cbn. intros [= <- <-]. auto.
  - rewrite flush_nonzero by (rewrite Hcount; cbn [length]; lia).
    cbn [mbind outcome_bind]. intros [= <- <-].
    split; [reflexivity |]. unfold group_report.
    rewrite Hcount, Hblk, Htime. reflexivity.
Qed.

(** X4.  The output of a group, a stretch of at most [LONG_MAX] lines
    without a header line, when the index answers with one slot per stripe
    and the bounds of every query record keep the loop counter a [long]:
    the run returns; lines that are no query records leave no trace; the
    lookups of the query records appear in the order of the records, for
    each record the values of its range in ascending order; one report
    follows them when the group has at least one query record, with the
    block counts and the durations of its queries averaged over their
    number, and none when it has no query record; the accumulators end
    reset.  The block count of a record is the population count of the
    accumulator its evaluation returns. *)
Theorem group_output
    (index : IndexStructure) (num_stripes : nat)
    (g : list (ambient * string)) :
  Forall (λ q, ¬ has_substring q.2 "selectivity") g →
  Z.of_nat (length g) ≤ LONG_MAX →
  index_sized index →
  Forall (λ q, bounds_defined q.1 q.2) g →
  let qs := filter (λ q, is_query_line q.2 = true) g in
  evaluate_workload index num_stripes g
  = Ok (initial,
        concat (query_lookups index num_stripes <$> qs)
        ++ group_report index num_stripes qs)
  ∧ Forall (λ q, ∃ startv endv totalres,
                query_bounds q.1 q.2 = Ok (Some (startv, endv))
                ∧ evaluate_query index num_stripes startv endv
                  = Ok (totalres, Lookup <$> range_values startv endv)
                ∧ query_lookups index num_stripes q
                  = Lookup <$> range_values startv endv
                ∧ query_blocks index num_stripes q
                  = Z.of_nat (GetOnesCount totalres)) qs.
Proof.
  intros Hg Hlen Hsized Hdef qs. split.
  - destruct (workload_loop_returns index num_stripes g initial Hsized Hdef)
      as (st1 & out1 & Hloop).
    destruct (flush_total st1) as (st2 & report & Hflush & _).
    assert (evaluate_workload index num_stripes g
            = Ok (st2, out1 ++ report)) as Hrun.
    { unfold evaluate_workload. rewrite Hloop. cbn [mbind outcome_bind].
      rewrite Hflush. reflexivity. }
    destruct (run_over_group index num_stripes g st2 (out1 ++ report)
                Hg Hlen Hrun) as [Hst Hout].
    rewrite Hrun, Hst, Hout. reflexivity.
  - apply Forall_forall. intros [a line] [Hq Hin]%list_elem_of_filter.
    cbn [fst snd] in *.
    pose proof (proj1 (Forall_forall _ _) Hdef (a, line) Hin) as Hbounds.
    cbn [fst snd] in Hbounds.
    destruct (is_query_line_bounds a line Hq) as (startv & endv & Hb).
    destruct (Hbounds startv endv Hb) as [Hs He].
    destruct (evaluate_query_Ok index num_stripes startv endv Hsized Hs He)
      as (totalres & _ & Heval & _).
    exists startv, endv, totalres.
    unfold query_lookups, query_blocks. cbn [fst snd].
    rewrite Hb, Heval. auto.
Qed.

Lemma group_output_witness :
  evaluate_workload scenario_index 3
    [(quiet 4, "point: 20"%string); (quiet 0, "# a comment"%string);
     (quiet 6, "range: 29,31"%string)]
  = Ok (initial,
        [Lookup 20; Lookup 29; Lookup 30; Lookup 31;
         AvgBlk (inject_Z 2 / inject_Z 2);
         AvgTime (inject_Z 10 / (nanos_per_second * inject_Z 2))]).
Proof.
  refine (proj1 (group_output scenario_index 3
            [(quiet 4, "point: 20"%string); (quiet 0, "# a comment"%string);
             (quiet 6, "range: 29,31"%string)] _ _ _ _)).
  - repeat constructor; cbn [snd]; rewrite <- find_npos; vm_compute; tauto.
  - cbn; unfold LONG_MAX; lia.
  - intros value n. cbn. rewrite length_fmap, length_seq. reflexivity.
  - assert (∀ a line lo hi,
              query_bounds a line = Ok (Some (lo, hi)) →
              in_long lo → hi < LONG_MAX → bounds_defined a line) as Hdef.
    { intros a line lo hi Hb Hlo Hhi startv endv. rewrite Hb.
      intros [= <- <-]. auto. }
    apply Forall_cons. split.
    { cbn [fst snd]. apply (Hdef _ _ 20 20); [reflexivity | |];
        unfold in_long, LONG_MIN, LONG_MAX; lia. }
    apply Forall_cons. split.
    { intros startv endv H. vm_compute in H. discriminate. }
    apply Forall_cons. split; [| apply Forall_nil_2].
    cbn [fst snd]. apply (Hdef _ _ 29 31); [reflexivity | |];
      unfold in_long, LONG_MIN, LONG_MAX; lia.
Defined.

(** X5.  What a run can end in.  When the index answers with one slot per
    stripe, a run that does not return fails for one reason only: the loop
    over the range of some query record of the workload does not leave; no
    run ends in an out-of-range [substr], an out-of-range [Set] or a zero
    divisor.  When the bounds of every query record keep the loop counter a
    [long], the run returns. *)
Theorem evaluation_fails_only_by_divergence
    (index : IndexStructure) (num_stripes : nat)
    (w : list (ambient * string)) :
  index_sized index →
  (∀ f, evaluate_workload index num_stripes w = Fault f →
        f = Diverges
        ∧ ∃ a line startv endv,
            (a, line) ∈ w
            ∧ query_bounds a line = Ok (Some (startv, endv))
            ∧ evaluate_query index num_stripes startv endv = Fault Diverges)
  ∧ (Forall (λ q, bounds_defined q.1 q.2) w →
     ∃ st out, evaluate_workload index num_stripes w = Ok (st, out)).
Proof.
  intros Hsized. unfold evaluate_workload. split.
  - intros f.
    destruct (workload_loop index num_stripes w initial) as [[st1 out1]|f1]
      eqn:Hloop.
    + cbn [mbind outcome_bind].
      destruct (flush_total st1) as (st2 & report & -> & _). discriminate.
    + cbn. intros [= <-]. eapply workload_loop_fault; eauto.
  - intros Hw.
    destruct (workload_loop_returns index num_stripes w initial Hsized Hw)
      as (st1 & out1 & ->).
    cbn [mbind outcome_bind].
    destruct (flush_total st1) as (st2 & report & -> & _). cbn. eauto.
Qed.

Lemma evaluation_fails_only_by_divergence_witness :
  ∃ st out,
    evaluate_workload full_index 2
      [(quiet 3, "range: -2,2"%string); (quiet 0, "selectivity=1"%string);
       (quiet 3, "point: 7"%string)]
    = Ok (st, out).
Proof.
  apply (evaluation_fails_only_by_divergence full_index 2
           [(quiet 3, "range: -2,2"%string); (quiet 0, "selectivity=1"%string);
            (quiet 3, "point: 7"%string)]).
  - intros value n. apply length_replicate.
  - assert (∀ line lo hi,
              query_bounds (quiet 3) line = Ok (Some (lo, hi)) →
              in_long lo → hi < LONG_MAX →
              bounds_defined (quiet 3) line) as Hdef.
    { intros line lo hi Hb Hlo Hhi startv endv. rewrite Hb.
      intros [= <- <-]. auto. }
    apply Forall_cons. split.
    { cbn [fst snd]. apply (Hdef _ (-2) 2); [reflexivity | |];
        unfold in_long, LONG_MIN, LONG_MAX; lia. }
    apply Forall_cons. split.
    { intros startv endv H. vm_compute in H. discriminate. }
    apply Forall_cons. split; [| apply Forall_nil_2].
    cbn [fst snd]. apply (Hdef _ 7 7); [reflexivity | |];
      unfold in_long, LONG_MIN, LONG_MAX; lia.
Defined.

(** ** What the extraction chain accepts *)

Lemma isspace_not_digit (c : ascii) : isspace c = true → digit_of c = None.
Proof.
  destruct c as [[] [] [] [] [] [] [] []]; vm_compute; congruence.
Qed.

Lemma skipws_spaces (ws : string) (c : ascii) (s : string) :
  all_chars isspace ws = true → isspace c = false →
  skipws (ws +:+ String c s) = String c s.
Proof.
  intros Hws Hc. induction ws as [|w ws IH].
  - rewrite append_empty. cbn [skipws]. rewrite Hc. reflexivity.
  - cbn [all_chars] in Hws. apply andb_true_iff in Hws as [Hw Hws].
    rewrite append_String. cbn [skipws]. rewrite Hw. apply IH, Hws.
Qed.

Lemma skipws_blank (ws : string) :
  all_chars isspace ws = true → skipws ws = EmptyString.
Proof.
  induction ws as [|w ws IH]; [reflexivity |]. cbn [all_chars skipws].
  intros [-> Hws]%andb_true_iff. apply IH, Hws.
Qed.

(** Extraction from a blank text is refused and stores nothing. *)
Lemma extract_long_blank (ws : string) :
  all_chars isspace ws = true →
  extract_long (iss_of ws)
  = ({| buf := EmptyString; failbit := true; eofbit := true |}, None).
Proof.
  intros Hws. unfold extract_long.
  cbn [good iss_of failbit eofbit buf negb andb].
  rewrite (skipws_blank ws Hws). reflexivity.
Qed.

(** The chain [iss >> startv >> comma >> endv] over a numeral, optional
    white space, one character and a numeral. *)
Lemma extract_range_separator (s1 ws s2 : string) (c : ascii) (v1 v2 : Z) :
  reads_as s1 v1 → all_chars isspace ws = true → isspace c = false →
  (ws = EmptyString → digit_of c = None) → reads_as s2 v2 →
  extract_range (s1 +:+ ws +:+ String c s2)
  = ({| buf := EmptyString; failbit := false; eofbit := true |},
     Some v1, Some v2).
Proof.
  intros H1 Hws Hc Hdigit H2. unfold extract_range.
  destruct ws as [|w ws].
  - rewrite append_empty, (reads_as_append s1 v1 c s2 H1 (Hdigit eq_refl)).
    unfold extract_char. cbn [good failbit eofbit negb andb buf skipws].
    rewrite Hc.
    change {| buf := s2; failbit := false; eofbit := false |} with (iss_of s2).
    rewrite H2. reflexivity.
  - rewrite append_String.
    cbn [all_chars] in Hws. apply andb_true_iff in Hws as [Hw Hws].
    rewrite (reads_as_append s1 v1 w _ H1 (isspace_not_digit w Hw)).
    unfold extract_char. cbn [good failbit eofbit negb andb buf].
    rewrite <- append_String, skipws_spaces
      by (cbn [all_chars]; rewrite ?Hw, ?Hws; auto).
    change {| buf := s2; failbit := false; eofbit := false |} with (iss_of s2).
    rewrite H2. reflexivity.
Qed.

(** [s1], a character that ends the numeral, and anything after it: the
    chain stores both bounds as soon as the second numeral has been read. *)
Lemma extract_range_trailing (s1 s2 u : string) (sep c : ascii) (v1 v2 : Z) :
  reads_as s1 v1 → isspace sep = false → digit_of sep = None →
  reads_as s2 v2 → digit_of c = None →
  ∃ iss, extract_range (s1 +:+ String sep (s2 +:+ String c u))
         = (iss, Some v1, Some v2).
Proof.
  intros H1 Hsep Hdigit H2 Hc. unfold extract_range.
  rewrite (reads_as_append s1 v1 sep _ H1 Hdigit).
  unfold extract_char. cbn [good failbit eofbit negb andb buf skipws].
  rewrite Hsep.
  change {| buf := s2 +:+ String c u; failbit := false; eofbit := false |}
    with (iss_of (s2 +:+ String c u)).
  rewrite (reads_as_append s2 v2 c u H2 Hc). eauto.
Qed.

(** X6.  The separator of a range record is not checked: after the first
    numeral and optional white space, any one character that is not white
    space is taken for it (a character other than a digit when no white
    space precedes it), and the two numerals are the bounds.  So
    [range:5;9] and [range: 5 x 9] are the range from 5 to 9 just as
    [range:5,9] is. *)
Theorem range_separator_is_not_checked
    (index : IndexStructure) (num_stripes : nat) (a : ambient) (st : state)
    (s1 ws s2 : string) (c : ascii) (v1 v2 : Z) :
  reads_as s1 v1 → all_chars isspace ws = true → isspace c = false →
  (ws = EmptyString → digit_of c = None) → reads_as s2 v2 →
  let line := "range:" +:+ s1 +:+ ws +:+ String c s2 in
  query_bounds a line = Ok (Some (v1, v2))
  ∧ (¬ has_substring line "selectivity" →
     process_line index num_stripes a line st
     = run_query index num_stripes a v1 v2 st).
Proof.
  intros H1 Hws Hc Hdigit H2 line.
  assert (query_bounds a line = Ok (Some (v1, v2))) as Hb.
  { unfold line. rewrite query_bounds_range. unfold parse_range.
    rewrite (extract_range_separator s1 ws s2 c v1 v2) by assumption.
    reflexivity. }
  split; [exact Hb |]. intros Hno.
  rewrite process_line_query, Hb by exact Hno. reflexivity.
Qed.

Lemma range_separator_is_not_checked_witness :
  query_bounds (quiet 0) ("range:" +:+ decimal 5 +:+ " " +:+ String ";" (decimal 9))
  = Ok (Some (5, 9)).
Proof.
  apply (range_separator_is_not_checked scenario_index 3 (quiet 0) initial
           (decimal 5) " " (decimal 9) ";" 5 9);
    [apply decimal_reads_as; unfold in_long, LONG_MIN, LONG_MAX; lia
    | reflexivity | reflexivity | discriminate
    | apply decimal_reads_as; unfold in_long, LONG_MIN, LONG_MAX; lia].
Defined.

(** X7.  A bound that the record does not give is not stored.  For a
    record whose remainder is blank the extraction is refused at the end of
    the input and neither bound is written; for a range record that ends
    after its first numeral the separator and the end bound are refused.
    The query is evaluated all the same, for whatever the variables [startv]
    and [endv] hold. *)
Theorem missing_bounds_are_not_stored
    (a : ambient) (ws s : string) (v : Z) :
  all_chars isspace ws = true → reads_as s v →
  query_bounds a ("point:" +:+ ws)
  = Ok (Some (indet_startv a, indet_startv a))
  ∧ query_bounds a ("range:" +:+ ws)
    = Ok (Some (indet_startv a, indet_endv a))
  ∧ query_bounds a ("range:" +:+ s) = Ok (Some (v, indet_endv a)).
Proof.
  intros Hws Hs.
  rewrite query_bounds_point, !query_bounds_range.
  unfold parse_point, parse_range, extract_range.
  rewrite (extract_long_blank ws Hws), Hs. auto.
Qed.

Lemma missing_bounds_are_not_stored_witness :
  query_bounds {| indet_startv := 7; indet_endv := 8; searchduration := 0 |}
               ("range:" +:+ decimal 5)
  = Ok (Some (5, 8)).
Proof.
  apply (missing_bounds_are_not_stored
           {| indet_startv := 7; indet_endv := 8; searchduration := 0 |}
           " " (decimal 5) 5);
    [reflexivity
    | apply decimal_reads_as; unfold in_long, LONG_MIN, LONG_MAX; lia].
Defined.

(** X8.  What follows the numerals of a query record is not read: a point
    record is the point of its first numeral whatever comes after the
    character that ends it, and a range record is the range of its two
    numerals whatever comes after the second.  So [point:5,9] is the point
    5, not a range. *)
Theorem text_after_the_bounds_is_ignored
    (a : ambient) (s1 s2 u : string) (sep c : ascii) (v1 v2 : Z) :
  reads_as s1 v1 → reads_as s2 v2 →
  isspace sep = false → digit_of sep = None → digit_of c = None →
  query_bounds a ("point:" +:+ s1 +:+ String c u) = Ok (Some (v1, v1))
  ∧ query_bounds a ("range:" +:+ s1 +:+ String sep (s2 +:+ String c u))
    = Ok (Some (v1, v2)).
Proof.
  intros H1 H2 Hsep Hdigit Hc. split.
  - rewrite query_bounds_point. unfold parse_point.
    rewrite (reads_as_append s1 v1 c u H1 Hc). reflexivity.
  - rewrite query_bounds_range. unfold parse_range.
    destruct (extract_range_trailing s1 s2 u sep c v1 v2) as [iss ->];
      auto.
Qed.

Lemma text_after_the_bounds_is_ignored_witness :
  query_bounds (quiet 0) ("point:" +:+ decimal 5 +:+ String "," "9")
  = Ok (Some (5, 5)).
Proof.
  apply (text_after_the_bounds_is_ignored (quiet 0) (decimal 5) (decimal 9)
           "9" "," "," 5 9);
    try reflexivity;
    apply decimal_reads_as; unfold in_long, LONG_MIN, LONG_MAX; lia.
Defined.

(** ** The sorting step and the index build of [main] *)

Lemma IsValidSorting_names (sorting : string) :
  IsValidSorting sorting = true
  ↔ sorting = kNoSorting ∨ sorting = kByCardinalitySorting
    ∨ sorting = kRandomSorting.
Proof.
  unfold IsValidSorting. rewrite bool_decide_eq_true.
  rewrite !elem_of_union, !elem_of_singleton. tauto.
Qed.

Section BuildFacts.

Variable byte_size : IndexStructure → Z.

Lemma build_one_snoc (column : TableColumn) (n : Z) (st : build_state)
      (factories : list IndexStructureFactory) (factory : IndexStructureFactory) :
  foldl (build_one byte_size column n) st (factories ++ [factory])
  = build_one byte_size column n
      (foldl (build_one byte_size column n) st factories) factory.
Proof. rewrite foldl_app. reflexivity. Qed.

Lemma build_one_prints (column : TableColumn) (n : Z) (st : build_state)
      (factories : list IndexStructureFactory) :
  printed_byte_sizes (foldl (build_one byte_size column n) st factories)
  = printed_byte_sizes st
    ++ ((λ factory, byte_size (Create factory (table_column column) n))
          <$> factories).
Proof.
  revert st. induction factories as [|factory factories IH]; intros st.
  - cbn. rewrite app_nil_r. reflexivity.
  - cbn [foldl fmap list_fmap]. rewrite IH. cbn [build_one printed_byte_sizes].
    rewrite <- app_assoc. reflexivity.
Qed.

Lemma build_indexes_columns (factories : list IndexStructureFactory)
      (columns : list TableColumn) :
  build_indexes byte_size factories columns
  = foldl (build_column byte_size factories) not_built columns.
Proof. reflexivity. Qed.

Lemma build_column_prints (factories : list IndexStructureFactory)
      (st : build_state) (column : TableColumn) :
  printed_byte_sizes (build_column byte_size factories st column)
  = printed_byte_sizes st
    ++ ((λ factory, byte_size (Create factory (table_column column) 50000))
          <$> factories).
Proof. unfold build_column, stripe_sizes. cbn [foldl]. apply build_one_prints. Qed.

Lemma build_columns_prints (factories : list IndexStructureFactory)
      (st : build_state) (columns : list TableColumn) :
  printed_byte_sizes (foldl (build_column byte_size factories) st columns)
  = printed_byte_sizes st
    ++ (column ← columns;
        (λ factory, byte_size (Create factory (table_column column) 50000))
          <$> factories).
Proof.
  revert st. induction columns as [|column columns IH]; intros st.
  - cbn. rewrite app_nil_r. reflexivity.
  - cbn [foldl]. rewrite IH, build_column_prints, <- app_assoc. reflexivity.
Qed.

Lemma build_without_factories (st : build_state) (columns : list TableColumn) :
  foldl (build_column byte_size []) st columns = st.
Proof. induction columns as [|column columns IH]; [reflexivity | exact IH]. Qed.

Lemma build_indexes_last (factories : list IndexStructureFactory)
      (factory : IndexStructureFactory) (columns : list TableColumn)
      (column : TableColumn) :
  build_indexes byte_size (factories ++ [factory]) (columns ++ [column])
  = build_one byte_size column 50000
      (foldl (build_one byte_size column 50000)
             (foldl (build_column byte_size (factories ++ [factory]))
                    not_built columns)
             factories)
      factory.
Proof.
  rewrite build_indexes_columns, foldl_app. cbn [foldl].
  unfold build_column at 1, stripe_sizes. cbn [foldl].
  apply build_one_snoc.
Qed.

End BuildFacts.

(** The quotient of a [size_t] row count by the stripe size fits a [long]. *)
Lemma stripes_of_rows (rows : Z) :
  0 ≤ rows ≤ SIZE_MAX → wrap64 (wrap_size_t rows / 50000) = rows / 50000.
Proof.
  intros Hrows. unfold wrap_size_t. unfold SIZE_MAX in Hrows.
  rewrite (Z.mod_small rows) by lia.
  apply wrap64_id. unfold in_long, LONG_MIN, LONG_MAX.
  pose proof (Z.div_pos rows 50000 ltac:(lia) ltac:(lia)).
  pose proof (Z.div_le_upper_bound rows 50000 (2 ^ 63 - 1)
                ltac:(lia) ltac:(lia)).
  lia.
Qed.

(** X9.  The index the workload is evaluated against: after the build
    loops, [index] is the one the last factory built over the last column
    of the table, with 50000 rows per stripe, and [num_stripes] is the
    number of rows of that column divided by 50000, rounded down: the rows
    of a partial last stripe count for no stripe, and a column of fewer than
    50000 rows has zero stripes.  An index is built, and its size printed,
    for every column and every factory, in the order of the loops; all but
    the last are dropped.  The row count is a [size_t]. *)
Theorem build_keeps_the_last_index
    (byte_size : IndexStructure → Z)
    (factories : list IndexStructureFactory) (factory : IndexStructureFactory)
    (columns : list TableColumn) (column : TableColumn) :
  0 ≤ num_rows column ≤ SIZE_MAX →
  let built := build_indexes byte_size (factories ++ [factory])
                             (columns ++ [column]) in
  built_index built = Some (Create factory (table_column column) 50000)
  ∧ built_num_stripes built = num_rows column / 50000
  ∧ (0 ≤ built_num_stripes built
     ∧ built_num_stripes built * 50000 ≤ num_rows column
       < (built_num_stripes built + 1) * 50000)
  ∧ (num_rows column < 50000 → built_num_stripes built = 0)
  ∧ printed_byte_sizes built
    = (c ← columns ++ [column];
       (λ f, byte_size (Create f (table_column c) 50000))
         <$> factories ++ [factory]).
Proof.
  intros Hrows built.
  assert (built_num_stripes built = num_rows column / 50000) as Hstripes.
  { unfold built. rewrite build_indexes_last. cbn [build_one built_num_stripes].
    apply stripes_of_rows, Hrows. }
  split; [unfold built; rewrite build_indexes_last; reflexivity |].
  split; [exact Hstripes |]. rewrite Hstripes.
  split.
  { pose proof (Z.div_pos (num_rows column) 50000 ltac:(lia) ltac:(lia)).
    pose proof (Z.mul_div_le (num_rows column) 50000 ltac:(lia)).
    pose proof (Z.mul_succ_div_gt (num_rows column) 50000 ltac:(lia)).
    lia. }
  split; [intros Hfew; apply Z.div_small; lia |].
  unfold built. rewrite build_indexes_columns, build_columns_prints.
  reflexivity.
Qed.

Lemma build_keeps_the_last_index_witness :
  built_num_stripes
    (build_indexes (λ _, 64)
       ([{| Create := λ _ _, scenario_index |}]
        ++ [{| Create := λ _ _, full_index |}])
       ([{| table_column := column_of [10; 20]; num_rows := 120000 |}]
        ++ [{| table_column := column_of [30]; num_rows := 149999 |}]))
  = 149999 / 50000.
Proof.
  apply (build_keeps_the_last_index (λ _, 64)
           [{| Create := λ _ _, scenario_index |}]
           {| Create := λ _ _, full_index |}
           [{| table_column := column_of [10; 20]; num_rows := 120000 |}]
           {| table_column := column_of [30]; num_rows := 149999 |}).
  cbn [num_rows]. unfold SIZE_MAX. lia.
Defined.

(** X10.  Without a column, or without a factory, the build loops leave
    [index] null and [num_stripes] at zero, and print nothing. *)
Theorem build_without_index
    (byte_size : IndexStructure → Z)
    (factories : list IndexStructureFactory) (columns : list TableColumn) :
  columns = [] ∨ factories = [] →
  build_indexes byte_size factories columns = not_built.
Proof.
  intros [-> | ->]; [reflexivity |].
  rewrite build_indexes_columns. apply build_without_factories.
Qed.

Lemma build_without_index_witness :
  build_indexes (λ _, 64) []
    [{| table_column := column_of [10; 20]; num_rows := 120000 |}]
  = not_built.
Proof.
  apply (build_without_index (λ _, 64) []
           [{| table_column := column_of [10; 20]; num_rows := 120000 |}]).
  right. reflexivity.
Defined.

(** X11.  The sorting step: the program exits with a failure exactly when
    the [--sorting] flag is none of [NONE], [BY_CARDINALITY] and [RANDOM]
    (the names are matched exactly, with their case); the table is left
    as it is, with nothing written, exactly when the flag is [NONE]; the
    other two names reorder the table by the method of their name; at most
    one line is written to the error stream. *)
Theorem sorting_step
    (Table : Type) (SortWithCardinalityKey Shuffle : Table → Table)
    (sorting : string) (table : Table) :
  let step := apply_sorting Table SortWithCardinalityKey Shuffle in
  ((step sorting table).1 = ExitFailure
   ↔ sorting ∉ ["NONE"; "BY_CARDINALITY"; "RANDOM"]%string)
  ∧ (step sorting table = (Continue table, []) ↔ sorting = "NONE"%string)
  ∧ (step "BY_CARDINALITY"%string table).1
    = Continue (SortWithCardinalityKey table)
  ∧ (step "RANDOM"%string table).1 = Continue (Shuffle table)
  ∧ (length (step sorting table).2 ≤ 1)%nat.
Proof.
  intros step.
  assert (sorting ∈ ["NONE"; "BY_CARDINALITY"; "RANDOM"]%string
          ↔ IsValidSorting sorting = true) as Hvalid.
  { rewrite IsValidSorting_names, !elem_of_cons, elem_of_nil.
    unfold kNoSorting, kByCardinalitySorting, kRandomSorting. tauto. }
  split; [| split; [| split; [reflexivity | split; [reflexivity |]]]].
  - rewrite Hvalid. unfold step, apply_sorting.
    destruct (IsValidSorting sorting); cbn [negb].
    + split; [| congruence]. repeat destruct (decide _); discriminate.
    + split; [discriminate | reflexivity].
  - unfold step, apply_sorting. split.
    + destruct (IsValidSorting sorting) eqn:Hv; cbn [negb]; [| discriminate].
      repeat destruct (decide _); try discriminate. intros _.
      apply IsValidSorting_names in Hv as [Hv | [Hv | Hv]];
        [exact Hv | contradiction | contradiction].
    + intros ->. reflexivity.
  - unfold step, apply_sorting.
    destruct (negb (IsValidSorting sorting)); [cbn; lia |].
    repeat destruct (decide _); cbn; lia.
Qed.

(** ** The negative sampler and the draws of the engine *)

Section DrawFacts.

Variable E : Engine.
Variable column : Column.

Lemma draws_app (j k : nat) (gen : Gen E) :
  draws E (j + k) gen = draws E j gen ++ draws E k (gen_after E j gen).
Proof.
  revert gen. induction j as [|j IH]; intros gen; [reflexivity |].
  cbn [Nat.add draws gen_after].
  destruct (uniform_int E LONG_MIN LONG_MAX gen) as [value gen'].
  cbn [snd]. rewrite IH. reflexivity.
Qed.

Lemma length_draws (k : nat) (gen : Gen E) : length (draws E k gen) = k.
Proof.
  revert gen. induction k as [|k IH]; intros gen; [reflexivity |].
  cbn [draws]. destruct (uniform_int E LONG_MIN LONG_MAX gen) as [value gen'].
  cbn [length]. rewrite IH. reflexivity.
Qed.

(** The inner loop stops at the first value outside the column: of the
    value it starts from and the draws it makes, the last is the only one
    outside the column. *)
Lemma redraw_draws (fuel : nat) (value : Z) (gen : Gen E)
      (value' : Z) (gen' : Gen E) :
  redraw E column fuel value gen = Ok (value', gen') →
  ∃ j, gen' = gen_after E j gen
       ∧ filter (λ v, Contains column v = false) (value :: draws E j gen)
         = [value']
       ∧ last (value :: draws E j gen) = Some value'.
Proof.
  revert value gen. induction fuel as [|fuel IH]; intros value gen;
    cbn [redraw]; destruct (Contains column value) eqn:Hc; try discriminate.
  - intros [= <- <-]. exists 0%nat. cbn [draws gen_after].
    rewrite filter_cons, decide_True by exact Hc. auto.
  - destruct (uniform_int E LONG_MIN LONG_MAX gen) as [v1 g1] eqn:Hdraw.
    intros (j & Hgen & Hfilter & Hlast)%IH. exists (S j).
    cbn [draws gen_after]. rewrite Hdraw. cbn [snd].
    split; [exact Hgen |].
    rewrite filter_cons, decide_False by congruence.
    split; [exact Hfilter |]. rewrite last_cons, Hlast. reflexivity.
  - intros [= <- <-]. exists 0%nat. cbn [draws gen_after].
    rewrite filter_cons, decide_True by exact Hc. auto.
Qed.

(** When every draw is in the column the inner loop does not leave. *)
Lemma redraw_contained (fuel : nat) (value : Z) (gen : Gen E) :
  (∀ g, Contains column (uniform_int E LONG_MIN LONG_MAX g).1 = true) →
  Contains column value = true →
  redraw E column fuel value gen = Fault Diverges.
Proof.
  intros Hall. revert value gen.
  induction fuel as [|fuel IH]; intros value gen Hc; cbn [redraw]; rewrite Hc;
    [reflexivity |].
  pose proof (Hall gen) as Hnext.
  destruct (uniform_int E LONG_MIN LONG_MAX gen) as [v1 g1]. apply IH, Hnext.
Qed.

End DrawFacts.

(** X12.  The values the filling loop of the negative sampler keeps are the
    draws of the engine that are outside the column, all of them and in the
    order drawn: the batch of [n] values is what remains of the first [k]
    draws from the seeded engine, for some [k] of at least [n], once the
    values the column contains are struck out; and the last draw made is
    the last value of the batch. *)
Theorem negative_batch_is_the_absent_draws
    (E : Engine) (column : Column) (fuel n : nat) (gen : Gen E)
    (values : list Z) :
  fill_negative E column fuel n gen = Ok values →
  ∃ k, (n ≤ k)%nat
       ∧ values = filter (λ v, Contains column v = false) (draws E k gen)
       ∧ (n = 0%nat → k = 0%nat)
       ∧ last (draws E k gen) = last values.
Proof.
  revert gen values. induction n as [|n IH]; intros gen values;
    cbn [fill_negative].
  - intros [= <-]. exists 0%nat. cbn [draws]. auto.
  - destruct (uniform_int E LONG_MIN LONG_MAX gen) as [value gen1] eqn:Hdraw.
    destruct (redraw E column fuel value gen1) as [[value' gen2]|f] eqn:Hre;
      [| discriminate].
    cbn [mbind outcome_bind].
    destruct (fill_negative E column fuel n gen2) as [vs|f] eqn:Hfill;
      [| discriminate].
    cbn [mbind outcome_bind]. intros [= <-].
    destruct (redraw_draws E column _ _ _ _ _ Hre)
      as (j & -> & Hfilter & Hlast).
    destruct (IH _ _ Hfill) as (k & Hk & -> & Hzero & Hlastk).
    exists (S (j + k)).
    assert (draws E (S (j + k)) gen
            = (value :: draws E j gen1)
              ++ draws E k (gen_after E j gen1)) as ->.
    { cbn [draws]. rewrite Hdraw, draws_app. reflexivity. }
    split; [lia |]. rewrite filter_app, Hfilter.
    split; [reflexivity |]. split; [discriminate |].
    rewrite !last_app, Hlastk, Hlast, last_cons. reflexivity.
Qed.

Lemma negative_batch_is_the_absent_draws_witness :
  ∃ k, (3 ≤ k)%nat
       ∧ [44; 46; 47]
         = filter (λ v, Contains (column_of [42; 43; 45]) v = false)
                  (draws counting_engine k (seed counting_engine 42)).
Proof.
  destruct (negative_batch_is_the_absent_draws counting_engine
              (column_of [42; 43; 45]) 2 3 (seed counting_engine 42)
              [44; 46; 47] ltac:(vm_compute; reflexivity))
    as (k & Hk & Hvalues & _).
  exists k. split; [exact Hk | exact Hvalues].
Defined.

(** X13.  When every value the engine draws is in the column, the negative
    sampler never gets its first value: the inner loop of the first round
    does not leave, whatever the number of rounds allowed, and no lookup is
    issued. *)
Theorem negative_sampler_needs_an_absent_draw
    (E : Engine) (column : Column) (fuel passes : nat) :
  (∀ gen, Contains column (uniform_int E LONG_MIN LONG_MAX gen).1 = true) →
  BM_NegativeLookup E column fuel passes = Fault Diverges.
Proof.
  intros Hall. unfold BM_NegativeLookup.
  destruct kLookupBatchSize_pos as [n ->]. cbn [fill_negative].
  pose proof (Hall (seed E 42)) as Hfirst.
  destruct (uniform_int E LONG_MIN LONG_MAX (seed E 42)) as [value gen1].
  rewrite (redraw_contained E column fuel value gen1 Hall Hfirst).
  reflexivity.
Qed.

Lemma negative_sampler_needs_an_absent_draw_witness :
  BM_NegativeLookup counting_engine
    {| distinct_values := []; Contains := λ _, true |} 1000 1
  = Fault Diverges.
Proof.
  apply (negative_sampler_needs_an_absent_draw counting_engine
           {| distinct_values := []; Contains := λ _, true |} 1000 1).
  intros gen. reflexivity.
Defined.

(** ** The order of the queries of a group *)

Lemma Zsum_Permutation (l1 l2 : list Z) : l1 ≡ₚ l2 → Zsum l1 = Zsum l2.
Proof.
  unfold Zsum. induction 1 as [| x l1 l2 _ IH | x y l | l1 l2 l3 _ IH1 _ IH2];
    cbn [foldr]; lia.
Qed.

Lemma reports_lookups (vs : list Z) : reports (Lookup <$> vs) = [].
Proof.
  unfold reports. induction vs as [|v vs IH]; [reflexivity |].
  cbn [fmap list_fmap]. rewrite filter_cons, decide_False by discriminate.
  exact IH.
Qed.

Lemma looked_up_app (out1 out2 : list event) :
  looked_up (out1 ++ out2) = looked_up out1 ++ looked_up out2.
Proof. apply omap_app. Qed.

Lemma stores_bounds_query_bounds (a a' : ambient) (line : string) :
  stores_bounds line = true → query_bounds a line = query_bounds a' line.
Proof.
  unfold stores_bounds, query_bounds.
  destruct (decide (find line "range:" = Some 0%nat)).
  - destruct (substr 6 line) as [rest|f]; [| discriminate].
    cbn [mbind outcome_bind]. unfold parse_range.
    destruct (extract_range rest) as [[iss [startv|]] [endv|]];
      try discriminate. reflexivity.
  - destruct (decide (find line "point:" = Some 0%nat)); [| reflexivity].
    destruct (substr 6 line) as [rest|f]; [| discriminate].
    cbn [mbind outcome_bind]. unfold parse_point.
    destruct (extract_long (iss_of rest)) as [iss [startv|]];
      try discriminate. reflexivity.
Qed.

Lemma filter_query_lines (w : list (ambient * string)) :
  (filter (λ q, is_query_line q.2 = true) w).*2
  = filter (λ line, is_query_line line = true) (w.*2).
Proof.
  induction w as [|[a line] w IH]; [reflexivity |].
  cbn [fmap list_fmap snd]. rewrite !filter_cons. cbn [snd].
  destruct (decide (is_query_line line = true));
    cbn [fmap list_fmap snd]; rewrite <- IH; reflexivity.
Qed.

Section OrderFacts.

Variable index : IndexStructure.
Variable num_stripes : nat.

Lemma query_lookups_trace (q : ambient * string) :
  query_lookups index num_stripes q
  = Lookup <$> looked_up (query_lookups index num_stripes q).
Proof.
  unfold query_lookups.
  destruct (query_bounds q.1 q.2) as [[[startv endv]|]|f]; try reflexivity.
  destruct (evaluate_query index num_stripes startv endv) as [[res out]|f]
    eqn:Heval; [| reflexivity].
  eapply evaluate_query_trace, Heval.
Qed.

Lemma reports_query_lookups (qs : list (ambient * string)) :
  reports (concat (query_lookups index num_stripes <$> qs)) = [].
Proof.
  induction qs as [|q qs IH]; [reflexivity |].
  cbn [fmap list_fmap concat]. unfold reports in *.
  rewrite filter_app, IH, app_nil_r, query_lookups_trace.
  apply reports_lookups.
Qed.

Lemma reports_group_report (qs : list (ambient * string)) :
  reports (group_report index num_stripes qs)
  = group_report index num_stripes qs
  ∧ looked_up (group_report index num_stripes qs) = [].
Proof. destruct qs; split; reflexivity. Qed.

Lemma group_report_Permutation (qs qs' : list (ambient * string)) :
  qs ≡ₚ qs' →
  group_report index num_stripes qs = group_report index num_stripes qs'.
Proof.
  intros Hperm. unfold group_report.
  destruct qs as [|q qs], qs' as [|q' qs'].
  - reflexivity.
  - apply Permutation_nil_l in Hperm. discriminate.
  - apply Permutation_nil_r in Hperm. discriminate.
  - rewrite (Permutation_length Hperm).
    rewrite (Zsum_Permutation (query_blocks index num_stripes <$> q :: qs)
               (query_blocks index num_stripes <$> q' :: qs'))
      by (apply fmap_Permutation, Hperm).
    rewrite (Zsum_Permutation ((λ q, searchduration q.1) <$> q :: qs)
               ((λ q, searchduration q.1) <$> q' :: qs'))
      by (apply fmap_Permutation, Hperm).
    reflexivity.
Qed.

(** A step on a line that is no header returns just when the query of the
    line, if it is one, does. *)
Lemma process_line_returns_iff (a : ambient) (line : string) (st : state) :
  is_header_line line = false →
  (∃ r, process_line index num_stripes a line st = Ok r)
  ↔ query_returns index num_stripes (a, line).
Proof.
  intros Hh. unfold query_returns. cbn [fst snd].
  rewrite process_line_query
    by (rewrite <- is_header_line_header; congruence).
  destruct (query_bounds_Ok a line) as [[[startv endv]|] ->];
    cbn [mbind outcome_bind].
  - unfold run_query. split.
    + intros [r Hr] s e [= <- <-].
      destruct (evaluate_query index num_stripes startv endv) as [r'|f];
        [eauto | discriminate].
    + intros Hq. destruct (Hq startv endv eq_refl) as [[res out] ->].
      cbn. eauto.
  - split; [discriminate | eauto].
Qed.

Lemma workload_loop_returns_iff (g : list (ambient * string)) (st : state) :
  Forall (λ q, is_header_line q.2 = false) g →
  (∃ r, workload_loop index num_stripes g st = Ok r)
  ↔ Forall (query_returns index num_stripes) g.
Proof.
  intros Hg. revert st.
  induction Hg as [|[a line] g Hh _ IH]; intros st; cbn [workload_loop].
  - split; [constructor | eauto].
  - cbn [snd] in Hh. rewrite Forall_cons.
    rewrite <- (process_line_returns_iff a line st Hh). split.
    + intros [r Hr].
      destruct (process_line index num_stripes a line st) as [[st1 out1]|f]
        eqn:Hline; [| discriminate].
      split; [eauto |]. apply (IH st1).
      cbn [mbind outcome_bind] in Hr.
      destruct (workload_loop index num_stripes g st1) as [r'|f];
        [eauto | discriminate].
    + intros [[[st1 out1] ->] Hrest]. cbn [mbind outcome_bind].
      apply (IH st1) in Hrest as [[st2 out2] ->]. cbn. eauto.
Qed.

Lemma query_blocks_by_line (a a' : ambient) (line : string) :
  stores_bounds line = true →
  query_blocks index num_stripes (a, line)
  = query_blocks index num_stripes (a', line).
Proof.
  intros Hs. unfold query_blocks. cbn [fst snd].
  rewrite (stores_bounds_query_bounds a a' line Hs). reflexivity.
Qed.

Lemma query_lookups_by_line (a a' : ambient) (line : string) :
  stores_bounds line = true →
  query_lookups index num_stripes (a, line)
  = query_lookups index num_stripes (a', line).
Proof.
  intros Hs. unfold query_lookups. cbn [fst snd].
  rewrite (stores_bounds_query_bounds a a' line Hs). reflexivity.
Qed.

Lemma query_returns_by_line (a a' : ambient) (line : string) :
  stores_bounds line = true →
  query_returns index num_stripes (a, line) →
  query_returns index num_stripes (a', line).
Proof.
  intros Hs. unfold query_returns. cbn [fst snd].
  rewrite (stores_bounds_query_bounds a a' line Hs). auto.
Qed.

Lemma blocks_of_lines (qs : list (ambient * string)) :
  Forall (λ q, stores_bounds q.2 = true) qs →
  query_blocks index num_stripes <$> qs
  = (λ line, query_blocks index num_stripes (quiet 0, line)) <$> qs.*2.
Proof.
  induction 1 as [|[a line] qs Hs _ IH]; [reflexivity |].
  cbn [fmap list_fmap snd] in *. rewrite IH.
  rewrite (query_blocks_by_line a (quiet 0) line Hs). reflexivity.
Qed.

Lemma lookups_of_lines (qs : list (ambient * string)) :
  Forall (λ q, stores_bounds q.2 = true) qs →
  concat (query_lookups index num_stripes <$> qs)
  = concat ((λ line, query_lookups index num_stripes (quiet 0, line))
              <$> qs.*2).
Proof.
  induction 1 as [|[a line] qs Hs _ IH]; [reflexivity |].
  cbn [fmap list_fmap snd concat] in *. rewrite IH.
  rewrite (query_lookups_by_line a (quiet 0) line Hs). reflexivity.
Qed.

Lemma reported_blocks_query_lookups (qs : list (ambient * string)) :
  reported_blocks (concat (query_lookups index num_stripes <$> qs)) = [].
Proof.
  induction qs as [|q qs IH]; [reflexivity |].
  cbn [fmap list_fmap concat].
  rewrite reported_blocks_app, IH, app_nil_r, query_lookups_trace.
  apply reported_blocks_lookups.
Qed.

Lemma reported_blocks_group (qs : list (ambient * string)) :
  reported_blocks (concat (query_lookups index num_stripes <$> qs)
                   ++ group_report index num_stripes qs)
  = match qs with
    | [] => []
    | _ :: _ =>
        [(inject_Z (wrap64 (Zsum (query_blocks index num_stripes <$> qs)))
          / inject_Z (Z.of_nat (length qs)))%Q]
    end.
Proof.
  rewrite reported_blocks_app, reported_blocks_query_lookups.
  destruct qs; reflexivity.
Qed.

End OrderFacts.

(** X14.  Within a group whose query records all give their bounds, the
    order of the lines does not matter to the average block count nor to
    the values looked up, whatever the durations measured and whatever the
    variables [startv] and [endv] held before each line: when the run over
    a group returns, the run over the same lines in any other order returns
    too, reports the same average block count, and has looked up the same
    values the same number of times.  When moreover each line keeps the
    duration measured for it, the average time reported is the same too. *)
Theorem group_ignores_line_order
    (index : IndexStructure) (num_stripes : nat)
    (w w' : list (ambient * string)) (st : state) (out : list event) :
  Forall (λ q, ¬ has_substring q.2 "selectivity") w →
  Forall (λ q, stores_bounds q.2 = true) w →
  Z.of_nat (length w) ≤ LONG_MAX →
  w.*2 ≡ₚ w'.*2 →
  evaluate_workload index num_stripes w = Ok (st, out) →
  ∃ out',
    evaluate_workload index num_stripes w' = Ok (st, out')
    ∧ reported_blocks out' = reported_blocks out
    ∧ looked_up out' ≡ₚ looked_up out
    ∧ (w ≡ₚ w' → reports out' = reports out).
Proof.
  intros Hg Hs Hlen Hperm Hrun.
  assert (∀ a' line, (a', line) ∈ w' → ∃ a, (a, line) ∈ w) as Hfrom.
  { intros a' line Hin'.
    assert (line ∈ w'.*2) as Hline
      by (apply list_elem_of_fmap; exists (a', line); auto).
    rewrite <- Hperm in Hline.
    apply list_elem_of_fmap in Hline as ([a l] & -> & Hin). eauto. }
  assert (∀ P : string → Prop,
            Forall (λ q : ambient * string, P q.2) w →
            Forall (λ q : ambient * string, P q.2) w') as Hmove.
  { intros P HP. apply Forall_forall. intros [a' line] Hin'.
    destruct (Hfrom a' line Hin') as [a Hin].
    exact (proj1 (Forall_forall _ _) HP (a, line) Hin). }
  pose proof (Hmove (λ l, ¬ has_substring l "selectivity") Hg) as Hg'.
  pose proof (Hmove (λ l, stores_bounds l = true) Hs) as Hs'.
  assert (length w' = length w) as Hlen'.
  { pose proof (Permutation_length Hperm) as Hl.
    rewrite !length_fmap in Hl. lia. }
  assert (∀ v, Forall (λ q : ambient * string,
                         ¬ has_substring q.2 "selectivity") v →
               Forall (λ q : ambient * string, is_header_line q.2 = false) v)
    as Hno.
  { intros v Hv. eapply Forall_impl; [exact Hv |].
    intros [a line] Hn. cbn in *.
    destruct (is_header_line line) eqn:Hh; [| reflexivity].
    apply is_header_line_header in Hh. contradiction. }
  assert (∃ r, evaluate_workload index num_stripes w' = Ok r)
    as [[st' out'] Hrun'].
  { unfold evaluate_workload in Hrun |- *.
    destruct (workload_loop index num_stripes w initial) as [[st1 out1]|f]
      eqn:Hloop; [| discriminate].
    assert (Forall (query_returns index num_stripes) w) as Hret.
    { apply (workload_loop_returns_iff index num_stripes w initial);
        [apply Hno, Hg | eauto]. }
    assert (∃ r, workload_loop index num_stripes w' initial = Ok r)
      as [[st1' out1'] ->].
    { apply workload_loop_returns_iff; [apply Hno, Hg' |].
      apply Forall_forall. intros [a' line] Hin'.
      destruct (Hfrom a' line Hin') as [a Hin].
      apply (query_returns_by_line index num_stripes a a' line).
      - exact (proj1 (Forall_forall _ _) Hs (a, line) Hin).
      - exact (proj1 (Forall_forall _ _) Hret (a, line) Hin). }
    cbn [mbind outcome_bind].
    destruct (flush_total st1') as (st2 & report & -> & _). cbn. eauto. }
  pose proof (run_over_group index num_stripes w st out Hg Hlen Hrun)
    as [-> ->].
  pose proof (run_over_group index num_stripes w' st' out' Hg'
                ltac:(lia) Hrun') as [-> ->].
  eexists. split; [exact Hrun' |].
  set (qs := filter (λ q : ambient * string, is_query_line q.2 = true) w).
  set (qs' := filter (λ q : ambient * string, is_query_line q.2 = true) w').
  assert (∀ v, Forall (λ q : ambient * string, stores_bounds q.2 = true) v →
               Forall (λ q : ambient * string, stores_bounds q.2 = true)
                      (filter (λ q : ambient * string,
                                 is_query_line q.2 = true) v)) as Hkeep.
  { intros v Hv. apply Forall_forall.
    intros q [_ Hin]%list_elem_of_filter.
    exact (proj1 (Forall_forall _ _) Hv q Hin). }
  pose proof (Hkeep w Hs) as Hqs. pose proof (Hkeep w' Hs') as Hqs'.
  fold qs in Hqs. fold qs' in Hqs'.
  assert (qs'.*2 ≡ₚ qs.*2) as Hlines.
  { unfold qs, qs'. rewrite !filter_query_lines, Hperm. reflexivity. }
  split; [| split].
  - rewrite !reported_blocks_group.
    pose proof (Permutation_length Hlines) as Hl. rewrite !length_fmap in Hl.
    pose proof (Zsum_Permutation _ _
                  (fmap_Permutation
                     (λ line, query_blocks index num_stripes (quiet 0, line))
                     _ _ Hlines)) as Hsum.
    rewrite <- !blocks_of_lines in Hsum by assumption.
    destruct qs as [|q qs0], qs' as [|q' qs0'];
      [reflexivity | discriminate | discriminate |].
    rewrite Hsum, Hl. reflexivity.
  - rewrite !looked_up_app.
    rewrite !(proj2 (reports_group_report index num_stripes _)), !app_nil_r.
    rewrite !lookups_of_lines by assumption.
    unfold looked_up. rewrite Hlines. reflexivity.
  - intros Hpairs.
    assert (qs' ≡ₚ qs) as Hpq by (unfold qs, qs'; rewrite Hpairs; reflexivity).
    unfold reports. rewrite !filter_app.
    fold (reports (concat (query_lookups index num_stripes <$> qs'))).
    fold (reports (concat (query_lookups index num_stripes <$> qs))).
    rewrite !reports_query_lookups.
    rewrite (group_report_Permutation index num_stripes _ _ Hpq).
    reflexivity.
Qed.

Lemma group_ignores_line_order_witness :
  ∃ out',
    evaluate_workload scenario_index 3
      [(quiet 9, "range: 29,31"%string); (quiet 1, "point: 20"%string)]
    = Ok (initial, out')
    ∧ reported_blocks out' = [(inject_Z 2 / inject_Z 2)%Q].
Proof.
  destruct (group_ignores_line_order scenario_index 3
              [(quiet 4, "point: 20"%string); (quiet 6, "range: 29,31"%string)]
              [(quiet 9, "range: 29,31"%string); (quiet 1, "point: 20"%string)]
              initial
              [Lookup 20; Lookup 29; Lookup 30; Lookup 31;
               AvgBlk (inject_Z 2 / inject_Z 2);
               AvgTime (inject_Z 10 / (nanos_per_second * inject_Z 2))])
    as (out' & Hrun & Hblocks & _).
  - repeat constructor; cbn [snd]; rewrite <- find_npos; vm_compute; tauto.
  - repeat constructor.
  - cbn; unfold LONG_MAX; lia.
  - apply Permutation_swap.
  - vm_compute. reflexivity.
  - exists out'. split; [exact Hrun | exact Hblocks].
Defined.

(** ** A table of less than one stripe *)

Section ZeroStripes.

Variable index : IndexStructure.

Lemma process_line_zero_stripes (a : ambient) (line : string)
      (st st' : state) (out : list event) :
  blkcount st = 0 →
  process_line index 0 a line st = Ok (st', out) →
  blkcount st' = 0 ∧ Forall (λ q, (q == 0)%Q) (reported_blocks out).
Proof.
  intros Hblk
    [(_ & report & Hflush & ->)
    | [(_ & _ & s & e & res & _ & Heval & Hlen & ->)
      | (_ & _ & -> & ->)]]%process_line_cases.
  - rewrite reported_blocks_app, app_nil_r.
    apply flush_report in Hflush as (_ & Hz & Hnz).
    destruct (decide (searchtime st = 0)) as [H | H].
    + destruct (Hz H) as [-> ->]. split; [exact Hblk | constructor].
    + destruct (Hnz H) as [-> ->]. split; [reflexivity |].
      constructor; [| constructor].
      unfold avg_blk_of, Qdiv. rewrite Hblk. apply Qmult_0_l.
  - rewrite (evaluate_query_trace _ _ _ _ _ _ Heval), reported_blocks_lookups.
    split; [| constructor].
    destruct res; [| discriminate]. cbn [blkcount GetOnesCount].
    rewrite Hblk. reflexivity.
  - split; [exact Hblk | constructor].
Qed.

Lemma workload_loop_zero_stripes (w : list (ambient * string))
      (st st' : state) (out : list event) :
  blkcount st = 0 →
  workload_loop index 0 w st = Ok (st', out) →
  blkcount st' = 0 ∧ Forall (λ q, (q == 0)%Q) (reported_blocks out).
Proof.
  revert st st' out.
  induction w as [|[a line] w IH]; intros st st' out Hblk;
    cbn [workload_loop].
  - intros [= <- <-]. split; [exact Hblk | constructor].
  - destruct (process_line index 0 a line st) as [[st1 out1]|f]
      eqn:Hline; [| discriminate].
    cbn [mbind outcome_bind].
    destruct (workload_loop index 0 w st1) as [[st2 out2]|f]
      eqn:Hloop; [| discriminate].
    cbn [mbind outcome_bind]. intros [= <- <-].
    destruct (process_line_zero_stripes a line st st1 out1 Hblk Hline)
      as [Hblk1 Hout1].
    destruct (IH st1 st2 out2 Hblk1 Hloop) as [Hblk2 Hout2].
    split; [exact Hblk2 |].
    rewrite reported_blocks_app. apply Forall_app. auto.
Qed.

Lemma evaluate_workload_zero_stripes (w : list (ambient * string))
      (st : state) (out : list event) :
  evaluate_workload index 0 w = Ok (st, out) →
  Forall (λ q, (q == 0)%Q) (reported_blocks out).
Proof.
  unfold evaluate_workload.
  destruct (workload_loop index 0 w initial) as [[st1 out1]|f]
    eqn:Hloop; [| discriminate].
  cbn [mbind outcome_bind].
  destruct (flush st1) as [[st2 report]|f] eqn:Hflush; [| discriminate].
  cbn [mbind outcome_bind]. intros [= <- <-].
  destruct (workload_loop_zero_stripes w initial st1 out1 eq_refl Hloop)
    as [Hblk Hout].
  rewrite reported_blocks_app. apply Forall_app. split; [exact Hout |].
  apply flush_report in Hflush as (_ & Hz & Hnz).
  destruct (decide (searchtime st1 = 0)) as [H | H].
  - destruct (Hz H) as [_ ->]. constructor.
  - destruct (Hnz H) as [_ ->]. constructor; [| constructor].
    unfold avg_blk_of, Qdiv. rewrite Hblk. apply Qmult_0_l.
Qed.

End ZeroStripes.

(** X15.  A table whose last column has fewer than 50000 rows is evaluated
    with zero stripes: the workload runs against the index the build loops
    leave, with the stripe count they leave, and every average block count
    it reports is zero, whatever the index answers and whatever the
    queries. *)
Theorem small_table_reports_zero
    (byte_size : IndexStructure → Z)
    (factories : list IndexStructureFactory) (factory : IndexStructureFactory)
    (columns : list TableColumn) (column : TableColumn)
    (w : list (ambient * string)) (st : state) (out : list event) :
  0 ≤ num_rows column < 50000 →
  let built := build_indexes byte_size (factories ++ [factory])
                             (columns ++ [column]) in
  let index := Create factory (table_column column) 50000 in
  built_index built = Some index
  ∧ built_num_stripes built = 0
  ∧ (evaluate_workload index (Z.to_nat (built_num_stripes built)) w
     = Ok (st, out) →
     ∀ q, q ∈ reported_blocks out → (q == 0)%Q).
Proof.
  intros Hrows built index. unfold built, index. rewrite build_indexes_last.
  cbn [build_one built_index built_num_stripes].
  rewrite stripes_of_rows by (unfold SIZE_MAX; lia).
  rewrite Z.div_small by exact Hrows.
  split; [reflexivity |]. split; [reflexivity |].
  cbn [Z.to_nat]. intros Hrun.
  apply Forall_forall. eapply evaluate_workload_zero_stripes, Hrun.
Qed.

Lemma small_table_reports_zero_witness : (inject_Z 0 / inject_Z 1 == 0)%Q.
Proof.
  destruct (small_table_reports_zero (λ _, 64) []
              {| Create := λ _ _, full_index |} []
              {| table_column := column_of [10; 20]; num_rows := 49999 |}
              [(quiet 5, "range: 1,4"%string)] initial
              [Lookup 1; Lookup 2; Lookup 3; Lookup 4;
               AvgBlk (inject_Z 0 / inject_Z 1);
               AvgTime (inject_Z 5 / (nanos_per_second * inject_Z 1))])
    as (_ & _ & Hzero).
  { cbn [num_rows]. lia. }
  apply Hzero; [vm_compute; reflexivity |].
  change (inject_Z 0 / inject_Z 1 ∈ [inject_Z 0 / inject_Z 1])%Q.
  constructor.
Defined.
